(** * ccremote: the session monitoring engine (src/core/monitor.ts)

    A shallow embedding of the [Monitor] class and of the pure helpers it
    is built from, followed by the properties checked against it.

    Conventions of the embedding.
    - A JavaScript string is the list of its UTF-16 code units ([N]).
    - A [Date] is its epoch value in milliseconds ([Z]); local wall-clock
      fields are taken at a fixed offset from UTC (no daylight-saving
      transition inside the interval considered).
    - Regular expressions are kept as syntax trees that mirror the
      literals of the source and are run by a backtracking matcher with
      the priorities of the ECMAScript matcher.
    - The collaborators injected into the constructor (session manager,
      tmux manager, Discord bot) and the clock are operations on an
      abstract world; every call made to them is recorded in a trace.
    - A method runs to completion: what the cycles started by other ticks
      of the timers do during one of its awaits is not interleaved with it.
      The overlap of cycles is treated separately, on the time line of the
      timers. *)

From Stdlib Require Import ZArith NArith List String Ascii Bool Lia.
From stdpp Require Import gmap list.

Set Implicit Arguments.
Open Scope Z_scope.

(* ===================================================================== *)
(** ** JavaScript strings *)
(* ===================================================================== *)

Module Js.

(** A string: its UTF-16 code units. *)
Abbreviation jsstring := (list N).

(** Code points of a UTF-8 byte sequence (the encoding of this file, hence
    of the literals below). *)
Fixpoint utf8Decode (bs : list N) : list N :=
  match bs with
  | [] => []
  | b :: t =>
      if (b <? 0x80)%N then b :: utf8Decode t
      else match t with
           | [] => [b]
           | b2 :: t2 =>
               if (b <? 0xE0)%N
               then ((b mod 32) * 64 + b2 mod 64)%N :: utf8Decode t2
               else match t2 with
                    | [] => [b; b2]
                    | b3 :: t3 =>
                        if (b <? 0xF0)%N
                        then ((b mod 16) * 4096 + (b2 mod 64) * 64
                              + b3 mod 64)%N :: utf8Decode t3
                        else match t3 with
                             | [] => [b; b2; b3]
                             | b4 :: t4 =>
                                 ((b mod 8) * 262144 + (b2 mod 64) * 4096
                                  + (b3 mod 64) * 64 + b4 mod 64)%N
                                   :: utf8Decode t4
                             end
                    end
           end
  end.

(** UTF-16 code units of a code point. *)
Definition utf16 (cp : N) : list N :=
  if (cp <? 0x10000)%N then [cp]
  else [(0xD800 + (cp - 0x10000) / 1024)%N; (0xDC00 + (cp - 0x10000) mod 1024)%N].

(** A string literal of the source, as code units. *)
Definition lit (s : string) : jsstring :=
  flat_map utf16 (utf8Decode (map N_of_ascii (list_ascii_of_string s))).

Fixpoint eqb (a b : jsstring) : bool :=
  match a, b with
  | [], [] => true
  | x :: a', y :: b' => N.eqb x y && eqb a' b'
  | _, _ => false
  end.

(** [startsWith s p] is [s.startsWith(p)]. *)
Fixpoint startsWith (s p : jsstring) {struct p} : bool :=
  match p, s with
  | [], _ => true
  | x :: p', y :: s' => N.eqb x y && startsWith s' p'
  | _ :: _, [] => false
  end.

(** [includes s x] is [s.includes(x)]. *)
Fixpoint includes (s x : jsstring) : bool :=
  startsWith s x ||
  match s with
  | [] => false
  | _ :: s' => includes s' x
  end.

(** [substring s n] is [s.substring(n)] for a non-negative [n]. *)
Definition substring (s : jsstring) (n : nat) : jsstring := skipn n s.

(** WhiteSpace and LineTerminator code points: what [trim] strips and what
    [\s] matches. *)
Definition isWhiteSpace (c : N) : bool :=
  ((9 <=? c) && (c <=? 13) || (c =? 32) || (c =? 160) || (c =? 0x1680)
   || (0x2000 <=? c) && (c <=? 0x200A) || (c =? 0x2028) || (c =? 0x2029)
   || (c =? 0x202F) || (c =? 0x205F) || (c =? 0x3000) || (c =? 0xFEFF))%N.

Fixpoint trimStart (s : jsstring) : jsstring :=
  match s with
  | c :: s' => if isWhiteSpace c then trimStart s' else s
  | [] => []
  end.

Definition trim (s : jsstring) : jsstring :=
  rev (trimStart (rev (trimStart s))).

Definition isUpperAscii (c : N) : bool := ((65 <=? c) && (c <=? 90))%N.
Definition isLowerAscii (c : N) : bool := ((97 <=? c) && (c <=? 122))%N.
Definition isDigit (c : N) : bool := ((48 <=? c) && (c <=? 57))%N.

Definition lowerChar (c : N) : N := if isUpperAscii c then (c + 32)%N else c.
Definition upperChar (c : N) : N := if isLowerAscii c then (c - 32)%N else c.

(** [toLowerCase] on the ASCII letters.  The code units outside ASCII are
    left as they are: the only patterns applied to a lower-cased string
    ([parseResetTime], [parseTimeToNextOccurrence]) accept digits, a colon,
    white space and the letters a, m, p, and no code unit outside ASCII
    lower-cases to one of those. *)
Definition toLowerCase (s : jsstring) : jsstring := map lowerChar s.

(** [split s] is [s.split('\n')]: never empty. *)
Fixpoint split (s : jsstring) : list jsstring :=
  match s with
  | [] => [[]]
  | c :: s' =>
      if (c =? 10)%N then [] :: split s'
      else match split s' with
           | l :: ls => (c :: l) :: ls
           | [] => [[c]]
           end
  end.

(** [join ls] is [ls.join('\n')]. *)
Fixpoint join (ls : list jsstring) : jsstring :=
  match ls with
  | [] => []
  | [l] => l
  | l :: ls' => l ++ 10%N :: join ls'
  end.

(** [lastN n l] is [l.slice(-n)] on an array. *)
Definition lastN {A} (n : nat) (l : list A) : list A :=
  skipn (length l - n) l.

(** Decimal digits of a natural number, most significant first. *)
Fixpoint digitsAux (fuel : nat) (n : N) (acc : jsstring) : jsstring :=
  match fuel with
  | O => acc
  | S fuel' =>
      let acc' := (48 + n mod 10)%N :: acc in
      if (n <? 10)%N then acc' else digitsAux fuel' (n / 10)%N acc'
  end.

(** [String(n)] for an integer [n]. *)
Definition ofZ (z : Z) : jsstring :=
  let n := Z.to_N (Z.abs z) in
  let ds := digitsAux (S (N.to_nat (N.log2 n))) n [] in
  if z <? 0 then 45%N :: ds else ds.

(** [Number.parseInt(s, 10)] on a string of decimal digits. *)
Definition parseDigits (s : jsstring) : Z :=
  fold_left (fun acc c => acc * 10 + (Z.of_N c - 48)) s 0.

End Js.

Import Js.

(* ===================================================================== *)
(** ** Regular expressions *)
(* ===================================================================== *)

Module Regex.

(** The fragment of the ECMAScript pattern syntax the source uses. *)
Inductive regex : Type :=
| REmpty                                  (* the empty pattern *)
| RChar (c : N)                           (* a pattern character *)
| RClass (invert : bool) (p : N -> bool)  (* a class, [.] or an escape *)
| RSeq (a b : regex)
| RAlt (a b : regex)                      (* a|b, a first *)
| RStar (a : regex)                       (* a*, greedy *)
| RGroup (i : nat) (a : regex)            (* the i-th capturing group *)
| RBol                                    (* ^ *)
| REol                                    (* $ *)
| RWordB                                  (* \b *)
| RNegLook (a : regex).                   (* (?!a) *)

Record flags := Flags { ignoreCase : bool; multiline : bool }.

(** A position of the matcher: the code units already passed (last one
    first), those still ahead, and the groups captured so far. *)
Record mstate := MS {
  consumed : jsstring;
  remaining : jsstring;
  captures : list (nat * jsstring)
}.

Definition isLineTerminator (c : N) : bool :=
  ((c =? 10) || (c =? 13) || (c =? 0x2028) || (c =? 0x2029))%N.

Definition isWordChar (c : N) : bool :=
  (isDigit c || isUpperAscii c || isLowerAscii c || (c =? 95))%N.

(** Canonicalize of a pattern without the unicode flag.  Every letter of
    the patterns below is ASCII, and a code unit outside ASCII never
    canonicalizes to an ASCII one, so upper-casing ASCII is exact here. *)
Definition canonicalize (fl : flags) (c : N) : N :=
  if ignoreCase fl then upperChar c else c.

Definition inClass (fl : flags) (p : N -> bool) (c : N) : bool :=
  if ignoreCase fl then p c || p (upperChar c) || p (lowerChar c) else p c.

Definition nextIsWord (l : jsstring) : bool :=
  match l with c :: _ => isWordChar c | [] => false end.

Definition atBol (fl : flags) (x : mstate) : bool :=
  match consumed x with
  | [] => true
  | c :: _ => multiline fl && isLineTerminator c
  end.

Definition atEol (fl : flags) (x : mstate) : bool :=
  match remaining x with
  | [] => true
  | c :: _ => multiline fl && isLineTerminator c
  end.

Definition step (x : mstate) (c : N) (tl : jsstring) : mstate :=
  MS (c :: consumed x) tl (captures x).

Definition capture (i : nat) (x y : mstate) : mstate :=
  MS (consumed y) (remaining y)
     ((i, firstn (length (remaining x) - length (remaining y)) (remaining x))
        :: captures y).

(** The loop of a greedy star whose body is matched by [body]: one more
    turn first, the continuation [k] when the body fails or the turn has
    consumed nothing.  [n] bounds the number of turns; a turn consumes at
    least one code unit, so the length of the input plus one is enough. *)
Fixpoint starLoop (body : (mstate -> option mstate) -> mstate -> option mstate)
    (k : mstate -> option mstate) (n : nat) (x : mstate) : option mstate :=
  match n with
  | O => k x
  | S n' =>
      match body (fun y =>
                    if (length (remaining y) <? length (remaining x))%nat
                    then starLoop body k n' y else None) x with
      | Some y => Some y
      | None => k x
      end
  end.

(** The backtracking matcher, in continuation-passing style: [rmatch fl r k x]
    matches [r] at [x] and hands each end position to [k], in the order of
    priority of the pattern, until [k] succeeds. *)
Fixpoint rmatch (fl : flags) (r : regex) (k : mstate -> option mstate)
    (x : mstate) : option mstate :=
  match r with
  | REmpty => k x
  | RChar c =>
      match remaining x with
      | ch :: tl =>
          if (canonicalize fl ch =? canonicalize fl c)%N
          then k (step x ch tl) else None
      | [] => None
      end
  | RClass inv p =>
      match remaining x with
      | ch :: tl =>
          if xorb inv (inClass fl p ch) then k (step x ch tl) else None
      | [] => None
      end
  | RSeq a b => rmatch fl a (rmatch fl b k) x
  | RAlt a b =>
      match rmatch fl a k x with
      | Some y => Some y
      | None => rmatch fl b k x
      end
  | RStar a => starLoop (rmatch fl a) k (S (length (remaining x))) x
  | RGroup i a => rmatch fl a (fun y => k (capture i x y)) x
  | RBol => if atBol fl x then k x else None
  | REol => if atEol fl x then k x else None
  | RWordB =>
      if xorb (nextIsWord (consumed x)) (nextIsWord (remaining x))
      then k x else None
  | RNegLook a =>
      match rmatch fl a Some x with
      | Some _ => None
      | None => k x
      end
  end.

(** The first match, scanning the start positions from the left. *)
Fixpoint searchFrom (fl : flags) (r : regex) (pre rest : jsstring)
    {struct rest} : option (jsstring * mstate) :=
  match rmatch fl r Some (MS pre rest []) with
  | Some y => Some (rest, y)
  | None =>
      match rest with
      | [] => None
      | c :: tl => searchFrom fl r (c :: pre) tl
      end
  end.

(** [test fl r s] is [r.test(s)] for a pattern without the g and y flags. *)
Definition test (fl : flags) (r : regex) (s : jsstring) : bool :=
  match searchFrom fl r [] s with Some _ => true | None => false end.

(** The result of [s.match(r)]: the matched text and the groups. *)
Record matched := Matched { whole : jsstring; groups : list (nat * jsstring) }.

Definition group (m : matched) (i : nat) : option jsstring :=
  snd <$> find (fun g => Nat.eqb (fst g) i) (groups m).

Definition exec (fl : flags) (r : regex) (s : jsstring) : option matched :=
  match searchFrom fl r [] s with
  | Some (from, y) =>
      Some (Matched (firstn (length from - length (remaining y)) from)
                    (captures y))
  | None => None
  end.

(** Derived forms. *)
Definition RPlus (a : regex) : regex := RSeq a (RStar a).
Definition ROpt (a : regex) : regex := RAlt a REmpty.
Definition RStr (s : string) : regex :=
  fold_right (fun c r => RSeq (RChar c) r) REmpty (lit s).
Fixpoint RAlts (l : list regex) : regex :=
  match l with
  | [] => RClass false (fun _ => false)
  | [a] => a
  | a :: l' => RAlt a (RAlts l')
  end.
Fixpoint RSeqs (l : list regex) : regex :=
  match l with
  | [] => REmpty
  | a :: l' => RSeq a (RSeqs l')
  end.

Definition digit : regex := RClass false isDigit.           (* \d *)
Definition space : regex := RClass false isWhiteSpace.      (* \s *)
Definition dot : regex := RClass true isLineTerminator.     (* . *)
Definition oneOf (l : list N) : N -> bool :=
  fun c => existsb (N.eqb c) l.
Definition range (a b : string) : N -> bool :=
  fun c => match lit a, lit b with
           | [lo], [hi] => ((lo <=? c) && (c <=? hi))%N
           | _, _ => false
           end.

Definition plain : flags := Flags false false.
Definition flag_i : flags := Flags true false.
Definition flag_m : flags := Flags false true.
Definition flag_im : flags := Flags true true.

End Regex.

Import Regex.

(* ===================================================================== *)
(** ** Pure helpers of the monitor *)
(* ===================================================================== *)

(** [getNewOutput], monitor.ts 234-246. *)
Definition getNewOutput (lastOutput currentOutput : jsstring) : jsstring :=
  match lastOutput with
  | [] => currentOutput
  | _ :: _ =>
      if includes currentOutput lastOutput
      then substring currentOutput (length lastOutput)
      else currentOutput
  end.

(** The patterns of [Monitor.patterns], monitor.ts 45-66. *)
Module patterns.

(* /Do you want to (?:make this edit to|create|proceed)/i *)
Definition question : regex :=
  RSeq (RStr "Do you want to ")
       (RAlts [RStr "make this edit to"; RStr "create"; RStr "proceed"]).

(* /\b\d+\.\s+Yes/ *)
Definition numberedOptions : regex :=
  RSeqs [RWordB; RPlus digit; RStr "."; RPlus space; RStr "Yes"].

(* /❯/ *)
Definition currentSelection : regex := RStr "❯".

(* /^>.*↵\s*send|^>\s*$/m *)
Definition waitingForInput : regex :=
  RAlt (RSeqs [RBol; RStr ">"; RStar dot; RStr "↵"; RStar space; RStr "send"])
       (RSeqs [RBol; RStr ">"; RStar space; REol]).

(* /^(?!.*(?:◐|◑|◒|◓|⠋|⠙|⠹|⠸|processing|analyzing|running|executing|working|loading)).*$/im *)
Definition notProcessing : regex :=
  RSeqs [RBol;
         RNegLook
           (RSeq (RStar dot)
                 (RAlts [RStr "◐"; RStr "◑"; RStr "◒"; RStr "◓";
                         RStr "⠋"; RStr "⠙"; RStr "⠹"; RStr "⠸";
                         RStr "processing"; RStr "analyzing"; RStr "running";
                         RStr "executing"; RStr "working"; RStr "loading"]));
         RStar dot; REol].

End patterns.

(** [ANSI_ESCAPE], monitor.ts 42: the two code units ESC and [[]. *)
Definition ANSI_ESCAPE : jsstring := [27%N; 91%N].

(** [hasLimitMessage], monitor.ts 497-499:
    /limit\s+reached|usage\s+limit|limit.*resets/i *)
Definition limitPattern : regex :=
  RAlts [RSeqs [RStr "limit"; RPlus space; RStr "reached"];
         RSeqs [RStr "usage"; RPlus space; RStr "limit"];
         RSeqs [RStr "limit"; RStar dot; RStr "resets"]].

Definition hasLimitMessage (output : jsstring) : bool :=
  test flag_i limitPattern output.

(** [isActiveTerminalState], monitor.ts 505-517. *)
Definition activeStatePatterns : list (flags * regex) :=
  [ (* /^>\s*$/m *)
    (flag_m, RSeqs [RBol; RStr ">"; RStar space; REol]);
    (* /^[^>\n]*>\s*$/m *)
    (flag_m, RSeqs [RBol; RStar (RClass true (oneOf (lit ">" ++ [10%N])));
                    RStr ">"; RStar space; REol]);
    (* /─+\s*>\s*─+/ *)
    (plain, RSeqs [RPlus (RStr "─"); RStar space; RStr ">"; RStar space;
                   RPlus (RStr "─")]);
    (* /continue\s+this\s+conversation/i *)
    (flag_i, RSeqs [RStr "continue"; RPlus space; RStr "this"; RPlus space;
                    RStr "conversation"]);
    (* /you\s+can\s+continue/i *)
    (flag_i, RSeqs [RStr "you"; RPlus space; RStr "can"; RPlus space;
                    RStr "continue"]);
    (* /your\s+limit\s+(?:will\s+)?reset/i *)
    (flag_i, RSeqs [RStr "your"; RPlus space; RStr "limit"; RPlus space;
                    ROpt (RSeq (RStr "will") (RPlus space)); RStr "reset"]) ].

Definition isActiveTerminalState (output : jsstring) : bool :=
  existsb (fun p => test (fst p) (snd p) output) activeStatePatterns.

(** [detectApprovalDialog], monitor.ts 523-554: the loop over the lines,
    with its three flags and its early exit. *)
Fixpoint detectApprovalLoop (lines : list jsstring)
    (hasApprovalQuestion hasNumberedOptions hasCurrentSelection : bool) : bool :=
  match lines with
  | [] => false
  | line :: rest =>
      let trimmedLine := trim line in
      let q := if test flag_i patterns.question trimmedLine
               then true else hasApprovalQuestion in
      let n := if test plain patterns.numberedOptions trimmedLine
               then true else hasNumberedOptions in
      let s := if test plain patterns.currentSelection trimmedLine
               then true else hasCurrentSelection in
      if q && n && s then true else detectApprovalLoop rest q n s
  end.

Definition detectApprovalDialog (output : jsstring) : bool :=
  detectApprovalLoop (split output) false false false.

(** [isInteractiveApprovalDialog], monitor.ts 459-492. *)

(* /\d+\.\s+Yes/ *)
Definition optionYes : regex :=
  RSeqs [RPlus digit; RStr "."; RPlus space; RStr "Yes"].

(* /\[(?:[013-79]|[13][0-79]|4[0-79]|9[1-79])m/ *)
Definition normalColor : regex :=
  RSeqs [RStr "[";
         RAlts [RClass false (fun c => oneOf (lit "01") c || range "3" "7" c
                                       || oneOf (lit "9") c);
                RSeq (RClass false (oneOf (lit "13")))
                     (RClass false (fun c => range "0" "7" c || oneOf (lit "9") c));
                RSeq (RStr "4")
                     (RClass false (fun c => range "0" "7" c || oneOf (lit "9") c));
                RSeq (RStr "9")
                     (RClass false (fun c => range "1" "7" c || oneOf (lit "9") c))];
         RStr "m"].

(* /\[(?:2|8|90)m/ *)
Definition greyOrDim : regex :=
  RSeqs [RStr "["; RAlts [RStr "2"; RStr "8"; RStr "90"]; RStr "m"].

Definition hasApprovalText (line : jsstring) : bool :=
  includes line (lit "Do you want to") || includes line (lit "❯")
  || test plain optionYes line.

Definition hasNormalColors (line : jsstring) : bool :=
  includes line ANSI_ESCAPE && test plain normalColor line.

Definition isGreyOrDim (line : jsstring) : bool :=
  includes line ANSI_ESCAPE && test plain greyOrDim line.

(** One turn of the loop on the pair (hasInteractiveColors,
    hasApprovalContent). *)
Definition interactiveStep (acc : bool * bool) (line : jsstring) : bool * bool :=
  let '(hasInteractiveColors, hasApprovalContent) := acc in
  if hasApprovalText line then
    (if hasNormalColors line && negb (isGreyOrDim line)
     then true else hasInteractiveColors, true)
  else acc.

Definition isInteractiveApprovalDialog (colorOutput : jsstring) : bool :=
  let '(hasInteractiveColors, hasApprovalContent) :=
    fold_left interactiveStep (split colorOutput) (false, false) in
  if hasApprovalContent && negb (includes colorOutput ANSI_ESCAPE) then true
  else hasApprovalContent && hasInteractiveColors.

(** [extractApprovalInfo], monitor.ts 559-636. *)

Module ApprovalOption.
Record t := Build {
  number : Z;
  text : jsstring;
  shortcut : option jsstring
}.
End ApprovalOption.

Module ApprovalInfo.
Record t := Build {
  tool : jsstring;
  action : jsstring;
  question : jsstring;
  options : list ApprovalOption.t
}.
End ApprovalInfo.

Definition boxChars : jsstring :=
  lit "│┃┆┊╎╏║╭╮╯╰┌┐└┘├┤┬┴┼─━┄┅┈┉═╔╗╚╝╠╣╦╩╬".

(** [s.replace(/[cs]/g, '')]. *)
Definition removeChars (cs s : jsstring) : jsstring :=
  List.filter (fun c => negb (oneOf cs c)) s.

(** [s.replace(/\s+/g, ' ')]; [inRun] tells that the previous code unit
    was white space. *)
Fixpoint collapseSpaces (inRun : bool) (s : jsstring) : jsstring :=
  match s with
  | [] => []
  | c :: s' =>
      if isWhiteSpace c
      then (if inRun then collapseSpaces true s'
            else 32%N :: collapseSpaces true s')
      else c :: collapseSpaces false s'
  end.

Definition cleanDialogLine (line : jsstring) : jsstring :=
  trim (collapseSpaces false (removeChars (boxChars ++ lit "❯") line)).

(* /^(\d+)\./ *)
Definition numberPrefix : regex :=
  RSeqs [RBol; RGroup 1 (RPlus digit); RStr "."].

(* /\(([^)]+)\)$/ *)
Definition shortcutSuffix : regex :=
  RSeqs [RStr "("; RGroup 1 (RPlus (RClass true (oneOf (lit ")"))));
         RStr ")"; REol].

(* /([^/\\\s]+\.[a-z0-9]+)\?/i *)
Definition editedFile : regex :=
  RSeqs [RGroup 1
           (RSeqs [RPlus (RClass true
                            (fun c => oneOf (lit "/\") c || isWhiteSpace c));
                   RStr ".";
                   RPlus (RClass false
                            (fun c => range "a" "z" c || range "0" "9" c))]);
         RStr "?"].

(* /create ([^?\s]+)/ *)
Definition createdFile : regex :=
  RSeqs [RStr "create ";
         RGroup 1 (RPlus (RClass true
                            (fun c => oneOf (lit "?") c || isWhiteSpace c)))].

(** The numbered option a cleaned line carries, if any. *)
Definition parseOption (cleanLine : jsstring) : option ApprovalOption.t :=
  match exec plain numberPrefix cleanLine with
  | None => None
  | Some numberMatch =>
      let num := parseDigits (default [] (group numberMatch 1)) in
      let afterNumber := trim (skipn (length (whole numberMatch)) cleanLine) in
      match exec plain shortcutSuffix afterNumber with
      | Some shortcutMatch =>
          Some {| ApprovalOption.number := num;
                  ApprovalOption.text := trim (firstn (length afterNumber
                                        - length (whole shortcutMatch))
                                  afterNumber);
                  ApprovalOption.shortcut := group shortcutMatch 1 |}
      | None => Some {| ApprovalOption.number := num; ApprovalOption.text := afterNumber;
                     ApprovalOption.shortcut := None |}
      end
  end.

(** [m?.[1] || 'file']. *)
Definition fileOr (m : option matched) : jsstring :=
  match m with
  | Some m' => match group m' 1 with
               | Some (c :: g) => c :: g
               | _ => lit "file"
               end
  | None => lit "file"
  end.

(** The inner loop that looks for the command of a Bash dialog. *)
Fixpoint findCommand (lines : list jsstring) : jsstring :=
  match lines with
  | [] => lit "unknown command"
  | line :: rest =>
      let cleanLine := trim (removeChars boxChars line) in
      if negb (eqb cleanLine [])
         && negb (includes cleanLine (lit "Bash command"))
         && negb (includes cleanLine (lit "Do you want"))
         && negb (includes cleanLine (lit "Yes"))
         && negb (includes cleanLine (lit "No"))
         && (3 <? length cleanLine)%nat
      then cleanLine else findCommand rest
  end.

(** One turn of the loop over the lines. *)
Definition approvalStep (output : jsstring) (acc : ApprovalInfo.t)
    (line : jsstring) : ApprovalInfo.t :=
  let cleanLine := cleanDialogLine line in
  let opts := match parseOption cleanLine with
              | Some o => ApprovalInfo.options acc ++ [o]
              | None => ApprovalInfo.options acc
              end in
  if test flag_i patterns.question cleanLine then
    if includes cleanLine (lit "make this edit to") then
      {| ApprovalInfo.tool := lit "Edit";
         ApprovalInfo.action :=
           lit "Edit " ++ fileOr (exec flag_i editedFile cleanLine);
         ApprovalInfo.question := cleanLine; ApprovalInfo.options := opts |}
    else if includes cleanLine (lit "create") && includes cleanLine (lit ".") then
      {| ApprovalInfo.tool := lit "Write";
         ApprovalInfo.action :=
           lit "Create " ++ fileOr (exec plain createdFile cleanLine);
         ApprovalInfo.question := cleanLine; ApprovalInfo.options := opts |}
    else if includes cleanLine (lit "proceed") then
      if includes output (lit "Bash command") then
        {| ApprovalInfo.tool := lit "Bash";
           ApprovalInfo.action := lit "Execute: " ++ findCommand (split output);
           ApprovalInfo.question := cleanLine; ApprovalInfo.options := opts |}
      else
        {| ApprovalInfo.tool := lit "Tool";
           ApprovalInfo.action := lit "Proceed with operation";
           ApprovalInfo.question := cleanLine; ApprovalInfo.options := opts |}
    else
      {| ApprovalInfo.tool := ApprovalInfo.tool acc;
         ApprovalInfo.action := ApprovalInfo.action acc;
         ApprovalInfo.question := cleanLine; ApprovalInfo.options := opts |}
  else
    {| ApprovalInfo.tool := ApprovalInfo.tool acc;
       ApprovalInfo.action := ApprovalInfo.action acc;
       ApprovalInfo.question := ApprovalInfo.question acc;
       ApprovalInfo.options := opts |}.

Definition extractApprovalInfo (output : jsstring) : ApprovalInfo.t :=
  fold_left (approvalStep output) (split output)
    {| ApprovalInfo.tool := lit "Unknown";
       ApprovalInfo.action := lit "Unknown operation";
       ApprovalInfo.question := []; ApprovalInfo.options := [] |}.

(** [extractResetTime], monitor.ts 827-843. *)

(* \d{1,2}(?::\d{2})?\s*(?:am|pm)? *)
Definition timeText : regex :=
  RSeqs [digit; ROpt digit; ROpt (RSeqs [RStr ":"; digit; digit]);
         RStar space; ROpt (RAlt (RStr "am") (RStr "pm"))].

Definition timePatterns : list regex :=
  [ RSeq (RStr "resets ") (RGroup 1 timeText);
    RSeq (RStr "resets at ") (RGroup 1 timeText);
    RSeq (RStr "available again at ") (RGroup 1 timeText);
    RSeq (RStr "ready at ") (RGroup 1 timeText) ].

Fixpoint firstTime (ps : list regex) (output : jsstring) : option jsstring :=
  match ps with
  | [] => None
  | p :: ps' =>
      match exec flag_i p output with
      | Some m => Some (trim (default [] (group m 1)))
      | None => firstTime ps' output
      end
  end.

Definition extractResetTime (output : jsstring) : option jsstring :=
  firstTime timePatterns output.

(* ===================================================================== *)
(** ** Dates *)
(* ===================================================================== *)

Definition msPerMinute : Z := 60 * 1000.
Definition msPerHour : Z := 60 * msPerMinute.
Definition msPerDay : Z := 24 * msPerHour.

(** Local midnight of the day of [t], for a zone [tz] milliseconds east of
    UTC. *)
Definition startOfDay (tz t : Z) : Z := t - (t + tz) mod msPerDay.

(** [d.setHours(h, m, 0, 0)]: hours and minutes beyond the day carry over,
    as [Date] does. *)
Definition setHours (tz t h m : Z) : Z :=
  startOfDay tz t + h * msPerHour + m * msPerMinute.

(** [d.setDate(d.getDate() + 1)]: at the fixed offset of the embedding,
    the same wall clock 24 hours later. *)
Definition addDay (t : Z) : Z := t + msPerDay.

(* /^(\d{1,2})(?::(\d{2}))?\s*(am|pm)?$/ *)
Definition timePattern : regex :=
  RSeqs [RBol; RGroup 1 (RSeq digit (ROpt digit));
         ROpt (RSeq (RStr ":") (RGroup 2 (RSeq digit digit)));
         RStar space; ROpt (RGroup 3 (RAlt (RStr "am") (RStr "pm"))); REol].

(** The AM/PM conversion shared by the two parsers. *)
Definition to24h (period : option jsstring) (numHours : Z) : Z :=
  match period with
  | Some p =>
      if eqb p (lit "pm") && negb (numHours =? 12) then numHours + 12
      else if eqb p (lit "am") && (numHours =? 12) then 0
      else numHours
  | None => numHours
  end.

Definition minutesOf (minutes : option jsstring) : Z :=
  match minutes with
  | Some (c :: m) => parseDigits (c :: m)
  | _ => 0
  end.

(** [parseResetTime], monitor.ts 848-897, at the instant [now] its
    [new Date()] reads, in two parts.  First the time is read and placed on
    the calendar (lines 850-881): this is the value of [resetTime] when the
    sanity check is reached. *)
Definition resetDeadline (tz now : Z) (timeStr : jsstring) : option Z :=
  let timeStr := trim (toLowerCase timeStr) in
  match exec plain timePattern timeStr with
  | None => None
  | Some timeMatch =>
      let numHours :=
        to24h (group timeMatch 3)
              (parseDigits (default [] (group timeMatch 1))) in
      let numMinutes := minutesOf (group timeMatch 2) in
      let resetTime := setHours tz now numHours numMinutes in
      Some (if resetTime <=? now then addDay resetTime else resetTime)
  end.

(** Then the sanity check (lines 883-891).  The test [hoursToReset > 5] is
    on [(resetTime - now) / 3600000]; on integers of milliseconds that is
    [resetTime - now > 5 * 3600000]. *)
Definition parseResetTimeAt (tz now : Z) (timeStr : jsstring) : option Z :=
  match resetDeadline tz now timeStr with
  | None => None
  | Some resetTime =>
      if 5 * msPerHour <? resetTime - now then None else Some resetTime
  end.

(** [parseTimeToNextOccurrence], monitor.ts 965-1007. *)
Definition parseTimeToNextOccurrenceAt (tz now : Z) (timeStr : jsstring)
    : option Z :=
  let timeStr := trim (toLowerCase timeStr) in
  match exec plain timePattern timeStr with
  | None => None
  | Some timeMatch =>
      let numHours :=
        to24h (group timeMatch 3)
              (parseDigits (default [] (group timeMatch 1))) in
      let numMinutes := minutesOf (group timeMatch 2) in
      if (numHours <? 0) || (23 <? numHours) || (numMinutes <? 0)
         || (59 <? numMinutes)
      then None
      else Some (addDay (setHours tz now numHours numMinutes))
  end.

(* ===================================================================== *)
(** ** Data model *)
(* ===================================================================== *)

(** The session record of the registry, with the fields the monitor reads
    (its declaration, types/index.ts, is outside the files at hand).
    [created] and [nextExecution] are instants. *)
Inductive SessionStatus := active | waiting | waiting_approval | ended.

Module QuotaSchedule.
Record t := Build {
  time : jsstring;
  command : jsstring;
  nextExecution : Z
}.
End QuotaSchedule.

Module Session.
Record t := Build {
  id : jsstring;
  name : jsstring;
  tmuxSession : jsstring;
  created : Z;
  status : SessionStatus;
  quotaSchedule : option QuotaSchedule.t
}.
End Session.

(** The partial records the monitor passes to [updateSession]. *)
Inductive SessionUpdate :=
| SetStatus (s : SessionStatus)
| SetQuotaSchedule (q : QuotaSchedule.t).

(** [MonitoringOptions] (optional fields) and [Required<MonitoringOptions>]. *)
Module MonitoringOptions.
Record t := Build {
  pollInterval : option Z;
  maxRetries : option Z;
  autoRestart : option bool
}.
End MonitoringOptions.

Module Options.
Record t := Build {
  pollInterval : Z;
  maxRetries : Z;
  autoRestart : bool
}.
End Options.

(** A value of a notification's [metadata]; [MDate] is the instant whose
    [toISOString()] the source stores. *)
Inductive MetaValue :=
| MStr (s : jsstring)
| MNum (n : Z)
| MBool (b : bool)
| MDate (t : Z)
| MUndefined.

Inductive NotificationType :=
| n_limit | n_continued | n_approval | n_task_completed | n_error.

Module Notification.
Record t := Build {
  type : NotificationType;
  sessionId : jsstring;
  sessionName : jsstring;
  message : jsstring;
  metadata : list (string * MetaValue)
}.
End Notification.

Module EventType.
Inductive t := limit_detected | approval_needed | error | task_completed.
End EventType.

(** The [data] of a [MonitorEvent].  [idleDurationMs] is the idle time in
    milliseconds; the source stores it divided by 1000. *)
Inductive EventData :=
| LimitData (output : jsstring)
| ApprovalData (output : jsstring) (approvalInfo : ApprovalInfo.t)
    (reason : jsstring)
| TaskData (output : jsstring) (idleDurationMs : Z)
| ErrorData (error : jsstring).

Module MonitorEvent.
Record t := Build {
  type : EventType.t;
  sessionId : jsstring;
  data : EventData;
  timestamp : Z
}.
End MonitorEvent.

(** The per-session runtime state, monitor.ts 28-39, with
    [lastApprovalQuestion], which [handleApprovalRequest] adds to the
    object.  An optional boolean is [false] while undefined: the source only
    tests it for truth. *)
Module SessionState.
Record t := Build {
  lastOutput : jsstring;
  limitDetectedAt : option Z;
  awaitingContinuation : bool;
  retryCount : Z;
  lastContinuationTime : option Z;
  scheduledResetTime : option Z;
  immediateContinueAttempted : bool;
  quotaCommandSent : bool;
  lastOutputChangeTime : option Z;
  lastTaskCompletionNotification : option Z;
  lastApprovalQuestion : option jsstring
}.

Definition set_lastOutput v s :=
  Build v (limitDetectedAt s) (awaitingContinuation s) (retryCount s)
    (lastContinuationTime s) (scheduledResetTime s)
    (immediateContinueAttempted s) (quotaCommandSent s)
    (lastOutputChangeTime s) (lastTaskCompletionNotification s)
    (lastApprovalQuestion s).
Definition set_limitDetectedAt v s :=
  Build (lastOutput s) v (awaitingContinuation s) (retryCount s)
    (lastContinuationTime s) (scheduledResetTime s)
    (immediateContinueAttempted s) (quotaCommandSent s)
    (lastOutputChangeTime s) (lastTaskCompletionNotification s)
    (lastApprovalQuestion s).
Definition set_awaitingContinuation v s :=
  Build (lastOutput s) (limitDetectedAt s) v (retryCount s)
    (lastContinuationTime s) (scheduledResetTime s)
    (immediateContinueAttempted s) (quotaCommandSent s)
    (lastOutputChangeTime s) (lastTaskCompletionNotification s)
    (lastApprovalQuestion s).
Definition set_retryCount v s :=
  Build (lastOutput s) (limitDetectedAt s) (awaitingContinuation s) v
    (lastContinuationTime s) (scheduledResetTime s)
    (immediateContinueAttempted s) (quotaCommandSent s)
    (lastOutputChangeTime s) (lastTaskCompletionNotification s)
    (lastApprovalQuestion s).
Definition set_lastContinuationTime v s :=
  Build (lastOutput s) (limitDetectedAt s) (awaitingContinuation s)
    (retryCount s) v (scheduledResetTime s)
    (immediateContinueAttempted s) (quotaCommandSent s)
    (lastOutputChangeTime s) (lastTaskCompletionNotification s)
    (lastApprovalQuestion s).
Definition set_scheduledResetTime v s :=
  Build (lastOutput s) (limitDetectedAt s) (awaitingContinuation s)
    (retryCount s) (lastContinuationTime s) v
    (immediateContinueAttempted s) (quotaCommandSent s)
    (lastOutputChangeTime s) (lastTaskCompletionNotification s)
    (lastApprovalQuestion s).
Definition set_immediateContinueAttempted v s :=
  Build (lastOutput s) (limitDetectedAt s) (awaitingContinuation s)
    (retryCount s) (lastContinuationTime s) (scheduledResetTime s)
    v (quotaCommandSent s)
    (lastOutputChangeTime s) (lastTaskCompletionNotification s)
    (lastApprovalQuestion s).
Definition set_quotaCommandSent v s :=
  Build (lastOutput s) (limitDetectedAt s) (awaitingContinuation s)
    (retryCount s) (lastContinuationTime s) (scheduledResetTime s)
    (immediateContinueAttempted s) v
    (lastOutputChangeTime s) (lastTaskCompletionNotification s)
    (lastApprovalQuestion s).
Definition set_lastOutputChangeTime v s :=
  Build (lastOutput s) (limitDetectedAt s) (awaitingContinuation s)
    (retryCount s) (lastContinuationTime s) (scheduledResetTime s)
    (immediateContinueAttempted s) (quotaCommandSent s)
    v (lastTaskCompletionNotification s)
    (lastApprovalQuestion s).
Definition set_lastTaskCompletionNotification v s :=
  Build (lastOutput s) (limitDetectedAt s) (awaitingContinuation s)
    (retryCount s) (lastContinuationTime s) (scheduledResetTime s)
    (immediateContinueAttempted s) (quotaCommandSent s)
    (lastOutputChangeTime s) v
    (lastApprovalQuestion s).
Definition set_lastApprovalQuestion v s :=
  Build (lastOutput s) (limitDetectedAt s) (awaitingContinuation s)
    (retryCount s) (lastContinuationTime s) (scheduledResetTime s)
    (immediateContinueAttempted s) (quotaCommandSent s)
    (lastOutputChangeTime s) (lastTaskCompletionNotification s)
    v.
End SessionState.

(** The state [startMonitoring] installs, monitor.ts 112-122. *)
Definition initialState (now : Z) : SessionState.t :=
  {| SessionState.lastOutput := [];
     SessionState.limitDetectedAt := None;
     SessionState.awaitingContinuation := false;
     SessionState.retryCount := 0;
     SessionState.lastContinuationTime := None;
     SessionState.scheduledResetTime := None;
     SessionState.immediateContinueAttempted := false;
     SessionState.quotaCommandSent := false;
     SessionState.lastOutputChangeTime := Some now;
     SessionState.lastTaskCompletionNotification := None;
     SessionState.lastApprovalQuestion := None |}.

(** [x || d] on a number and on a boolean. *)
Definition orNumber (x : option Z) (d : Z) : Z :=
  match x with
  | Some v => if v =? 0 then d else v
  | None => d
  end.

Definition orBool (x : option bool) (d : bool) : bool :=
  match x with
  | Some true => true
  | _ => d
  end.

(** The options the constructor stores, monitor.ts 78-82. *)
Definition constructorOptions (options : MonitoringOptions.t) : Options.t :=
  {| Options.pollInterval := orNumber (MonitoringOptions.pollInterval options) 2000;
     Options.maxRetries := orNumber (MonitoringOptions.maxRetries options) 3;
     Options.autoRestart := orBool (MonitoringOptions.autoRestart options) true |}.

(** The options [new Monitor(a, b, c)] gets from the default argument [{}]. *)
Definition noOptions : MonitoringOptions.t :=
  {| MonitoringOptions.pollInterval := None;
     MonitoringOptions.maxRetries := None;
     MonitoringOptions.autoRestart := None |}.

(* ===================================================================== *)
(** ** Collaborators, machine state and the monad of the methods *)
(* ===================================================================== *)

(** The outcome of an awaited call: a value, or a thrown [Error] with its
    message. *)
Inductive result (A : Type) : Type :=
| Ok (a : A)
| Throw (e : jsstring).
Arguments Ok {A} a.
Arguments Throw {A} e.

(** The calls the monitor makes to the outside, as they are recorded. *)
Inductive Call :=
| GetSession (sessionId : jsstring)
| UpdateSession (sessionId : jsstring) (u : SessionUpdate)
| SessionExists (target : jsstring)
| CapturePane (target : jsstring)
| CapturePaneWithColors (target : jsstring)
| SendRawKeys (target keys : jsstring)
| SendContinueCommand (target : jsstring)
| SendNotification (sessionId : jsstring) (n : Notification.t)
| Emit (e : MonitorEvent.t)
| Sleep (ms : Z)
| SetInterval (timer : nat) (sessionId : jsstring) (ms : Z)
| ClearInterval (timer : nat).

(** The injected collaborators, as operations on a world [W]:
    [SessionManager] (getSession, updateSession), [TmuxManager]
    (sessionExists ... sendContinueCommand), [DiscordBot] (absent when the
    field is null), the clock behind [new Date()] and [Date.now()], the
    passing of time during a [setTimeout] wait, the zone of the local clock
    and [generateQuotaMessage] of utils/quota.ts. *)
Record Collaborators (W : Type) := {
  getSession : jsstring -> W -> result (option Session.t) * W;
  updateSession : jsstring -> SessionUpdate -> W -> result unit * W;
  sessionExists : jsstring -> W -> result bool * W;
  capturePane : jsstring -> W -> result jsstring * W;
  capturePaneWithColors : jsstring -> W -> result jsstring * W;
  sendRawKeys : jsstring -> jsstring -> W -> result unit * W;
  sendContinueCommand : jsstring -> W -> result unit * W;
  sendNotification :
    option (jsstring -> Notification.t -> W -> result unit * W);
  clock : W -> Z * W;
  wait : Z -> W -> W;
  timezone : Z;
  generateQuotaMessage : Z -> jsstring
}.

(** The monitor object together with what surrounds it: the live interval
    timers of the runtime (timer, session id, period), the world of the
    collaborators and the trace of calls, most recent first. *)
Record Machine (W : Type) := {
  options : Options.t;
  monitoringIntervals : gmap jsstring nat;
  sessionStates : gmap jsstring SessionState.t;
  timers : gmap nat (jsstring * Z);
  nextTimer : nat;
  world : W;
  trace : list Call
}.

Section Engine.

Context {W : Type} (col : Collaborators W).

Definition M (A : Type) : Type := Machine W -> result A * Machine W.

Definition ret {A} (a : A) : M A := fun s => (Ok a, s).

Definition bind {A B} (m : M A) (k : A -> M B) : M B :=
  fun s =>
    match m s with
    | (Ok a, s') => k a s'
    | (Throw e, s') => (Throw e, s')
    end.

Definition throw {A} (e : jsstring) : M A := fun s => (Throw e, s).

(** [try { m } catch (error) { h error }]. *)
Definition tryCatch {A} (m : M A) (h : jsstring -> M A) : M A :=
  fun s =>
    match m s with
    | (Ok a, s') => (Ok a, s')
    | (Throw e, s') => h e s'
    end.

Notation "'let*' x ':=' m 'in' k" := (bind m (fun x => k))
  (at level 10, x name, m at level 100, k at level 200, only parsing).
Notation "m ';;' k" := (bind m (fun _ => k))
  (at level 100, k at level 200, right associativity, only parsing).

Definition withWorld (w : W) (s : Machine W) : Machine W :=
  {| options := options s; monitoringIntervals := monitoringIntervals s;
     sessionStates := sessionStates s; timers := timers s;
     nextTimer := nextTimer s; world := w; trace := trace s |}.

Definition record (c : Call) (s : Machine W) : Machine W :=
  {| options := options s; monitoringIntervals := monitoringIntervals s;
     sessionStates := sessionStates s; timers := timers s;
     nextTimer := nextTimer s; world := world s; trace := c :: trace s |}.

Definition withStates (m : gmap jsstring SessionState.t) (s : Machine W)
    : Machine W :=
  {| options := options s; monitoringIntervals := monitoringIntervals s;
     sessionStates := m; timers := timers s;
     nextTimer := nextTimer s; world := world s; trace := trace s |}.

Definition withIntervals (m : gmap jsstring nat) (t : gmap nat (jsstring * Z))
    (n : nat) (s : Machine W) : Machine W :=
  {| options := options s; monitoringIntervals := m;
     sessionStates := sessionStates s; timers := t;
     nextTimer := n; world := world s; trace := trace s |}.

(** An awaited call to a collaborator: recorded, then run on the world. *)
Definition call {A} (c : Call) (op : W -> result A * W) : M A :=
  fun s =>
    let '(r, w) := op (world s) in (r, withWorld w (record c s)).

(** [new Date()] and [Date.now()]. *)
Definition now : M Z :=
  fun s => let '(t, w) := clock col (world s) in (Ok t, withWorld w s).

(** [await new Promise(resolve => setTimeout(resolve, ms))]. *)
Definition sleep (ms : Z) : M unit :=
  fun s => (Ok tt, withWorld (wait col ms (world s)) (record (Sleep ms) s)).

(** [this.emit(type, event)], recorded in the trace.  The listeners are
    taken not to throw, and the emitter to have one for the error event:
    without one the emission of that event throws, at the end of
    [handlePollingError]. *)
Definition emit (e : MonitorEvent.t) : M unit :=
  fun s => (Ok tt, record (Emit e) s).

(** [this.sessionStates.get(sessionId)]. *)
Definition getState (sessionId : jsstring) : M (option SessionState.t) :=
  fun s => (Ok (sessionStates s !! sessionId), s).

(** An assignment [sessionState.field = v] on the object held for
    [sessionId]. *)
Definition modifyState (sessionId : jsstring)
    (f : SessionState.t -> SessionState.t) : M unit :=
  fun s => (Ok tt, withStates (alter f sessionId (sessionStates s)) s).

Definition getOptions : M Options.t := fun s => (Ok (options s), s).

(** [safeNotifyDiscord], monitor.ts 88-103. *)
Definition safeNotifyDiscord (sessionId : jsstring) (n : Notification.t)
    : M unit :=
  match sendNotification col with
  | None => ret tt
  | Some send =>
      tryCatch (call (SendNotification sessionId n) (send sessionId n))
               (fun _ => ret tt)
  end.

(** [(await this.sessionManager.getSession(sessionId))?.name || sessionId]. *)
Definition sessionNameOf (sessionId : jsstring) : M jsstring :=
  let* session := call (GetSession sessionId) (getSession col sessionId) in
  ret match session with
      | Some s => match Session.name s with
                  | [] => sessionId
                  | c :: n => c :: n
                  end
      | None => sessionId
      end.

(** [stopMonitoring], monitor.ts 133-141. *)
Definition stopMonitoring (sessionId : jsstring) : M unit :=
  fun s =>
    let s1 :=
      match monitoringIntervals s !! sessionId with
      | Some interval =>
          record (ClearInterval interval)
            (withIntervals (delete sessionId (monitoringIntervals s))
                           (delete interval (timers s)) (nextTimer s) s)
      | None => s
      end in
    (Ok tt, withStates (delete sessionId (sessionStates s1)) s1).

(** [startMonitoring], monitor.ts 105-131. *)
Definition startMonitoring (sessionId : jsstring) : M unit :=
  let* session := call (GetSession sessionId) (getSession col sessionId) in
  match session with
  | None => throw (lit "Session not found: " ++ sessionId)
  | Some _ =>
      let* t := now in
      fun s =>
        let interval := nextTimer s in
        let period := Options.pollInterval (options s) in
        (Ok tt,
         record (SetInterval interval sessionId period)
           (withIntervals (<[sessionId := interval]> (monitoringIntervals s))
                          (<[interval := (sessionId, period)]> (timers s))
                          (S interval)
              (withStates (<[sessionId := initialState t]> (sessionStates s)) s)))
  end.

(** [getActiveMonitoring], monitor.ts 1016-1018 (the order of the keys is
    not kept). *)
Definition getActiveMonitoring (s : Machine W) : list jsstring :=
  (map_to_list (monitoringIntervals s)).*1.

(** [stopAll], monitor.ts 1009-1014. *)
Fixpoint stopEach (sessionIds : list jsstring) : M unit :=
  match sessionIds with
  | [] => ret tt
  | sessionId :: rest => stopMonitoring sessionId ;; stopEach rest
  end.

Definition stopAll : M unit :=
  fun s => stopEach (getActiveMonitoring s) s.

(** [handleSessionEnded], monitor.ts 690-694. *)
Definition handleSessionEnded (sessionId : jsstring) : M unit :=
  stopMonitoring sessionId.

(** [handlePollingError], monitor.ts 696-720. *)
Definition handlePollingError (sessionId : jsstring) (error : jsstring)
    : M unit :=
  let* sessionState := getState sessionId in
  match sessionState with
  | None => ret tt
  | Some st =>
      let retryCount := SessionState.retryCount st + 1 in
      modifyState sessionId (SessionState.set_retryCount retryCount) ;;
      let* opts := getOptions in
      if Options.maxRetries opts <=? retryCount then
        stopMonitoring sessionId ;;
        let* t := now in
        emit {| MonitorEvent.type := EventType.error;
                MonitorEvent.sessionId := sessionId;
                MonitorEvent.data := ErrorData error;
                MonitorEvent.timestamp := t |}
      else ret tt
  end.

Definition nl : jsstring := [10%N].

(** [Math.round(ms / 1000)]. *)
Definition roundSeconds (ms : Z) : Z := (ms + 500) / 1000.

(** [handleTaskCompletion], monitor.ts 347-381; the idle time is passed in
    milliseconds. *)
Definition handleTaskCompletion (sessionId output : jsstring) (idleMs : Z)
    : M unit :=
  let* sessionState := getState sessionId in
  match sessionState with
  | None => ret tt
  | Some st =>
      let* t := now in
      modifyState sessionId
        (SessionState.set_lastTaskCompletionNotification (Some t)) ;;
      let* timestamp := now in
      emit {| MonitorEvent.type := EventType.task_completed;
              MonitorEvent.sessionId := sessionId;
              MonitorEvent.data := TaskData output idleMs;
              MonitorEvent.timestamp := timestamp |} ;;
      let* sessionName := sessionNameOf sessionId in
      let* sentAt := now in
      safeNotifyDiscord sessionId
        {| Notification.type := n_task_completed;
           Notification.sessionId := sessionId;
           Notification.sessionName := sessionName;
           Notification.message :=
             lit "✅ Task completed! Claude has been idle for "
             ++ ofZ (roundSeconds idleMs)
             ++ lit "s and is ready for new input.";
           Notification.metadata :=
             [("idleDurationSeconds"%string, MNum (roundSeconds idleMs));
              ("lastOutputTimestamp"%string,
               match SessionState.lastOutputChangeTime st with
               | Some c => MDate c
               | None => MUndefined
               end);
              ("timestamp"%string, MDate sentAt)] |}
  end.

Definition MIN_IDLE_SECONDS : Z := 10.
Definition COMPLETION_COOLDOWN_MS : Z := 5 * 60 * 1000.

(** [checkTaskCompletion], monitor.ts 295-345.  [idleDuration] is
    [idleMs / 1000], so [idleDuration < MIN_IDLE_SECONDS] is
    [idleMs < MIN_IDLE_SECONDS * 1000]. *)
Definition checkTaskCompletion (sessionId output : jsstring) : M unit :=
  let* sessionState := getState sessionId in
  match sessionState with
  | None => ret tt
  | Some st =>
      if SessionState.awaitingContinuation st then ret tt
      else
        match SessionState.lastOutputChangeTime st with
        | None => ret tt
        | Some lastChangeTime =>
            let* t := now in
            let idleMs := t - lastChangeTime in
            if idleMs <? MIN_IDLE_SECONDS * 1000 then ret tt
            else
              let isWaitingForInput :=
                test flag_m patterns.waitingForInput output in
              let notProcessing :=
                test flag_im patterns.notProcessing output in
              if negb isWaitingForInput || negb notProcessing then ret tt
              else
                match SessionState.lastTaskCompletionNotification st with
                | Some lastNotification =>
                    if t - lastNotification <? COMPLETION_COOLDOWN_MS
                    then ret tt
                    else handleTaskCompletion sessionId output idleMs
                | None => handleTaskCompletion sessionId output idleMs
                end
        end
  end.

(** The text of one option in the approval message. *)
Definition optionLine (opt : ApprovalOption.t) : jsstring :=
  lit "**" ++ ofZ (ApprovalOption.number opt) ++ lit ".** "
  ++ ApprovalOption.text opt
  ++ match ApprovalOption.shortcut opt with
     | Some (c :: sc) => lit " *(" ++ (c :: sc) ++ lit ")*"
     | _ => []
     end.

Definition optionsText (opts : list ApprovalOption.t) : jsstring :=
  match opts with
  | [] => lit "No options detected"
  | _ :: _ => join (map optionLine opts)
  end.

(** [handleApprovalRequest], monitor.ts 638-688. *)
Definition handleApprovalRequest (sessionId output : jsstring) : M unit :=
  let* sessionState := getState sessionId in
  match sessionState with
  | None => ret tt
  | Some st =>
      let approvalInfo := extractApprovalInfo output in
      let approvalKey := ApprovalInfo.question approvalInfo in
      if match SessionState.lastApprovalQuestion st with
         | Some q => eqb q approvalKey
         | None => false
         end
      then ret tt
      else
        modifyState sessionId
          (SessionState.set_lastApprovalQuestion (Some approvalKey)) ;;
        let* timestamp := now in
        emit {| MonitorEvent.type := EventType.approval_needed;
                MonitorEvent.sessionId := sessionId;
                MonitorEvent.data :=
                  ApprovalData output approvalInfo (lit "approval_dialog");
                MonitorEvent.timestamp := timestamp |} ;;
        let* sessionName := sessionNameOf sessionId in
        let* sentAt := now in
        safeNotifyDiscord sessionId
          {| Notification.type := n_approval;
             Notification.sessionId := sessionId;
             Notification.sessionName := sessionName;
             Notification.message :=
               lit "🔐 Approval Required" ++ nl ++ nl
               ++ lit "**Tool:** " ++ ApprovalInfo.tool approvalInfo ++ nl
               ++ lit "**Action:** " ++ ApprovalInfo.action approvalInfo ++ nl
               ++ lit "**Question:** " ++ ApprovalInfo.question approvalInfo
               ++ nl ++ nl ++ lit "**Options:**" ++ nl
               ++ optionsText (ApprovalInfo.options approvalInfo) ++ nl ++ nl
               ++ lit "Reply with the option number (e.g. '1', '2', '3')";
             Notification.metadata :=
               [("toolName"%string, MStr (ApprovalInfo.tool approvalInfo));
                ("action"%string, MStr (ApprovalInfo.action approvalInfo));
                ("question"%string, MStr (ApprovalInfo.question approvalInfo));
                ("approvalRequested"%string, MBool true);
                ("timestamp"%string, MDate sentAt)] |} ;;
        call (UpdateSession sessionId (SetStatus waiting_approval))
             (updateSession col sessionId (SetStatus waiting_approval))
  end.

(** [tryImmediateContinuation], monitor.ts 767-822: the pair is
    [{ success, response }]. *)
Definition tryImmediateContinuation (sessionId _output : jsstring)
    : M (bool * option jsstring) :=
  tryCatch
    (let* session := call (GetSession sessionId) (getSession col sessionId) in
     match session with
     | None => ret (false, None)
     | Some session =>
         let target := Session.tmuxSession session in
         let* outputBefore := call (CapturePane target) (capturePane col target) in
         call (SendContinueCommand target) (sendContinueCommand col target) ;;
         sleep 3000 ;;
         let* outputAfter := call (CapturePane target) (capturePane col target) in
         let hasLimitInFull := hasLimitMessage outputAfter in
         let newContent :=
           trim (substring outputAfter (length outputBefore)) in
         let isJustLimitResponse :=
           (length newContent <? 50)%nat && hasLimitInFull in
         if hasLimitInFull && isJustLimitResponse then
           ret (false, Some outputAfter)
         else if hasLimitInFull then
           let recentLines := join (lastN 15 (split outputAfter)) in
           let hasRecentLimit :=
             hasLimitMessage recentLines && isActiveTerminalState recentLines in
           if hasRecentLimit then ret (false, Some outputAfter)
           else ret (true, Some outputAfter)
         else ret (true, Some outputAfter)
     end)
    (fun _ => ret (false, None)).

(** [resetTime || 'Monitoring for availability']. *)
Definition resetTimeOrSentinel (resetTime : option jsstring) : jsstring :=
  match resetTime with
  | Some (c :: r) => c :: r
  | _ => lit "Monitoring for availability"
  end.

(** The second half of [handleLimitDetected], monitor.ts 429-452: schedule
    the continuation, notify, set the status. *)
Definition scheduleAndNotify (sessionId output : jsstring) : M unit :=
  let resetTime := extractResetTime output in
  match resetTime with
  | Some (c :: r) =>
      let* t := now in
      match parseResetTimeAt (timezone col) t (c :: r) with
      | Some resetDateTime =>
          modifyState sessionId
            (SessionState.set_scheduledResetTime (Some resetDateTime))
      | None => ret tt
      end
  | _ => ret tt
  end ;;
  let* sessionName := sessionNameOf sessionId in
  let* detectedAt := now in
  safeNotifyDiscord sessionId
    {| Notification.type := n_limit;
       Notification.sessionId := sessionId;
       Notification.sessionName := sessionName;
       Notification.message :=
         lit "Usage limit reached. Will automatically continue when limit resets.";
       Notification.metadata :=
         [("resetTime"%string, MStr (resetTimeOrSentinel resetTime));
          ("detectedAt"%string, MDate detectedAt)] |} ;;
  call (UpdateSession sessionId (SetStatus waiting))
       (updateSession col sessionId (SetStatus waiting)).

(** [handleLimitDetected], monitor.ts 383-453. *)
Definition handleLimitDetected (sessionId output : jsstring) : M unit :=
  let* sessionState := getState sessionId in
  match sessionState with
  | None => ret tt
  | Some st =>
      match SessionState.scheduledResetTime st with
      | Some _ => ret tt
      | None =>
          let* timestamp := now in
          emit {| MonitorEvent.type := EventType.limit_detected;
                  MonitorEvent.sessionId := sessionId;
                  MonitorEvent.data := LimitData output;
                  MonitorEvent.timestamp := timestamp |} ;;
          if negb (SessionState.immediateContinueAttempted st) then
            modifyState sessionId
              (SessionState.set_immediateContinueAttempted true) ;;
            let* continueResult := tryImmediateContinuation sessionId output in
            if fst continueResult then
              let* t := now in
              modifyState sessionId
                (SessionState.set_lastContinuationTime (Some t)) ;;
              modifyState sessionId
                (SessionState.set_awaitingContinuation false) ;;
              modifyState sessionId
                (SessionState.set_immediateContinueAttempted false) ;;
              call (UpdateSession sessionId (SetStatus active))
                   (updateSession col sessionId (SetStatus active))
            else
              scheduleAndNotify sessionId
                match snd continueResult with
                | Some (c :: response) => c :: response
                | _ => output
                end
          else scheduleAndNotify sessionId output
      end
  end.

(** [performAutoContinuation], monitor.ts 722-761. *)
Definition performAutoContinuation (sessionId : jsstring) : M unit :=
  tryCatch
    (let* session := call (GetSession sessionId) (getSession col sessionId) in
     match session with
     | None => ret tt
     | Some session =>
         let* sessionState := getState sessionId in
         match sessionState with
         | None => ret tt
         | Some _ =>
             let target := Session.tmuxSession session in
             call (SendContinueCommand target) (sendContinueCommand col target) ;;
             let* t := now in
             modifyState sessionId
               (SessionState.set_lastContinuationTime (Some t)) ;;
             modifyState sessionId
               (SessionState.set_awaitingContinuation false) ;;
             modifyState sessionId
               (SessionState.set_scheduledResetTime None) ;;
             modifyState sessionId
               (SessionState.set_immediateContinueAttempted false) ;;
             call (UpdateSession sessionId (SetStatus active))
                  (updateSession col sessionId (SetStatus active)) ;;
             safeNotifyDiscord sessionId
               {| Notification.type := n_continued;
                  Notification.sessionId := sessionId;
                  Notification.sessionName := Session.name session;
                  Notification.message :=
                    lit "Session automatically continued after limit reset.";
                  Notification.metadata := [] |}
         end
     end)
    (fun _ => ret tt).

(** [executeQuotaSchedule], monitor.ts 902-959. *)
Definition executeQuotaSchedule (sessionId : jsstring)
    (quotaSchedule : QuotaSchedule.t) : M unit :=
  tryCatch
    (let* session := call (GetSession sessionId) (getSession col sessionId) in
     match session with
     | None => ret tt
     | Some session =>
         let target := Session.tmuxSession session in
         call (SendRawKeys target (lit "Enter"))
              (sendRawKeys col target (lit "Enter")) ;;
         let* _started := now in
         let* t := now in
         match parseTimeToNextOccurrenceAt (timezone col) t
                 (QuotaSchedule.time quotaSchedule) with
         | None => ret tt
         | Some nextExecution =>
             let newCommand := generateQuotaMessage col nextExecution in
             let update :=
               SetQuotaSchedule
                 {| QuotaSchedule.time := QuotaSchedule.time quotaSchedule;
                    QuotaSchedule.command := newCommand;
                    QuotaSchedule.nextExecution := nextExecution |} in
             call (UpdateSession sessionId update)
                  (updateSession col sessionId update) ;;
             modifyState sessionId (SessionState.set_quotaCommandSent false) ;;
             let* sentAt := now in
             safeNotifyDiscord sessionId
               {| Notification.type := n_continued;
                  Notification.sessionId := sessionId;
                  Notification.sessionName := Session.name session;
                  Notification.message :=
                    lit "🕕 Daily quota window started! Early command executed to align quota timing.";
                  Notification.metadata :=
                    [("nextScheduledExecution"%string, MDate nextExecution);
                     ("quotaWindowTime"%string,
                      MStr (QuotaSchedule.time quotaSchedule));
                     ("timestamp"%string, MDate sentAt)] |}
         end
     end)
    (fun _ => ret tt).

Definition CONTINUATION_COOLDOWN_MS : Z := 5 * 60 * 1000.

(** The approval half of [detectPatterns], monitor.ts 275-289. *)
Definition detectApproval (sessionId output : jsstring) : M unit :=
  if detectApprovalDialog output then
    let* session := call (GetSession sessionId) (getSession col sessionId) in
    match session with
    | None => ret tt
    | Some session =>
        let target := Session.tmuxSession session in
        let* colorOutput :=
          call (CapturePaneWithColors target)
               (capturePaneWithColors col target) in
        if isInteractiveApprovalDialog colorOutput
        then handleApprovalRequest sessionId output
        else ret tt
    end
  else ret tt.

(** [detectPatterns], monitor.ts 248-290. *)
Definition detectPatterns (sessionId output : jsstring) : M unit :=
  let* sessionState := getState sessionId in
  match sessionState with
  | None => ret tt
  | Some st =>
      if hasLimitMessage output && isActiveTerminalState output
         && negb (SessionState.awaitingContinuation st)
      then
        let* timeSinceLastContinuation :=
          match SessionState.lastContinuationTime st with
          | Some last => let* t := now in ret (t - last)
          | None => ret (CONTINUATION_COOLDOWN_MS + 1)
          end in
        if timeSinceLastContinuation <? CONTINUATION_COOLDOWN_MS then ret tt
        else
          let* t := now in
          modifyState sessionId (SessionState.set_limitDetectedAt (Some t)) ;;
          modifyState sessionId (SessionState.set_awaitingContinuation true) ;;
          handleLimitDetected sessionId output ;;
          detectApproval sessionId output
      else detectApproval sessionId output
  end.

(** [analyzeOutput], monitor.ts 209-232. *)
Definition analyzeOutput (sessionId output : jsstring) : M unit :=
  let* sessionState := getState sessionId in
  match sessionState with
  | None => ret tt
  | Some st =>
      let outputChanged := negb (eqb output (SessionState.lastOutput st)) in
      (if outputChanged then
         let* t := now in
         modifyState sessionId
           (SessionState.set_lastOutputChangeTime (Some t)) ;;
         let newOutput := getNewOutput (SessionState.lastOutput st) output in
         modifyState sessionId (SessionState.set_lastOutput output) ;;
         detectPatterns sessionId newOutput
       else ret tt) ;;
      checkTaskCompletion sessionId output
  end.

(** The quota gate of [pollSession], monitor.ts 172-197; the boolean tells
    that the staged command was executed and the cycle is over. *)
Definition quotaGate (sessionId : jsstring) (session : Session.t) : M bool :=
  match Session.quotaSchedule session with
  | None => ret false
  | Some quotaSchedule =>
      let* sessionState := getState sessionId in
      let* t := now in
      let nextExecution := QuotaSchedule.nextExecution quotaSchedule in
      let sentBefore :=
        match sessionState with
        | Some st => SessionState.quotaCommandSent st
        | None => false
        end in
      let* quotaCommandSent :=
        if negb sentBefore then
          let sessionAge := t - Session.created session in
          if 5000 <? sessionAge then
            let target := Session.tmuxSession session in
            call (SendRawKeys target (QuotaSchedule.command quotaSchedule))
                 (sendRawKeys col target (QuotaSchedule.command quotaSchedule)) ;;
            modifyState sessionId (SessionState.set_quotaCommandSent true) ;;
            ret match sessionState with Some _ => true | None => false end
          else ret false
        else ret true in
      if (nextExecution <=? t) && quotaCommandSent then
        executeQuotaSchedule sessionId quotaSchedule ;; ret true
      else ret false
  end.

(** The body of the [try] of [pollSession], monitor.ts 145-201. *)
Definition pollCycle (sessionId : jsstring) : M unit :=
  let* session := call (GetSession sessionId) (getSession col sessionId) in
  match session with
  | None => stopMonitoring sessionId
  | Some session =>
      let target := Session.tmuxSession session in
      let* tmuxExists := call (SessionExists target) (sessionExists col target) in
      if negb tmuxExists then handleSessionEnded sessionId
      else
        let* sessionState := getState sessionId in
        let* due :=
          match sessionState with
          | Some st =>
              match SessionState.scheduledResetTime st with
              | Some scheduled => let* t := now in ret (scheduled <=? t)
              | None => ret false
              end
          | None => ret false
          end in
        if due then
          modifyState sessionId (SessionState.set_scheduledResetTime None) ;;
          performAutoContinuation sessionId
        else
          let* executed := quotaGate sessionId session in
          if executed then ret tt
          else
            let* currentOutput :=
              call (CapturePane target) (capturePane col target) in
            analyzeOutput sessionId currentOutput
  end.

(** [pollSession], monitor.ts 143-207. *)
Definition pollSession (sessionId : jsstring) : M unit :=
  tryCatch (pollCycle sessionId) (handlePollingError sessionId).

End Engine.

(** The monitor as [new Monitor(sessionManager, tmuxManager, discordBot,
    options)] leaves it. *)
Definition newMonitor {W} (options : MonitoringOptions.t) (w : W) : Machine W :=
  {| options := constructorOptions options;
     monitoringIntervals := ∅;
     sessionStates := ∅;
     timers := ∅;
     nextTimer := 0;
     world := w;
     trace := [] |}.

(* ===================================================================== *)
(** ** A scripted world *)
(* ===================================================================== *)

(** Collaborators in the manner of the mocks of the test suite: a registry
    held in memory, a pane whose successive captures are scripted (the last
    one stays), a fixed colored capture, and a clock that only the waits
    advance. *)
Module Mock.

Record World := {
  registry : gmap jsstring Session.t;
  screen : list (result jsstring);
  colorScreen : jsstring;
  time : Z
}.

Definition applyUpdate (u : SessionUpdate) (s : Session.t) : Session.t :=
  match u with
  | SetStatus st =>
      Session.Build (Session.id s) (Session.name s) (Session.tmuxSession s)
        (Session.created s) st (Session.quotaSchedule s)
  | SetQuotaSchedule q =>
      Session.Build (Session.id s) (Session.name s) (Session.tmuxSession s)
        (Session.created s) (Session.status s) (Some q)
  end.

Definition capture (w : World) : result jsstring * World :=
  match screen w with
  | [] => (Ok [], w)
  | [r] => (r, w)
  | r :: rest =>
      (r, {| registry := registry w; screen := rest;
             colorScreen := colorScreen w; time := time w |})
  end.

Definition collaborators : Collaborators World :=
  {| getSession := fun sessionId w => (Ok (registry w !! sessionId), w);
     updateSession := fun sessionId u w =>
       (Ok tt, {| registry := alter (applyUpdate u) sessionId (registry w);
                  screen := screen w; colorScreen := colorScreen w;
                  time := time w |});
     sessionExists := fun _ w => (Ok true, w);
     capturePane := fun _ w => capture w;
     capturePaneWithColors := fun _ w => (Ok (colorScreen w), w);
     sendRawKeys := fun _ _ w => (Ok tt, w);
     sendContinueCommand := fun _ w => (Ok tt, w);
     sendNotification := Some (fun _ _ w => (Ok tt, w));
     clock := fun w => (time w, w);
     wait := fun ms w =>
       {| registry := registry w; screen := screen w;
          colorScreen := colorScreen w; time := time w + ms |};
     timezone := 0;
     generateQuotaMessage := fun t => lit "quota window " ++ ofZ t |}.

Definition sessionId : jsstring := lit "ccremote-1".

Definition session : Session.t :=
  {| Session.id := sessionId; Session.name := lit "test";
     Session.tmuxSession := lit "test-tmux"; Session.created := 0;
     Session.status := active; Session.quotaSchedule := None |}.

(** A world at instant [t] that knows [session] and shows [captures]. *)
Definition worldAt (t : Z) (captures : list jsstring) (colored : jsstring)
    : World :=
  {| registry := {[ sessionId := session ]};
     screen := map Ok captures; colorScreen := colored; time := t |}.

(** A monitor with default options that watches [session] in state [st]. *)
Definition watching (st : SessionState.t) (w : World) : Machine World :=
  {| options := constructorOptions noOptions;
     monitoringIntervals := {[ sessionId := 0%nat ]};
     sessionStates := {[ sessionId := st ]};
     timers := {[ 0%nat := (sessionId, 2000) ]};
     nextTimer := 1;
     world := w;
     trace := [] |}.

End Mock.

(* ===================================================================== *)
(** ** Definitions that follow the wording of the specification *)
(* ===================================================================== *)

(** The parameter strings of the color escapes ESC [[ digits m that occur
    in a line. *)
Fixpoint takeDigits (s : jsstring) : jsstring :=
  match s with
  | c :: s' => if isDigit c then c :: takeDigits s' else []
  | [] => []
  end.

Fixpoint escapeCodes (s : jsstring) : list jsstring :=
  match s with
  | [] => []
  | c :: s' =>
      (if (c =? 27)%N then
         match s' with
         | b :: s'' =>
             if (b =? 91)%N then
               let ds := takeDigits s'' in
               match skipn (length ds) s'' with
               | m :: _ => if (m =? 109)%N then [ds] else []
               | [] => []
               end
             else []
         | [] => []
         end
       else []) ++ escapeCodes s'
  end.

(** Dim or grey: the codes 2, 8 and 90. *)
Definition isDimCode (code : jsstring) : bool :=
  eqb code (lit "2") || eqb code (lit "8") || eqb code (lit "90").

(** Interactive approval as the specification words it: some line with
    approval content has a color escape that is not dim and has no dim or
    grey escape; a capture without any escape is taken to be interactive. *)
Definition specInteractiveLine (line : jsstring) : bool :=
  existsb (fun code => negb (isDimCode code)) (escapeCodes line)
  && negb (existsb isDimCode (escapeCodes line)).

Definition specInteractive (colorOutput : jsstring) : bool :=
  existsb (fun line => hasApprovalText line && specInteractiveLine line)
          (split colorOutput)
  || existsb hasApprovalText (split colorOutput)
     && negb (includes colorOutput ANSI_ESCAPE).

(** The codes [c] for which the pattern of [hasNormalColors] accepts the
    text [[c m]. *)
Definition normalCodes : list jsstring :=
  map lit ["0"; "1"; "3"; "4"; "5"; "6"; "7"; "9";
           "10"; "11"; "12"; "13"; "14"; "15"; "16"; "17"; "19";
           "30"; "31"; "32"; "33"; "34"; "35"; "36"; "37"; "39";
           "40"; "41"; "42"; "43"; "44"; "45"; "46"; "47"; "49";
           "91"; "92"; "93"; "94"; "95"; "96"; "97"; "99"]%string.

(** All the texts of one or two decimal digits. *)
Definition digitChars : list N := lit "0123456789".
Definition shortCodes : list jsstring :=
  map (fun d => [d]) digitChars
  ++ flat_map (fun d => map (fun e => [d; e]) digitChars) digitChars.

(** The approval notifications among recorded calls. *)
Definition isApprovalNotification (c : Call) : bool :=
  match c with
  | SendNotification _ n =>
      match Notification.type n with n_approval => true | _ => false end
  | _ => false
  end.

Definition approvalNotifications (calls : list Call) : nat :=
  length (List.filter isApprovalNotification calls).

(** The error events among recorded calls. *)
Definition isErrorEvent (c : Call) : bool :=
  match c with
  | Emit e =>
      match MonitorEvent.type e with EventType.error => true | _ => false end
  | _ => false
  end.

Definition errorEvents (calls : list Call) : nat :=
  length (List.filter isErrorEvent calls).

(** The retry count held for a session, if it is monitored. *)
Definition retryCountOf {W} (sessionId : jsstring) (s : Machine W) : option Z :=
  SessionState.retryCount <$> (sessionStates s !! sessionId).

(** Reset times as the specification words them. *)
Inductive Period := AM | PM.

Definition periodText (p : Period) : jsstring :=
  match p with AM => lit "am" | PM => lit "pm" end.

(** The 12-hour rules: pm and an hour other than 12 adds 12; am and hour 12
    becomes 0. *)
Definition hour24 (period : option Period) (hour : Z) : Z :=
  match period with
  | Some PM => if hour =? 12 then hour else hour + 12
  | Some AM => if hour =? 12 then 0 else hour
  | None => hour
  end.

(** The wall clock of today at [hour]:[minute]. *)
Definition todayAt (tz now hour minute : Z) : Z :=
  startOfDay tz now + hour * msPerHour + minute * msPerMinute.

(** The deadline: today's time when it is in the future, tomorrow's
    otherwise. *)
Definition wallClockDeadline (tz now hour minute : Z) : Z :=
  let today := todayAt tz now hour minute in
  if now <? today then today else today + msPerDay.

(** A text of the form H or H:MM with an optional am or pm, in any letter
    case, white space allowed before the am or pm. *)
Definition allDigits (s : jsstring) : bool := forallb isDigit s.

Definition isTimeForm (hours : jsstring) (minutes : option jsstring)
    (gap letters : jsstring) (period : option Period) : Prop :=
  allDigits hours = true
  /\ (length hours = 1 \/ length hours = 2)%nat
  /\ match minutes with
     | Some m => allDigits m = true /\ length m = 2%nat
     | None => True
     end
  /\ match period with
     | Some p => forallb isWhiteSpace gap = true
                 /\ toLowerCase letters = periodText p
     | None => gap = [] /\ letters = []
     end.

Definition timeForm (hours : jsstring) (minutes : option jsstring)
    (gap letters : jsstring) : jsstring :=
  hours ++ match minutes with Some m => lit ":" ++ m | None => [] end
        ++ gap ++ letters.

(** The interval timers on the time line.  [setInterval(callback, ms)]
    runs the callback every [timerPeriod ms] milliseconds from the instant
    the timer was set at: the runtime takes a delay below 1 or above
    2147483647 for 1. *)
Definition timerPeriod (ms : Z) : Z :=
  if (ms <? 1) || (2147483647 <? ms) then 1 else ms.

(** Tick [k] (from 0) of a timer of period [period] set at [start], and
    the cycle it starts: in flight from the tick until [duration k]
    milliseconds later. *)
Definition tickTime (start period : Z) (k : nat) : Z :=
  start + period * (Z.of_nat k + 1).

Definition inFlight (start period : Z) (duration : nat -> Z) (k : nat) (t : Z)
    : bool :=
  (tickTime start period k <=? t) && (t <? tickTime start period k + duration k).

(** What the machine does not hold of its timers: the instant each one was
    set at, and the time the cycle started by each of its ticks takes to
    complete. *)
Record Runtime := {
  setAt : nat -> Z;
  duration : nat -> nat -> Z
}.

(** The poll cycles of a session, from the live timers of the machine.  The
    callback of [startMonitoring], [() => { void this.pollSession(sessionId) }],
    starts [pollSession] and returns without awaiting it: every tick of a
    live timer that polls [sessionId] starts a cycle, whatever the cycles
    started before are doing.  The cycle (timer, index) is in flight at
    [t] when the timer is live and polls [sessionId], and [t] is at or
    after its tick [index] and less than the duration of the cycle after
    that tick. *)
Definition cycleInFlight {W} (rt : Runtime) (sessionId : jsstring)
    (s : Machine W) (cycle : nat * nat) (t : Z) : bool :=
  match timers s !! fst cycle with
  | Some (polled, ms) =>
      eqb polled sessionId
      && inFlight (setAt rt (fst cycle)) (timerPeriod ms)
           (duration rt (fst cycle)) (snd cycle) t
  | None => false
  end.

(** The time a cycle spends in [setTimeout] waits, from the calls it
    records: a lower bound of its duration. *)
Definition waited (calls : list Call) : Z :=
  fold_right (fun c acc => match c with Sleep ms => ms + acc | _ => acc end)
             0 calls.

(* ===================================================================== *)
(** ** Definitions used in the proofs *)
(* ===================================================================== *)

(** A method keeps a relation between the machine before and after it. *)
Definition keeps {W A} (R : Machine W -> Machine W -> Prop) (m : @M W A)
    : Prop :=
  forall s, R s (snd (m s)).

(** What every step of a cycle other than [stopMonitoring] keeps: the
    options, the intervals and timers, the retry count of the session (and
    whether it is monitored), and a trace that grows without error event. *)
Definition untouched {W} (sessionId : jsstring) (s s' : Machine W) : Prop :=
  options s' = options s
  /\ monitoringIntervals s' = monitoringIntervals s
  /\ timers s' = timers s
  /\ retryCountOf sessionId s' = retryCountOf sessionId s
  /\ exists new, trace s' = new ++ trace s /\ errorEvents new = 0%nat.

(** What [stopMonitoring] keeps as well: the retry count is not changed
    where a state is left. *)
Definition notReset {W} (sessionId : jsstring) (s s' : Machine W) : Prop :=
  options s' = options s
  /\ (forall n, retryCountOf sessionId s' = Some n ->
                retryCountOf sessionId s = Some n)
  /\ exists new, trace s' = new ++ trace s /\ errorEvents new = 0%nat.

(** The calls other than the emission of an error event. *)
Definition quiet (c : Call) : bool := negb (isErrorEvent c).

(** A method of a cycle: the retry count is never reset, and when the
    method throws nothing but the fields of the states, the world and the
    trace has changed. *)
Definition cycleOk {W A} (sessionId : jsstring) (m : @M W A) : Prop :=
  forall s,
    notReset sessionId s (snd (m s))
    /\ match fst (m s) with
       | Throw _ => untouched sessionId s (snd (m s))
       | Ok _ => True
       end.

(** The first code unit ahead, tested. *)
Definition headIs (p : N -> bool) (l : jsstring) : bool :=
  match l with c :: _ => p c | [] => false end.

(** A text of the time form once lower-cased, and the groups the pattern
    of [parseResetTime] captures on it. *)
Definition minutesText (minutes : option jsstring) : jsstring :=
  match minutes with Some m => lit ":" ++ m | None => [] end.

Definition loweredPeriod (period : option Period) : jsstring :=
  match period with Some p => periodText p | None => [] end.

Definition lowered (hours : jsstring) (minutes : option jsstring)
    (gap : jsstring) (period : option Period) : jsstring :=
  hours ++ minutesText minutes ++ gap ++ loweredPeriod period.

Definition timeGroups (hours : jsstring) (minutes : option jsstring)
    (period : option Period) : list (nat * jsstring) :=
  match period with Some p => [(3%nat, periodText p)] | None => [] end
  ++ match minutes with Some m => [(2%nat, m)] | None => [] end
  ++ [(1%nat, hours)].

(** Pane captures of the test suite (monitor.ts 1068-1514), some of them
    shortened. *)
Module Fixtures.

Definition proceed : jsstring :=
  join [lit "╭─────────────────────────────────────────────────╮";
        lit "│ Warning: This operation may have side effects   │";
        lit "│ Do you want to proceed?                         │";
        lit "│ ❯ 1. Yes                                        │";
        lit "│   2. No                                         │";
        lit "╰─────────────────────────────────────────────────╯"].

Definition createFile : jsstring :=
  join [lit "│ Do you want to create debug-stop.js?                     │";
        lit "│ ❯ 1. Yes                                                 │";
        lit "│   2. Yes, allow all edits during this session (shift+tab) │";
        lit "│   3. No, and tell Claude what to do differently (esc)     │";
        lit "│                                                           │";
        lit "╰───────────────────────────────────────────────────────────╯"].

Definition noApproval : jsstring :=
  join [lit "Regular tmux output without approval dialog";
        lit "Some command output"; lit "More text here"].

Definition claudeV2Limit : jsstring :=
  join [lit "  Session limit reached ∙ resets 4am";
        lit "     /upgrade to increase your usage limit.";
        lit "";
        lit "──────────────────────────────────────────────────────────────────────";
        lit ">";
        lit "──────────────────────────────────────────────────────────────────────"].

Definition sessionsList : jsstring :=
  join [lit "          Modified     Created        Msgs Git Branch      Summary";
        lit "❯ 1.  5s ago       14h ago         105 dev      Tmux Approval Detection";
        lit "  28. 2w ago       2w ago            4 dev      5-hour limit reached ∙ resets 1am";
        lit "↓ 35. 2w ago       2w ago           30 dev      Debugging Gunshi Command"].

Definition processing : jsstring :=
  join [lit "Processing request..."; lit "Analyzing data..."; lit "> "].

End Fixtures.

(* ===================================================================== *)
(** ** Further notions used by the properties below *)
(* ===================================================================== *)

(** The parts of a time text: one or two digits of hours, two digits of
    minutes when there are any, and a run of white space. *)
Definition timeParts (hours : jsstring) (minutes : option jsstring)
    (gap : jsstring) : Prop :=
  allDigits hours = true
  /\ (length hours = 1 \/ length hours = 2)%nat
  /\ match minutes with
     | Some m => allDigits m = true /\ length m = 2%nat
     | None => True
     end
  /\ forallb isWhiteSpace gap = true.

(** What a relation between the machine before and after a method needs for
    the methods to keep it: it is a preorder, blind to the world, kept by the
    recording of the calls [okCall] accepts and by the assignments
    [okField] accepts. *)
Record Framing {W} (R : Machine W -> Machine W -> Prop) (okCall : Call -> bool)
    (okField : jsstring -> (SessionState.t -> SessionState.t) -> Prop)
    : Prop := {
  framing_refl : forall s, R s s;
  framing_trans : forall a b c, R a b -> R b c -> R a c;
  framing_world : forall w s, R s (withWorld w s);
  framing_record : forall c s, okCall c = true -> R s (record c s);
  framing_modify :
    forall sid f s, okField sid f ->
      R s (withStates (alter f sid (sessionStates s)) s)
}.

(** The other sessions: the options, and the state and the interval of
    every session but [sessionId], are the same before and after. *)
Definition others {W} (sessionId : jsstring) (s s' : Machine W) : Prop :=
  options s' = options s
  /\ forall other, other <> sessionId ->
       sessionStates s' !! other = sessionStates s !! other
       /\ monitoringIntervals s' !! other = monitoringIntervals s !! other.

Definition anyCall (c : Call) : bool := true.

Definition onSession (sessionId : jsstring) (sid : jsstring)
    (f : SessionState.t -> SessionState.t) : Prop :=
  sid = sessionId.

(** The calls that continue a session or report a limit: the continue
    sequence sent to the pane, the [limit_detected] event and the limit
    notification. *)
Definition isContinuation (c : Call) : bool :=
  match c with SendContinueCommand _ => true | _ => false end.

Definition isLimitReport (c : Call) : bool :=
  match c with
  | Emit e =>
      match MonitorEvent.type e with
      | EventType.limit_detected => true
      | _ => false
      end
  | SendNotification _ n =>
      match Notification.type n with n_limit => true | _ => false end
  | _ => false
  end.

Definition calm (c : Call) : bool := negb (isContinuation c || isLimitReport c).

(** A session that awaits its continuation, scheduled for [scheduled] if
    for any instant, or that is not monitored. *)
Definition waitingOn {W} (sessionId : jsstring) (scheduled : option Z)
    (s : Machine W) : Prop :=
  match sessionStates s !! sessionId with
  | Some st => SessionState.awaitingContinuation st = true
               /\ SessionState.scheduledResetTime st = scheduled
  | None => True
  end.

(** From such a machine to such a machine, with neither a continuation nor
    a limit report among the calls made. *)
Definition staysWaiting {W} (sessionId : jsstring) (scheduled : option Z)
    (s s' : Machine W) : Prop :=
  waitingOn sessionId scheduled s ->
  waitingOn sessionId scheduled s'
  /\ exists new, trace s' = new ++ trace s /\ forallb calm new = true.

(** An assignment to a field other than the two that tell the wait. *)
Definition besideWaiting (sid : jsstring)
    (f : SessionState.t -> SessionState.t) : Prop :=
  forall st,
    SessionState.awaitingContinuation (f st)
    = SessionState.awaitingContinuation st
    /\ SessionState.scheduledResetTime (f st)
       = SessionState.scheduledResetTime st.

(** The end of a cycle, from the quota gate on (monitor.ts 172-201). *)
Definition afterGate {W} (col : Collaborators W) (sessionId : jsstring)
    (session : Session.t) : @M W unit :=
  bind (quotaGate col sessionId session)
    (fun executed =>
       if executed then ret tt
       else
         bind (call (CapturePane (Session.tmuxSession session))
                 (capturePane col (Session.tmuxSession session)))
           (fun currentOutput => analyzeOutput col sessionId currentOutput)).

(** The machine when the gate of the scheduled continuation is reached:
    the session was looked up and its pane found. *)
Definition atGate {W} (sessionId : jsstring) (session : Session.t) (w : W)
    (s : Machine W) : Machine W :=
  withWorld w
    (record (SessionExists (Session.tmuxSession session))
       (record (GetSession sessionId) s)).

(** The calls other than a capture of the pane. *)
Definition notCapture (c : Call) : bool :=
  match c with
  | CapturePane _ | CapturePaneWithColors _ => false
  | _ => true
  end.

(** The state after [performAutoContinuation] went through at instant
    [t]. *)
Definition continuedAt (t : Z) (st : SessionState.t) : SessionState.t :=
  SessionState.set_immediateContinueAttempted false
    (SessionState.set_scheduledResetTime None
       (SessionState.set_awaitingContinuation false
          (SessionState.set_lastContinuationTime (Some t) st))).

(** The steps of a limit episode among the recorded calls: the
    [limit_detected] event, the continue sequence sent to the pane, the limit
    notification. *)
Inductive EpisodeStep := limitEvent | continueSent | limitNotice.

Definition episodeStep (c : Call) : option EpisodeStep :=
  match c with
  | SendContinueCommand _ => Some continueSent
  | Emit e =>
      match MonitorEvent.type e with
      | EventType.limit_detected => Some limitEvent
      | _ => None
      end
  | SendNotification _ n =>
      match Notification.type n with
      | n_limit => Some limitNotice
      | _ => None
      end
  | _ => None
  end.

Definition silent (c : Call) : bool :=
  match episodeStep c with None => true | Some _ => false end.

(** The trace grows, and the episode steps among the new calls are, in
    order (most recent first), some of [steps]. *)
Definition emits {W} (steps : list EpisodeStep) (s s' : Machine W) : Prop :=
  exists new, trace s' = new ++ trace s
              /\ omap episodeStep new `sublist_of` steps.

Definition anyField (sid : jsstring)
    (f : SessionState.t -> SessionState.t) : Prop := True.

(* ===================================================================== *)
(** ** TmuxManager *)
(* ===================================================================== *)

(** The class [TmuxManager] over the shell: [execAsync] runs a command line
    and gives its standard output or fails with the message of its error;
    [execWithin] is [execAsync] raced against a timer, failing when the timer
    wins; [setTimeout] lets the time of a delay pass.  The state holds the
    world of the shell and the log of the command lines run and the delays
    taken, most recent first. *)
Module Tmux.

Inductive Event :=
| Exec (command : jsstring)
| Delay (ms : Z).

Record Shell (W : Type) := {
  execAsync : jsstring -> W -> result jsstring * W;
  execWithin : Z -> jsstring -> W -> result jsstring * W;
  setTimeout : Z -> W -> W
}.

Record State (W : Type) := { shellWorld : W; log : list Event }.

Section Manager.

Context {W : Type} (sh : Shell W).

Definition T (A : Type) : Type := State W -> result A * State W.

Definition ret {A} (a : A) : T A := fun s => (Ok a, s).

Definition bind {A B} (m : T A) (k : A -> T B) : T B :=
  fun s =>
    match m s with
    | (Ok a, s') => k a s'
    | (Throw e, s') => (Throw e, s')
    end.

Definition throw {A} (e : jsstring) : T A := fun s => (Throw e, s).

Definition tryCatch {A} (m : T A) (h : jsstring -> T A) : T A :=
  fun s =>
    match m s with
    | (Ok a, s') => (Ok a, s')
    | (Throw e, s') => h e s'
    end.

(** [await execAsync(command)]. *)
Definition run (command : jsstring) : T jsstring :=
  fun s =>
    let '(r, w) := execAsync sh command (shellWorld s) in
    (r, {| shellWorld := w; log := Exec command :: log s |}).

(** [await Promise.race([execAsync(command), timer])]. *)
Definition runWithin (ms : Z) (command : jsstring) : T jsstring :=
  fun s =>
    let '(r, w) := execWithin sh ms command (shellWorld s) in
    (r, {| shellWorld := w; log := Exec command :: log s |}).

(** [await new Promise(resolve => setTimeout(resolve, ms))]. *)
Definition delay (ms : Z) : T unit :=
  fun s =>
    (Ok tt, {| shellWorld := setTimeout sh ms (shellWorld s);
               log := Delay ms :: log s |}).

(** A text between double quotes, as the command lines have the names. *)
Definition quoted (s : jsstring) : jsstring := [34%N] ++ s ++ [34%N].

(** [throw new Error(`${what}: ${error.message}`)]. *)
Definition rethrow {A} (what : string) (e : jsstring) : T A :=
  throw (lit what ++ lit ": " ++ e).

(** part_001 lines 7-16. *)
Definition isTmuxAvailable : T bool :=
  tryCatch (bind (run (lit "tmux -V")) (fun _ => ret true))
           (fun _ => ret false).

(** part_001 lines 48-57. *)
Definition capturePane (sessionName : jsstring) : T jsstring :=
  tryCatch
    (run (lit "tmux capture-pane -t " ++ quoted sessionName ++ lit " -p"))
    (rethrow "Failed to capture tmux pane").

(** part_001 lines 59-69. *)
Definition capturePaneWithColors (sessionName : jsstring) : T jsstring :=
  tryCatch
    (run (lit "tmux capture-pane -t " ++ quoted sessionName ++ lit " -p -e"))
    (rethrow "Failed to capture tmux pane with colors").

(** part_001 lines 71-80. *)
Definition sendKeys (sessionName keys : jsstring) : T unit :=
  tryCatch
    (bind (run (lit "tmux send-keys -t " ++ quoted sessionName ++ lit " "
                ++ quoted keys ++ lit " Enter"))
          (fun _ => ret tt))
    (rethrow "Failed to send keys to tmux").

(** part_001 lines 82-91. *)
Definition sendRawKeys (sessionName keys : jsstring) : T unit :=
  tryCatch
    (bind (run (lit "tmux send-keys -t " ++ quoted sessionName ++ lit " "
                ++ quoted keys))
          (fun _ => ret tt))
    (rethrow "Failed to send raw keys to tmux").

(** part_001 lines 93-102. *)
Definition clearInput (sessionName : jsstring) : T unit :=
  tryCatch
    (bind (run (lit "tmux send-keys -t " ++ quoted sessionName ++ lit " C-u"))
          (fun _ => ret tt))
    (rethrow "Failed to clear tmux input").

(** part_001 lines 104-119. *)
Definition sessionExists (sessionName : jsstring) : T bool :=
  tryCatch
    (bind (runWithin 5000 (lit "tmux has-session -t " ++ quoted sessionName))
          (fun _ => ret true))
    (fun _ => ret false).

(** part_001 lines 121-132; [String(error)] of an [Error] is its message
    after [Error: ]. *)
Definition killSession (sessionName : jsstring) : T unit :=
  tryCatch
    (bind (run (lit "tmux kill-session -t " ++ quoted sessionName))
          (fun _ => ret tt))
    (fun e =>
       if negb (includes (lit "Error: " ++ e) (lit "session not found"))
       then rethrow "Failed to kill tmux session" e
       else ret tt).

(** part_001 lines 152-163. *)
Definition sendContinueCommand (sessionName : jsstring) : T unit :=
  bind (clearInput sessionName) (fun _ =>
  bind (delay 200) (fun _ =>
  bind (sendRawKeys sessionName (lit "continue")) (fun _ =>
  bind (delay 200) (fun _ =>
  sendRawKeys sessionName (lit "Enter"))))).

(** part_001 lines 165-169, for an integer option number. *)
Definition sendOptionSelection (sessionName : jsstring) (optionNumber : Z)
    : T unit :=
  sendRawKeys sessionName (ofZ optionNumber).

End Manager.

(** The command lines of the continue sequence and of the probe. *)
Definition clearLine (sessionName : jsstring) : jsstring :=
  lit "tmux send-keys -t " ++ quoted sessionName ++ lit " C-u".

Definition typeLine (sessionName keys : jsstring) : jsstring :=
  lit "tmux send-keys -t " ++ quoted sessionName ++ lit " " ++ quoted keys.

Definition probeLine (sessionName : jsstring) : jsstring :=
  lit "tmux has-session -t " ++ quoted sessionName.

End Tmux.

(** The collaborators of a monitor whose [TmuxManager] is this class over
    the shell [sh]; the session manager, the bot and the clock are those of
    [base]. *)
Definition overTmux {W} (sh : Tmux.Shell W)
    (base : Collaborators (Tmux.State W)) : Collaborators (Tmux.State W) :=
  {| getSession := getSession base;
     updateSession := updateSession base;
     sessionExists := Tmux.sessionExists sh;
     capturePane := Tmux.capturePane sh;
     capturePaneWithColors := Tmux.capturePaneWithColors sh;
     sendRawKeys := Tmux.sendRawKeys sh;
     sendContinueCommand := Tmux.sendContinueCommand sh;
     sendNotification := sendNotification base;
     clock := clock base;
     wait := wait base;
     timezone := timezone base;
     generateQuotaMessage := generateQuotaMessage base |}.

(** A shell on which no tmux server answers, and collaborators that know the
    session of the scripted world. *)
Module DownShell.

Definition shell : Tmux.Shell unit :=
  {| Tmux.execAsync := fun _ w => (Throw (lit "no server running"), w);
     Tmux.execWithin := fun _ _ w => (Throw (lit "Timeout"), w);
     Tmux.setTimeout := fun _ w => w |}.

Definition base : Collaborators (Tmux.State unit) :=
  {| getSession := fun sessionId w =>
       (Ok (if eqb sessionId Mock.sessionId then Some Mock.session else None),
        w);
     updateSession := fun _ _ w => (Ok tt, w);
     sessionExists := fun _ w => (Ok true, w);
     capturePane := fun _ w => (Ok [], w);
     capturePaneWithColors := fun _ w => (Ok [], w);
     sendRawKeys := fun _ _ w => (Ok tt, w);
     sendContinueCommand := fun _ w => (Ok tt, w);
     sendNotification := Some (fun _ _ w => (Ok tt, w));
     clock := fun w => (0, w);
     wait := fun _ w => w;
     timezone := 0;
     generateQuotaMessage := fun t => ofZ t |}.

Definition start : Tmux.State unit :=
  {| Tmux.shellWorld := tt; Tmux.log := [] |}.

Definition watching : Machine (Tmux.State unit) :=
  {| options := constructorOptions noOptions;
     monitoringIntervals := {[ Mock.sessionId := 0%nat ]};
     sessionStates := {[ Mock.sessionId := initialState 0 ]};
     timers := {[ 0%nat := (Mock.sessionId, 2000) ]};
     nextTimer := 1;
     world := start;
     trace := [] |}.

End DownShell.

(** A method that sets no timer: the live timers after it are among the
    live timers before it. *)
Definition noTimerSet {W} (s s' : Machine W) : Prop :=
  timers s' ⊆ timers s.

(** The verdict of [tryImmediateContinuation] on the pane captured before
    the attempt and the pane captured after it (monitor.ts 785-813): the
    limit is still in force when the pane after shows a limit message and
    either fewer than 50 code units of new content, or a limit message at
    an active prompt within its last 15 lines. *)
Definition stillLimited (outputBefore outputAfter : jsstring) : bool :=
  let recentLines := join (lastN 15 (split outputAfter)) in
  hasLimitMessage outputAfter
  && ((length (trim (substring outputAfter (length outputBefore))) <? 50)%nat
      || hasLimitMessage recentLines && isActiveTerminalState recentLines).

(** An attempt that went through, from the world [w0] to the world [w]: the
    session is known, its pane was captured, the continue sequence sent, and
    the pane captured again after the wait of 3000 ms. *)
Definition attempted {W} (col : Collaborators W) (sessionId : jsstring)
    (w0 : W) (before after : jsstring) (session : Session.t) (w : W) : Prop :=
  exists w1 w2 w3,
    getSession col sessionId w0 = (Ok (Some session), w1)
    /\ capturePane col (Session.tmuxSession session) w1 = (Ok before, w2)
    /\ sendContinueCommand col (Session.tmuxSession session) w2 = (Ok tt, w3)
    /\ capturePane col (Session.tmuxSession session) (wait col 3000 w3)
       = (Ok after, w).

(** The calls of such an attempt, most recent first. *)
Definition attemptCalls (sessionId : jsstring) (session : Session.t)
    : list Call :=
  [CapturePane (Session.tmuxSession session); Sleep 3000;
   SendContinueCommand (Session.tmuxSession session);
   CapturePane (Session.tmuxSession session); GetSession sessionId].

(* ===================================================================== *)
(** ** The cases of the test suite (monitor.ts 1021-1567) *)
(* ===================================================================== *)

Example test_detects_usage_limit :
  hasLimitMessage (lit "5-hour limit reached. Your limit resets at 3:45pm")
  = true.
Proof. vm_compute. reflexivity. Qed.

Example test_new_output :
  getNewOutput (lit "Hello world")
    (lit "Hello world" ++ nl ++ lit "New line here")
  = nl ++ lit "New line here".
Proof. vm_compute. reflexivity. Qed.

Example test_detects_approval_dialogs :
  detectApprovalDialog Fixtures.proceed = true
  /\ detectApprovalDialog Fixtures.createFile = true
  /\ detectApprovalDialog Fixtures.noApproval = false.
Proof. vm_compute. repeat split. Qed.

Example test_extracts_proceed_dialog :
  extractApprovalInfo Fixtures.proceed
  = {| ApprovalInfo.tool := lit "Tool";
       ApprovalInfo.action := lit "Proceed with operation";
       ApprovalInfo.question := lit "Do you want to proceed?";
       ApprovalInfo.options :=
         [ApprovalOption.Build 1 (lit "Yes") None;
          ApprovalOption.Build 2 (lit "No") None] |}.
Proof. vm_compute. reflexivity. Qed.

Example test_extracts_create_dialog :
  extractApprovalInfo Fixtures.createFile
  = {| ApprovalInfo.tool := lit "Write";
       ApprovalInfo.action := lit "Create debug-stop.js";
       ApprovalInfo.question := lit "Do you want to create debug-stop.js?";
       ApprovalInfo.options :=
         [ApprovalOption.Build 1 (lit "Yes") None;
          ApprovalOption.Build 2
            (lit "Yes, allow all edits during this session")
            (Some (lit "shift+tab"));
          ApprovalOption.Build 3
            (lit "No, and tell Claude what to do differently")
            (Some (lit "esc"))] |}.
Proof. vm_compute. reflexivity. Qed.

Example test_task_completion_patterns :
  test flag_m patterns.waitingForInput (lit "> ") = true
  /\ test flag_im patterns.notProcessing Fixtures.processing = true.
Proof. vm_compute. split; reflexivity. Qed.

Example test_limit_needs_active_terminal :
  hasLimitMessage Fixtures.claudeV2Limit = true
  /\ isActiveTerminalState Fixtures.claudeV2Limit = true
  /\ hasLimitMessage Fixtures.sessionsList = true
  /\ isActiveTerminalState Fixtures.sessionsList = false.
Proof. vm_compute. repeat split. Qed.

Example test_extracts_reset_time :
  extractResetTime Fixtures.claudeV2Limit = Some (lit "4am")
  /\ extractResetTime (lit "5-hour limit reached ∙ resets 3:45pm")
     = Some (lit "3:45pm")
  /\ extractResetTime (lit "Usage limit reached. Your limit resets at 10:30am.")
     = Some (lit "10:30am").
Proof. vm_compute. repeat split. Qed.

Example test_continuation_fails_on_short_limit_answer :
  let before := lit "Some previous output" ++ nl ++ lit "> " in
  let after :=
    join [lit "Some previous output"; lit "> continue";
          lit "  Session limit reached ∙ resets 8pm";
          lit "     /upgrade to increase your usage limit."; lit ""; lit "> "] in
  fst (tryImmediateContinuation Mock.collaborators Mock.sessionId
         (lit "limit output")
         (Mock.watching (initialState 0) (Mock.worldAt 0 [before; after] [])))
  = Ok (false, Some after).
Proof. vm_compute. reflexivity. Qed.

Example test_continuation_succeeds_on_answer :
  let before := lit "Some previous output" ++ nl ++ lit "> " in
  let after :=
    join [lit "Some previous output"; lit "> continue";
          lit "Let me help you with that. Here's what I found...";
          lit "[substantial response content here that's more than 50 chars]";
          lit ""; lit "> "] in
  fst (tryImmediateContinuation Mock.collaborators Mock.sessionId
         (lit "limit output")
         (Mock.watching (initialState 0) (Mock.worldAt 0 [before; after] [])))
  = Ok (true, Some after).
Proof. vm_compute. reflexivity. Qed.

(* ===================================================================== *)
(** ** Facts on strings *)
(* ===================================================================== *)

Lemma eqb_refl (a : jsstring) : eqb a a = true.
Proof.
  induction a as [|x a IH]; simpl; [reflexivity|].
  now rewrite N.eqb_refl, IH.
Qed.

Lemma eqb_eq (a b : jsstring) : eqb a b = true <-> a = b.
Proof.
  split.
  - revert b; induction a as [|x a IH]; intros [|y b]; simpl;
      try congruence.
    intros H. apply andb_true_iff in H as [Hx Hab].
    apply N.eqb_eq in Hx. f_equal; auto.
  - intros ->. apply eqb_refl.
Qed.

Lemma eqb_neq (a b : jsstring) : eqb a b = false <-> a <> b.
Proof.
  rewrite <- eqb_eq. destruct (eqb a b); split; congruence.
Qed.

Lemma startsWith_app (p r : jsstring) : startsWith (p ++ r) p = true.
Proof.
  induction p as [|x p IH]; simpl; [reflexivity|].
  now rewrite N.eqb_refl, IH.
Qed.

Lemma startsWith_prefix (s p : jsstring) :
  startsWith s p = true <-> exists r, s = p ++ r.
Proof.
  split.
  - revert s; induction p as [|x p IH]; intros s H.
    + now exists s.
    + destruct s as [|y s]; simpl in H; [discriminate|].
      apply andb_true_iff in H as [Hx Hs]. apply N.eqb_eq in Hx. subst y.
      destruct (IH _ Hs) as [r ->]. now exists r.
  - intros [r ->]. apply startsWith_app.
Qed.

Lemma includes_startsWith (s x : jsstring) :
  startsWith s x = true -> includes s x = true.
Proof. intros H. destruct s; simpl; now rewrite H. Qed.

Lemma includes_infix (s x : jsstring) :
  includes s x = true <-> exists pre post, s = pre ++ x ++ post.
Proof.
  split.
  - induction s as [|c s IH]; simpl; intros H.
    + rewrite orb_false_r in H. apply startsWith_prefix in H as [r Hr].
      now exists [], r.
    + apply orb_true_iff in H as [H|H].
      * apply startsWith_prefix in H as [r Hr]. now exists [], r.
      * destruct (IH H) as (pre & post & ->). now exists (c :: pre), post.
  - intros (pre & post & ->).
    induction pre as [|c pre IH].
    + cbn [app]. apply includes_startsWith, startsWith_app.
    + simpl. rewrite IH. apply orb_true_r.
Qed.

(* ===================================================================== *)
(** ** The new slice of a changed capture *)
(* ===================================================================== *)

Lemma getNewOutput_empty (currentOutput : jsstring) :
  getNewOutput [] currentOutput = currentOutput.
Proof. reflexivity. Qed.

Lemma getNewOutput_not_included (lastOutput currentOutput : jsstring) :
  includes currentOutput lastOutput = false ->
  getNewOutput lastOutput currentOutput = currentOutput.
Proof.
  intros H. unfold getNewOutput. destruct lastOutput; [reflexivity|].
  now rewrite H.
Qed.

Lemma getNewOutput_included (lastOutput currentOutput : jsstring) :
  includes currentOutput lastOutput = true ->
  getNewOutput lastOutput currentOutput
  = skipn (length lastOutput) currentOutput.
Proof.
  intros H. unfold getNewOutput, substring.
  destruct lastOutput; [reflexivity|]. now rewrite H.
Qed.

(** When the last capture is a prefix of the current one the result is
    what follows it. *)
Lemma getNewOutput_appended (lastOutput rest : jsstring) :
  getNewOutput lastOutput (lastOutput ++ rest) = rest.
Proof.
  rewrite getNewOutput_included.
  - now rewrite drop_app_length.
  - apply includes_infix. now exists [], rest.
Qed.

(** Nothing follows the prompt in a capture that ends with it. *)
Lemma prompt_at_the_end (pre post : jsstring) :
  lit "done" ++ nl ++ lit "> " = pre ++ lit "> " ++ post -> post = [].
Proof.
  intros H. vm_compute in H.
  repeat (destruct pre as [|? pre]; simpl in H;
          [ first [discriminate H | now injection H as <-]
          | first [discriminate H | injection H as _ H] ]).
Qed.

(** C6.  [getNewOutput] does not return the text that follows the last
    capture when that capture occurs further inside the current one: with
    the lone prompt as last capture and a screen that now shows a line
    above the prompt, the current capture includes the last one, nothing
    follows it, and the result is the current capture without its first two
    code units. *)
Theorem getNewOutput_inner_occurrence :
  let lastOutput := lit "> " in
  let currentOutput := lit "done" ++ nl ++ lit "> " in
  includes currentOutput lastOutput = true
  /\ getNewOutput lastOutput currentOutput = lit "ne" ++ nl ++ lit "> "
  /\ ~ exists pre,
         currentOutput
         = pre ++ lastOutput ++ getNewOutput lastOutput currentOutput.
Proof.
  cbv zeta. repeat split.
  intros [pre H]. apply prompt_at_the_end in H. vm_compute in H.
  discriminate.
Qed.

(* ===================================================================== *)
(** ** The options stored by the constructor *)
(* ===================================================================== *)

(** C10.  Whatever the options, the constructor stores [autoRestart = true]
    (also for an explicit [false]), and a [pollInterval] or [maxRetries] of
    0 is replaced by 2000 and 3. *)
Theorem constructor_defaults_by_or :
  forall (pollInterval maxRetries : option Z) (autoRestart : option bool),
    Options.autoRestart
      (constructorOptions
         (MonitoringOptions.Build pollInterval maxRetries autoRestart)) = true
    /\ Options.autoRestart
         (constructorOptions
            (MonitoringOptions.Build pollInterval maxRetries (Some false)))
       = true
    /\ Options.pollInterval
         (constructorOptions
            (MonitoringOptions.Build (Some 0) maxRetries autoRestart)) = 2000
    /\ Options.maxRetries
         (constructorOptions
            (MonitoringOptions.Build pollInterval (Some 0) autoRestart)) = 3.
Proof.
  intros pollInterval maxRetries [[|]|]; repeat split.
Qed.

(** A value that is present and not 0 is kept. *)
Lemma constructor_keeps_nonzero (p r : Z) (a : option bool) :
  p <> 0 -> r <> 0 ->
  constructorOptions (MonitoringOptions.Build (Some p) (Some r) a)
  = Options.Build p r true.
Proof.
  intros Hp Hr. unfold constructorOptions, orNumber; simpl.
  apply Z.eqb_neq in Hp, Hr. rewrite Hp, Hr.
  now destruct a as [[|]|].
Qed.

(* ===================================================================== *)
(** ** Interactive approval dialogs *)
(* ===================================================================== *)

(** What the loop of [isInteractiveApprovalDialog] leaves in its flags. *)
Lemma interactive_fold (lines : list jsstring) (colors content : bool) :
  fold_left interactiveStep lines (colors, content)
  = (colors
     || existsb (fun l => hasApprovalText l
                          && (hasNormalColors l && negb (isGreyOrDim l)))
                lines,
     content || existsb hasApprovalText lines).
Proof.
  revert colors content.
  induction lines as [|l lines IH]; intros colors content;
    cbn [fold_left existsb].
  - now rewrite !orb_false_r.
  - destruct (interactiveStep (colors, content) l) as [colors' content'] eqn:E.
    rewrite IH. unfold interactiveStep in E.
    destruct (hasApprovalText l); simpl.
    + destruct (hasNormalColors l && negb (isGreyOrDim l));
        injection E as <- <-; simpl; now rewrite ?orb_true_r.
    + now injection E as <- <-.
Qed.

Lemma isInteractiveApprovalDialog_eq (colorOutput : jsstring) :
  isInteractiveApprovalDialog colorOutput
  = existsb hasApprovalText (split colorOutput)
    && (negb (includes colorOutput ANSI_ESCAPE)
        || existsb (fun l => hasApprovalText l
                             && (hasNormalColors l && negb (isGreyOrDim l)))
                   (split colorOutput)).
Proof.
  unfold isInteractiveApprovalDialog. rewrite interactive_fold. simpl.
  destruct (existsb hasApprovalText _), (includes _ _), (existsb _ _);
    reflexivity.
Qed.

(** The pattern of [hasNormalColors] accepts [[c m], for a code [c] of one
    or two digits, exactly for the codes of [normalCodes], and the pattern
    of [isGreyOrDim] exactly for 2, 8 and 90. *)
Lemma bracketed_codes (code : jsstring) :
  In code shortCodes ->
  test plain normalColor (lit "[" ++ code ++ lit "m")
  = existsb (eqb code) normalCodes
  /\ test plain greyOrDim (lit "[" ++ code ++ lit "m") = isDimCode code.
Proof.
  intros Hin.
  assert (H : forallb
                (fun code =>
                   Bool.eqb (test plain normalColor (lit "[" ++ code ++ lit "m"))
                            (existsb (eqb code) normalCodes)
                   && Bool.eqb (test plain greyOrDim (lit "[" ++ code ++ lit "m"))
                               (isDimCode code))
                shortCodes = true) by (vm_compute; reflexivity).
  rewrite forallb_forall in H. specialize (H code Hin).
  apply andb_true_iff in H as [H1 H2].
  apply Bool.eqb_prop in H1, H2. now split.
Qed.

(** What the function computes.  [isInteractiveApprovalDialog] returns
    [true] exactly when some line with approval content passes the two tests
    of the loop ([hasNormalColors] true, [isGreyOrDim] false), or when the
    capture has approval content and no ESC [[ at all. *)
Theorem isInteractiveApprovalDialog_iff :
  forall colorOutput : jsstring,
    isInteractiveApprovalDialog colorOutput = true <->
    (exists line,
        In line (split colorOutput) /\ hasApprovalText line = true
        /\ hasNormalColors line = true /\ isGreyOrDim line = false)
    \/ ((exists line,
            In line (split colorOutput) /\ hasApprovalText line = true)
        /\ includes colorOutput ANSI_ESCAPE = false).
Proof.
  intros colorOutput. rewrite isInteractiveApprovalDialog_eq.
  rewrite andb_true_iff, orb_true_iff, negb_true_iff, !existsb_exists.
  split.
  - intros [[l [Hin Hl]] [Hesc | [l' [Hin' Hl']]]].
    + right. split; [exists l; auto | exact Hesc].
    + left. exists l'.
      apply andb_true_iff in Hl' as [Ha Hc].
      apply andb_true_iff in Hc as [Hn Hg].
      apply negb_true_iff in Hg. auto.
  - intros [[l (Hin & Ha & Hn & Hg)] | [[l [Hin Ha]] Hesc]].
    + split; [exists l; auto|]. right. exists l. split; [exact Hin|].
      now rewrite Ha, Hn, Hg.
    + split; [exists l; auto|]. now left.
Qed.

(** C7.  A capture on which the function departs from the wording, and
    from its own comments, which name the dim and grey escapes to avoid as
    ESC [[2m, ESC [[90m and ESC [[8m.  The line holds the bold escape
    ESC [[1m, approval text with the plain text [[2m ago], which no escape
    character precedes, and the reset ESC [[0m: it has color escapes that
    are not dim and no dim escape, yet the function answers [false], because
    the pattern for the dim codes is tested on the bracketed text alone.
    Without that plain text the same line is taken for interactive. *)
Lemma interactive_bracket_text_counterexample :
  let colorOutput :=
    ANSI_ESCAPE ++ lit "1mDo you want to retry the build that failed [2m ago]?"
    ++ ANSI_ESCAPE ++ lit "0m" in
  escapeCodes colorOutput = [lit "1"; lit "0"]
  /\ specInteractive colorOutput = true
  /\ isInteractiveApprovalDialog colorOutput = false
  /\ isInteractiveApprovalDialog
       (ANSI_ESCAPE ++ lit "1mDo you want to retry the build that failed?"
        ++ ANSI_ESCAPE ++ lit "0m")
     = true.
Proof. vm_compute. repeat split. Qed.

(* ===================================================================== *)
(** ** Reasoning on the monad of the methods *)
(* ===================================================================== *)

Arguments lit : simpl never.
Arguments ofZ : simpl never.
Arguments test : simpl never.
Arguments exec : simpl never.
Arguments extractApprovalInfo : simpl never.
Arguments extractResetTime : simpl never.
Arguments parseResetTimeAt : simpl never.
Arguments parseTimeToNextOccurrenceAt : simpl never.

(** Unfolding the steps of the monad and the projections of the machine. *)
Ltac mred :=
  cbv beta iota zeta delta
    [bind ret throw tryCatch call now sleep emit getState modifyState
     getOptions safeNotifyDiscord sessionNameOf];
  cbn [world trace options sessionStates monitoringIntervals timers
       nextTimer record withWorld withStates withIntervals fst snd].

Section Keeps.

Context {W : Type} (col : Collaborators W).

(** A relation between the machine before and after a method, kept when
    the world changes and when a call accepted by [okCall] is recorded. *)
Variable R : Machine W -> Machine W -> Prop.
Variable okCall : Call -> bool.
Hypothesis R_refl : forall s, R s s.
Hypothesis R_trans : forall a b c, R a b -> R b c -> R a c.
Hypothesis R_world : forall w s, R s (withWorld w s).
Hypothesis R_record : forall c s, okCall c = true -> R s (record c s).

Lemma keeps_ret {A} (a : A) : keeps R (ret a).
Proof. intros s. apply R_refl. Qed.

Lemma keeps_throw {A} (e : jsstring) : keeps R (@throw W A e).
Proof. intros s. apply R_refl. Qed.

Lemma keeps_bind {A B} (m : M A) (k : A -> M B) :
  keeps R m -> (forall a, keeps R (k a)) -> keeps R (bind m k).
Proof.
  intros Hm Hk s. unfold bind. specialize (Hm s).
  destruct (m s) as [[a|e] s']; simpl in *.
  - eapply R_trans; [exact Hm | apply Hk].
  - exact Hm.
Qed.

Lemma keeps_tryCatch {A} (m : M A) (h : jsstring -> M A) :
  keeps R m -> (forall e, keeps R (h e)) -> keeps R (tryCatch m h).
Proof.
  intros Hm Hh s. unfold tryCatch. specialize (Hm s).
  destruct (m s) as [[a|e] s']; simpl in *.
  - exact Hm.
  - eapply R_trans; [exact Hm | apply Hh].
Qed.

Lemma keeps_call {A} (c : Call) (op : W -> result A * W) :
  okCall c = true -> keeps R (call c op).
Proof.
  intros Hc s. unfold call. destruct (op (world s)) as [r w]. simpl.
  eapply R_trans; [apply R_record, Hc | apply R_world].
Qed.

Lemma keeps_now : keeps R (now col).
Proof.
  intros s. unfold now. destruct (clock col (world s)) as [t w]. simpl.
  apply R_world.
Qed.

Lemma keeps_sleep (ms : Z) : okCall (Sleep ms) = true -> keeps R (sleep col ms).
Proof.
  intros Hc s. unfold sleep. simpl.
  eapply R_trans; [apply R_record, Hc | apply R_world].
Qed.

Lemma keeps_emit (e : MonitorEvent.t) :
  okCall (Emit e) = true -> keeps R (@emit W e).
Proof. intros Hc s. apply R_record, Hc. Qed.

Lemma keeps_getState (sessionId : jsstring) : keeps R (@getState W sessionId).
Proof. intros s. apply R_refl. Qed.

Lemma keeps_getOptions : keeps R (@getOptions W).
Proof. intros s. apply R_refl. Qed.

Lemma keeps_safeNotifyDiscord (sessionId : jsstring) (n : Notification.t) :
  okCall (SendNotification sessionId n) = true ->
  keeps R (safeNotifyDiscord col sessionId n).
Proof.
  intros Hc. unfold safeNotifyDiscord. destruct (sendNotification col).
  - apply keeps_tryCatch; [now apply keeps_call | intros; apply keeps_ret].
  - apply keeps_ret.
Qed.

Lemma keeps_sessionNameOf (sessionId : jsstring) :
  okCall (GetSession sessionId) = true ->
  keeps R (sessionNameOf col sessionId).
Proof.
  intros Hc. unfold sessionNameOf. apply keeps_bind; [now apply keeps_call|].
  intros a. apply keeps_ret.
Qed.

End Keeps.

(* ===================================================================== *)
(** ** Idle detection *)
(* ===================================================================== *)

(** [handleTaskCompletion] emits the event, and sends the notification when
    a bot is present and the session lookup for the name returns. *)
Lemma handleTaskCompletion_fires {W} (col : Collaborators W)
    (sessionId output : jsstring) (idleMs : Z) (s : Machine W)
    (st : SessionState.t) send :
  sessionStates s !! sessionId = Some st ->
  sendNotification col = Some send ->
  (forall w, exists o w', getSession col sessionId w = (Ok o, w')) ->
  exists e n new,
    trace (snd (handleTaskCompletion col sessionId output idleMs s))
    = SendNotification sessionId n :: new ++ Emit e :: trace s
    /\ MonitorEvent.type e = EventType.task_completed
    /\ MonitorEvent.data e = TaskData output idleMs
    /\ Notification.type n = n_task_completed.
Proof.
  intros Hst Hsend Hget.
  unfold handleTaskCompletion. mred. rewrite Hst, Hsend.
  destruct (clock col (world s)) as [t1 w1]; mred.
  destruct (clock col w1) as [t2 w2]; mred.
  destruct (Hget w2) as (o & w3 & ->); mred.
  destruct (clock col w3) as [t3 w4]; mred.
  match goal with
  | |- context [send ?a ?b ?c] => destruct (send a b c) as [[[]|e] w5]
  end; mred;
    eexists _, _, [GetSession sessionId]; repeat split.
Qed.

(** C5, as the code has it.  With the other preconditions of the idle
    detector in force, an idle time of 10 seconds or more (10 seconds
    exactly included) makes [checkTaskCompletion] run
    [handleTaskCompletion], which emits the event and sends the
    notification; a shorter idle time makes it return without any call. *)
Theorem idle_threshold :
  forall W (col : Collaborators W) (sessionId output : jsstring)
         (s : Machine W) (st : SessionState.t) (lastChange t : Z) (w : W) send,
    sessionStates s !! sessionId = Some st ->
    SessionState.awaitingContinuation st = false ->
    SessionState.lastOutputChangeTime st = Some lastChange ->
    clock col (world s) = (t, w) ->
    test flag_m patterns.waitingForInput output = true ->
    test flag_im patterns.notProcessing output = true ->
    (forall last,
        SessionState.lastTaskCompletionNotification st = Some last ->
        COMPLETION_COOLDOWN_MS <= t - last) ->
    sendNotification col = Some send ->
    (forall w0, exists o w', getSession col sessionId w0 = (Ok o, w')) ->
    (10 * 1000 <= t - lastChange ->
     checkTaskCompletion col sessionId output s
     = handleTaskCompletion col sessionId output (t - lastChange)
         (withWorld w s)
     /\ exists e n new,
         trace (snd (checkTaskCompletion col sessionId output s))
         = SendNotification sessionId n :: new ++ Emit e :: trace s
         /\ MonitorEvent.type e = EventType.task_completed
         /\ Notification.type n = n_task_completed)
    /\ (t - lastChange < 10 * 1000 ->
        checkTaskCompletion col sessionId output s = (Ok tt, withWorld w s)).
Proof.
  intros W col sessionId output s st lastChange t w send
    Hst Hawait Hchange Hclock Hwait Hproc Hcool Hsend Hget.
  assert (Hrun : checkTaskCompletion col sessionId output s
                 = if t - lastChange <? MIN_IDLE_SECONDS * 1000
                   then (Ok tt, withWorld w s)
                   else handleTaskCompletion col sessionId output
                          (t - lastChange) (withWorld w s)).
  { unfold checkTaskCompletion. mred.
    rewrite Hst, Hawait, Hchange, Hclock. mred.
    destruct (t - lastChange <? MIN_IDLE_SECONDS * 1000); [reflexivity|].
    rewrite Hwait, Hproc. cbn [negb orb].
    destruct (SessionState.lastTaskCompletionNotification st) as [last|] eqn:E;
      [|reflexivity].
    specialize (Hcool last eq_refl).
    destruct (t - last <? COMPLETION_COOLDOWN_MS) eqn:E'; [|reflexivity].
    apply Z.ltb_lt in E'. lia. }
  change (MIN_IDLE_SECONDS * 1000) with 10000 in Hrun.
  split; intros Hidle.
  - assert (E : (t - lastChange <? 10000) = false) by (apply Z.ltb_ge; lia).
    rewrite E in Hrun. split; [exact Hrun|]. rewrite Hrun.
    destruct (handleTaskCompletion_fires col sessionId output (t - lastChange)
                (withWorld w s) (st := st) Hst Hsend Hget)
      as (e & n & new & Htr & He & _ & Hn).
    exists e, n, new. auto.
  - assert (E : (t - lastChange <? 10000) = true) by (apply Z.ltb_lt; lia).
    now rewrite E in Hrun.
Qed.

(** C5, the boundary on a run.  The pane has shown "Task finished" and the
    prompt for exactly 10 000 ms; the cycle sends the task_completed
    notification. *)
Lemma idle_exactly_ten_seconds_fires :
  let out := lit "Task finished" ++ nl ++ lit "> " in
  let s := Mock.watching (initialState 0) (Mock.worldAt 10000 [out] []) in
  exists n rest,
    trace (snd (checkTaskCompletion Mock.collaborators Mock.sessionId out s))
    = SendNotification Mock.sessionId n :: rest
    /\ Notification.type n = n_task_completed
    /\ In ("idleDurationSeconds"%string, MNum 10) (Notification.metadata n).
Proof.
  eexists _, _. split; [vm_compute; reflexivity|].
  split; [reflexivity|]. left. reflexivity.
Qed.

Lemma idle_threshold_witness :
  let out := lit "Task finished" ++ nl ++ lit "> " in
  let s := Mock.watching (initialState 0) (Mock.worldAt 12000 [out] []) in
  checkTaskCompletion Mock.collaborators Mock.sessionId out s
  = handleTaskCompletion Mock.collaborators Mock.sessionId out 12000 s.
Proof.
  intros out s.
  refine (proj1 (proj1 (idle_threshold Mock.collaborators Mock.sessionId out s
                   (st := initialState 0) (lastChange := 0) (t := 12000)
                   (w := Mock.worldAt 12000 [out] [])
                   (send := fun _ _ w => (Ok tt, w))
                   _ _ _ _ _ _ _ _ _) _)).
  - reflexivity.
  - reflexivity.
  - reflexivity.
  - reflexivity.
  - vm_compute; reflexivity.
  - vm_compute; reflexivity.
  - intros last H. discriminate H.
  - reflexivity.
  - intros w0. eexists _, _. reflexivity.
  - vm_compute. discriminate.
Defined.

(* ===================================================================== *)
(** ** Approval requests *)
(* ===================================================================== *)

Ltac approval_leaf :=
  split; [reflexivity|];
  split; [unfold approvalNotifications;
          cbn [List.filter isApprovalNotification length Notification.type];
          lia
         |reflexivity].

(** The two ways [handleApprovalRequest] goes on a monitored session:
    either the question is the stored one and nothing at all happens, or it
    is stored, and the calls that follow leave the states alone and contain
    at most one approval notification. *)
Lemma handleApprovalRequest_cases {W} (col : Collaborators W)
    (sessionId output : jsstring) (s : Machine W) (st : SessionState.t) :
  sessionStates s !! sessionId = Some st ->
  let q := ApprovalInfo.question (extractApprovalInfo output) in
  (SessionState.lastApprovalQuestion st = Some q
   /\ handleApprovalRequest col sessionId output s = (Ok tt, s))
  \/ (SessionState.lastApprovalQuestion st <> Some q
      /\ exists new,
          let s' := snd (handleApprovalRequest col sessionId output s) in
          trace s' = new ++ trace s
          /\ (approvalNotifications new <= 1)%nat
          /\ sessionStates s'
             = alter (SessionState.set_lastApprovalQuestion (Some q))
                 sessionId (sessionStates s)).
Proof.
  intros Hst q. unfold handleApprovalRequest. mred. rewrite Hst. fold q.
  destruct (SessionState.lastApprovalQuestion st) as [q0|] eqn:Hq.
  - destruct (eqb q0 q) eqn:E.
    + left. apply eqb_eq in E. subst q0. now split.
    + right. apply eqb_neq in E. split; [congruence|].
      destruct (clock col (world s)) as [t1 w1]; mred.
      destruct (getSession col sessionId w1) as [[o|e] w2]; mred;
        [|eexists [_; _]; approval_leaf].
      destruct (clock col w2) as [t2 w3]; mred.
      destruct (sendNotification col) as [send|]; mred.
      * match goal with
        | |- context [send ?a ?b ?c] => destruct (send a b c) as [[[]|e] w4]
        end; mred;
          match goal with
          | |- context [updateSession col ?a ?b ?c] =>
              destruct (updateSession col a b c) as [[[]|e'] w5]
          end; mred; eexists [_; _; _; _]; approval_leaf.
      * match goal with
        | |- context [updateSession col ?a ?b ?c] =>
            destruct (updateSession col a b c) as [[[]|e'] w5]
        end; mred; eexists [_; _; _]; approval_leaf.
  - right. split; [congruence|].
    destruct (clock col (world s)) as [t1 w1]; mred.
    destruct (getSession col sessionId w1) as [[o|e] w2]; mred;
      [|eexists [_; _]; approval_leaf].
    destruct (clock col w2) as [t2 w3]; mred.
    destruct (sendNotification col) as [send|]; mred.
    * match goal with
      | |- context [send ?a ?b ?c] => destruct (send a b c) as [[[]|e] w4]
      end; mred;
        match goal with
        | |- context [updateSession col ?a ?b ?c] =>
            destruct (updateSession col a b c) as [[[]|e'] w5]
        end; mred; eexists [_; _; _; _]; approval_leaf.
    * match goal with
      | |- context [updateSession col ?a ?b ?c] =>
          destruct (updateSession col a b c) as [[[]|e'] w5]
      end; mred; eexists [_; _; _]; approval_leaf.
Qed.

(** On a session that is not monitored the method does nothing. *)
Lemma handleApprovalRequest_unmonitored {W} (col : Collaborators W)
    (sessionId output : jsstring) (s : Machine W) :
  sessionStates s !! sessionId = None ->
  handleApprovalRequest col sessionId output s = (Ok tt, s).
Proof.
  intros Hst. unfold handleApprovalRequest. mred. now rewrite Hst.
Qed.

Lemma approvalNotifications_app (a b : list Call) :
  approvalNotifications (a ++ b)
  = (approvalNotifications a + approvalNotifications b)%nat.
Proof.
  unfold approvalNotifications. now rewrite List.filter_app, length_app.
Qed.

(** C1.  On a monitored session, two approval dialogs with the same question
    seen one after the other give at most one approval notification: the
    second call of [handleApprovalRequest] returns at once, leaving the
    machine as it was (no event, no notification, no status update).  Any
    call whose question equals the stored [lastApprovalQuestion] does so,
    and a call that records anything had a question other than the stored
    one. *)
Theorem approval_dedup :
  forall W (col : Collaborators W) (sessionId first second : jsstring)
         (s : Machine W) (st : SessionState.t),
    sessionStates s !! sessionId = Some st ->
    ApprovalInfo.question (extractApprovalInfo first)
    = ApprovalInfo.question (extractApprovalInfo second) ->
    let s1 := snd (handleApprovalRequest col sessionId first s) in
    let s2 := snd (handleApprovalRequest col sessionId second s1) in
    handleApprovalRequest col sessionId second s1 = (Ok tt, s1)
    /\ (approvalNotifications (trace s2)
        <= approvalNotifications (trace s) + 1)%nat
    /\ (SessionState.lastApprovalQuestion st
        = Some (ApprovalInfo.question (extractApprovalInfo first)) ->
        handleApprovalRequest col sessionId first s = (Ok tt, s))
    /\ (trace s1 <> trace s ->
        SessionState.lastApprovalQuestion st
        <> Some (ApprovalInfo.question (extractApprovalInfo first))).
Proof.
  intros W col sessionId first second s st Hst Hsame s1 s2.
  pose proof (handleApprovalRequest_cases col sessionId first s Hst) as H1.
  cbv zeta in H1. fold s1 in H1.
  assert (Hst1 : exists st1,
             sessionStates s1 !! sessionId = Some st1
             /\ SessionState.lastApprovalQuestion st1
                = Some (ApprovalInfo.question (extractApprovalInfo second))).
  { destruct H1 as [[Hq Hrun] | [_ (new & _ & _ & Hstates)]].
    - exists st. subst s1. rewrite Hrun. simpl. split; congruence.
    - rewrite Hstates, lookup_alter, Hst. rewrite decide_True by reflexivity.
      simpl. eexists. split; [reflexivity|]. simpl. congruence. }
  destruct Hst1 as (st1 & Hst1 & Hq1).
  assert (Hsecond : handleApprovalRequest col sessionId second s1 = (Ok tt, s1)).
  { destruct (handleApprovalRequest_cases col sessionId second s1 Hst1)
      as [[_ Hrun] | [Hne _]]; [exact Hrun | contradiction]. }
  split; [exact Hsecond|]. split; [|split].
  - subst s2. rewrite Hsecond. simpl.
    destruct H1 as [[_ Hrun] | [_ (new & Htr & Hone & _)]].
    + subst s1. rewrite Hrun. simpl. lia.
    + rewrite Htr, approvalNotifications_app. lia.
  - intros Hq. destruct H1 as [[_ Hrun] | [Hne _]];
      [exact Hrun | contradiction].
  - intros Htr Hq. destruct H1 as [[_ Hrun] | [Hne _]].
    + apply Htr. subst s1. now rewrite Hrun.
    + contradiction.
Qed.

Lemma approval_dedup_witness :
  let dialog :=
    join [lit "│ Do you want to proceed?        │";
          lit "│ ❯ 1. Yes                       │";
          lit "│   2. No                        │"] in
  let s := Mock.watching (initialState 0) (Mock.worldAt 0 [dialog] dialog) in
  let s1 :=
    snd (handleApprovalRequest Mock.collaborators Mock.sessionId dialog s) in
  approvalNotifications (trace s1) = 1%nat
  /\ handleApprovalRequest Mock.collaborators Mock.sessionId dialog s1
     = (Ok tt, s1).
Proof.
  intros dialog s s1. split; [vm_compute; reflexivity|].
  refine (proj1 (approval_dedup Mock.collaborators Mock.sessionId dialog dialog
                   s (st := initialState 0) _ eq_refl)).
  vm_compute. reflexivity.
Defined.

(* ===================================================================== *)
(** ** The retry budget *)
(* ===================================================================== *)

Section Retry.

Context {W : Type} (col : Collaborators W) (sessionId : jsstring).

Lemma errorEvents_app (a b : list Call) :
  errorEvents (a ++ b) = (errorEvents a + errorEvents b)%nat.
Proof. unfold errorEvents. now rewrite List.filter_app, length_app. Qed.

Lemma errorEvents_cons (c : Call) (l : list Call) :
  errorEvents (c :: l)
  = ((if isErrorEvent c then 1 else 0) + errorEvents l)%nat.
Proof. unfold errorEvents. simpl. now destruct (isErrorEvent c). Qed.

Lemma untouched_refl (s : Machine W) : untouched sessionId s s.
Proof. repeat split. now exists []. Qed.

Lemma untouched_trans (a b c : Machine W) :
  untouched sessionId a b -> untouched sessionId b c ->
  untouched sessionId a c.
Proof.
  intros (Ha1&Ha2&Ha3&Ha4&n1&T1&E1) (Hb1&Hb2&Hb3&Hb4&n2&T2&E2).
  repeat split; try congruence.
  exists (n2 ++ n1). rewrite T2, T1, app_assoc, errorEvents_app.
  split; [reflexivity|lia].
Qed.

Lemma untouched_world (w : W) (s : Machine W) :
  untouched sessionId s (withWorld w s).
Proof. repeat split. now exists []. Qed.

Lemma untouched_record (c : Call) (s : Machine W) :
  quiet c = true -> untouched sessionId s (record c s).
Proof.
  intros Hc. repeat split. exists [c]. split; [reflexivity|].
  unfold errorEvents, quiet in *. simpl.
  now destruct (isErrorEvent c).
Qed.

Lemma untouched_notReset (s s' : Machine W) :
  untouched sessionId s s' -> notReset sessionId s s'.
Proof.
  intros (Ho & _ & _ & Hr & Ht). repeat split; [exact Ho | | exact Ht].
  intros n Hn. congruence.
Qed.

Lemma notReset_trans (a b c : Machine W) :
  notReset sessionId a b -> notReset sessionId b c -> notReset sessionId a c.
Proof.
  intros (Ha&Hr1&n1&T1&E1) (Hb&Hr2&n2&T2&E2).
  repeat split; [congruence | auto |].
  exists (n2 ++ n1). rewrite T2, T1, app_assoc, errorEvents_app.
  split; [reflexivity|lia].
Qed.

#[local] Abbreviation kept := (keeps (@untouched W sessionId)).

Lemma kept_ret {A} (a : A) : kept (ret a).
Proof. apply keeps_ret, untouched_refl. Qed.

Lemma kept_bind {A B} (m : M A) (k : A -> M B) :
  kept m -> (forall a, kept (k a)) -> kept (bind m k).
Proof. apply keeps_bind, untouched_trans. Qed.

Lemma kept_tryCatch {A} (m : M A) (h : jsstring -> M A) :
  kept m -> (forall e, kept (h e)) -> kept (tryCatch m h).
Proof. apply keeps_tryCatch, untouched_trans. Qed.

Lemma kept_call {A} (c : Call) (op : W -> result A * W) :
  quiet c = true -> kept (call c op).
Proof.
  exact (@keeps_call W (untouched sessionId) quiet untouched_trans
           untouched_world untouched_record A c op).
Qed.

Lemma kept_now : kept (now col).
Proof. apply keeps_now, untouched_world. Qed.

Lemma kept_sleep (ms : Z) : kept (sleep col ms).
Proof.
  exact (@keeps_sleep W col (untouched sessionId) quiet untouched_trans
           untouched_world untouched_record ms eq_refl).
Qed.

Lemma kept_emit (e : MonitorEvent.t) :
  quiet (Emit e) = true -> kept (@emit W e).
Proof.
  exact (@keeps_emit W (untouched sessionId) quiet untouched_record e).
Qed.

Lemma kept_getState (sid : jsstring) : kept (@getState W sid).
Proof. apply keeps_getState, untouched_refl. Qed.

Lemma kept_safeNotifyDiscord (sid : jsstring) (n : Notification.t) :
  kept (safeNotifyDiscord col sid n).
Proof.
  exact (@keeps_safeNotifyDiscord W col (untouched sessionId) quiet
           untouched_refl untouched_trans untouched_world untouched_record
           sid n eq_refl).
Qed.

Lemma kept_sessionNameOf (sid : jsstring) : kept (sessionNameOf col sid).
Proof.
  exact (@keeps_sessionNameOf W col (untouched sessionId) quiet
           untouched_refl untouched_trans untouched_world untouched_record
           sid eq_refl).
Qed.

(** An assignment to a field other than [retryCount]. *)
Lemma kept_modifyState (sid : jsstring) (f : SessionState.t -> SessionState.t) :
  (forall st, SessionState.retryCount (f st) = SessionState.retryCount st) ->
  kept (modifyState sid f).
Proof.
  intros Hf s. unfold modifyState, untouched, retryCountOf. simpl.
  repeat split; [|now exists []].
  rewrite lookup_alter. destruct (decide (sid = sessionId)) as [->|]; [|reflexivity].
  destruct (sessionStates s !! sessionId); simpl; [|reflexivity].
  now rewrite Hf.
Qed.

End Retry.

(** Splitting a method along its binds, branches and primitive steps. *)
Ltac kept_step :=
  first
    [ progress cbv zeta
    | apply kept_ret | apply kept_now | apply kept_sleep
    | apply kept_getState | apply kept_safeNotifyDiscord
    | apply kept_sessionNameOf
    | apply kept_call; reflexivity
    | apply kept_emit; reflexivity
    | apply kept_modifyState; intros ?; reflexivity
    | apply kept_bind; [|intros ?]
    | apply kept_tryCatch; [|intros ?]
    | match goal with
      | |- keeps _ (match ?x with _ => _ end) => destruct x
      | |- keeps _ (if ?b then _ else _) => destruct b
      end ].

Ltac kept_auto := repeat kept_step.

(** The same, with lemmas on the methods called. *)
Tactic Notation "kept_auto" "using" tactic(known) :=
  repeat first [known | kept_step].

Section RetryMethods.

Context {W : Type} (col : Collaborators W) (sessionId : jsstring).

#[local] Abbreviation kept := (keeps (@untouched W sessionId)).

Lemma kept_handleTaskCompletion sid output idleMs :
  kept (handleTaskCompletion col sid output idleMs).
Proof. unfold handleTaskCompletion. kept_auto. Qed.

Lemma kept_checkTaskCompletion sid output :
  kept (checkTaskCompletion col sid output).
Proof.
  unfold checkTaskCompletion.
  kept_auto using (apply kept_handleTaskCompletion).
Qed.

Lemma kept_handleApprovalRequest sid output :
  kept (handleApprovalRequest col sid output).
Proof. unfold handleApprovalRequest. kept_auto. Qed.

Lemma kept_tryImmediateContinuation sid output :
  kept (tryImmediateContinuation col sid output).
Proof. unfold tryImmediateContinuation. kept_auto. Qed.

Lemma kept_scheduleAndNotify sid output :
  kept (scheduleAndNotify col sid output).
Proof. unfold scheduleAndNotify. kept_auto. Qed.

Lemma kept_handleLimitDetected sid output :
  kept (handleLimitDetected col sid output).
Proof.
  unfold handleLimitDetected.
  kept_auto using (first [apply kept_tryImmediateContinuation
                         | apply kept_scheduleAndNotify]).
Qed.

Lemma kept_performAutoContinuation sid :
  kept (performAutoContinuation col sid).
Proof. unfold performAutoContinuation. kept_auto. Qed.

Lemma kept_executeQuotaSchedule sid q :
  kept (executeQuotaSchedule col sid q).
Proof. unfold executeQuotaSchedule. kept_auto. Qed.

Lemma kept_detectApproval sid output : kept (detectApproval col sid output).
Proof.
  unfold detectApproval.
  kept_auto using (apply kept_handleApprovalRequest).
Qed.

Lemma kept_detectPatterns sid output : kept (detectPatterns col sid output).
Proof.
  unfold detectPatterns.
  kept_auto using (first [apply kept_handleLimitDetected
                         | apply kept_detectApproval]).
Qed.

Lemma kept_analyzeOutput sid output : kept (analyzeOutput col sid output).
Proof.
  unfold analyzeOutput.
  kept_auto using (first [apply kept_detectPatterns
                         | apply kept_checkTaskCompletion]).
Qed.

Lemma kept_quotaGate sid session : kept (quotaGate col sid session).
Proof.
  unfold quotaGate.
  kept_auto using (apply kept_executeQuotaSchedule).
Qed.

End RetryMethods.

Section RetryCycle.

Context {W : Type} (col : Collaborators W) (sessionId : jsstring).

#[local] Abbreviation kept := (keeps (@untouched W sessionId)).

Lemma cycleOk_kept {A} (m : @M W A) : kept m -> cycleOk sessionId m.
Proof.
  intros Hm s. specialize (Hm s). split.
  - now apply untouched_notReset.
  - now destruct (fst (m s)).
Qed.

Lemma cycleOk_bind {A B} (m : @M W A) (k : A -> @M W B) :
  kept m -> (forall a, cycleOk sessionId (k a)) -> cycleOk sessionId (bind m k).
Proof.
  intros Hm Hk s. unfold bind. specialize (Hm s).
  destruct (m s) as [[a|e] s1]; simpl in *.
  - destruct (Hk a s1) as [Hn Ht]. split.
    + eapply notReset_trans; [apply untouched_notReset, Hm | exact Hn].
    + destruct (fst (k a s1)); [exact I|].
      eapply untouched_trans; eassumption.
  - split; [now apply untouched_notReset | exact Hm].
Qed.

Lemma cycleOk_stopMonitoring (sid : jsstring) :
  cycleOk sessionId (@stopMonitoring W sid).
Proof.
  intros s. split; [|exact I].
  unfold stopMonitoring, notReset, retryCountOf.
  destruct (monitoringIntervals s !! sid) as [interval|]; simpl.
  - repeat split.
    + intros n. rewrite lookup_delete.
      destruct (decide (sid = sessionId)); [discriminate | auto].
    + now exists [ClearInterval interval].
  - repeat split.
    + intros n. rewrite lookup_delete.
      destruct (decide (sid = sessionId)); [discriminate | auto].
    + now exists [].
Qed.

Lemma cycleOk_pollCycle (sid : jsstring) : cycleOk sessionId (pollCycle col sid).
Proof.
  unfold pollCycle.
  apply cycleOk_bind; [apply kept_call; reflexivity|].
  intros [session|]; [|apply cycleOk_stopMonitoring].
  cbv zeta. apply cycleOk_bind; [apply kept_call; reflexivity|].
  intros tmuxExists.
  destruct (negb tmuxExists); [apply cycleOk_stopMonitoring|].
  apply cycleOk_kept.
  kept_auto using (first [apply kept_performAutoContinuation
                         | apply kept_quotaGate
                         | apply kept_analyzeOutput]).
Qed.

End RetryCycle.

(** C9, as the code has it.  [retryCount] counts the polling errors since
    monitoring started: a cycle that ends without error leaves it as it is
    (it is not reset) and emits no error event; a cycle that throws adds one
    to it; when the count then reaches [maxRetries] the session is no longer
    monitored and exactly one error event has been emitted; below
    [maxRetries] the session stays monitored and no error event is
    emitted. *)
Theorem retry_budget :
  forall W (col : Collaborators W) (sessionId : jsstring) (s : Machine W)
         (n : Z),
    retryCountOf sessionId s = Some n ->
    let s' := snd (pollSession col sessionId s) in
    match fst (pollCycle col sessionId s) with
    | Ok _ =>
        (forall k, retryCountOf sessionId s' = Some k -> k = n)
        /\ errorEvents (trace s') = errorEvents (trace s)
    | Throw _ =>
        if Options.maxRetries (options s) <=? n + 1 then
          retryCountOf sessionId s' = None
          /\ monitoringIntervals s' !! sessionId = None
          /\ errorEvents (trace s') = S (errorEvents (trace s))
        else
          retryCountOf sessionId s' = Some (n + 1)
          /\ monitoringIntervals s' = monitoringIntervals s
          /\ errorEvents (trace s') = errorEvents (trace s)
    end.
Proof.
  intros W col sessionId s n Hn s'.
  destruct (cycleOk_pollCycle col sessionId sessionId s) as [Hreset Hthrow].
  subst s'. unfold pollSession, tryCatch.
  destruct (pollCycle col sessionId s) as [[[]|e] s1]; simpl in *.
  - destruct Hreset as (_ & Hr & new & Htr & Herr). split.
    + intros k Hk. apply Hr in Hk. congruence.
    + rewrite Htr, errorEvents_app. lia.
  - destruct Hthrow as (Hopt & Hint & _ & Hretry & new & Htr & Herr).
    rewrite Hn in Hretry. unfold retryCountOf in Hretry.
    destruct (sessionStates s1 !! sessionId) as [st1|] eqn:Hst1;
      [|discriminate].
    injection Hretry as Hretry.
    unfold handlePollingError. mred. rewrite Hst1, Hretry, Hopt.
    destruct (Options.maxRetries (options s) <=? n + 1).
    + unfold stopMonitoring. mred.
      destruct (monitoringIntervals s1 !! sessionId) as [interval|] eqn:Hi;
        mred; destruct (clock col (world s1)) as [t w]; mred;
        unfold retryCountOf; mred;
        rewrite ?lookup_delete_eq, Htr, !errorEvents_cons, errorEvents_app,
          Herr;
        cbn [isErrorEvent MonitorEvent.type]; repeat split; congruence.
    + unfold retryCountOf. mred.
      rewrite lookup_alter_eq, Hst1. simpl. repeat split; [congruence|].
      rewrite Htr, errorEvents_app. lia.
Qed.

(** C9, a run.  The session has failed twice; a cycle that completes without
    error leaves the count at 2 (it is not back to 0), and the next failing
    cycle is the third of a budget of 3, although it follows a success: it
    ends the monitoring. *)
Lemma retry_count_survives_success :
  let st := SessionState.set_retryCount 2 (initialState 0) in
  let s := Mock.watching st (Mock.worldAt 1000 [lit "building"] []) in
  let s1 := snd (pollSession Mock.collaborators Mock.sessionId s) in
  let failing :=
    withWorld {| Mock.registry := Mock.registry (world s1);
                 Mock.screen := [Throw (lit "Failed to capture tmux pane")];
                 Mock.colorScreen := [];
                 Mock.time := 3000 |} s1 in
  let s2 := snd (pollSession Mock.collaborators Mock.sessionId failing) in
  fst (pollCycle Mock.collaborators Mock.sessionId s) = Ok tt
  /\ retryCountOf Mock.sessionId s = Some 2
  /\ retryCountOf Mock.sessionId s1 = Some 2
  /\ retryCountOf Mock.sessionId s2 = None
  /\ errorEvents (trace s2) = 1%nat.
Proof. vm_compute. repeat split. Qed.

Lemma retry_budget_witness :
  let st := SessionState.set_retryCount 2 (initialState 0) in
  let w := {| Mock.registry := {[ Mock.sessionId := Mock.session ]};
              Mock.screen := [Throw (lit "Failed to capture tmux pane")];
              Mock.colorScreen := [];
              Mock.time := 1000 |} in
  let s' :=
    snd (pollSession Mock.collaborators Mock.sessionId (Mock.watching st w)) in
  retryCountOf Mock.sessionId s' = None
  /\ monitoringIntervals s' !! Mock.sessionId = None
  /\ errorEvents (trace s') = 1%nat.
Proof.
  intros st w.
  pose proof (retry_budget Mock.collaborators Mock.sessionId
                (Mock.watching st w) (n := 2)) as H.
  assert (Hn : retryCountOf Mock.sessionId (Mock.watching st w) = Some 2)
    by (vm_compute; reflexivity).
  specialize (H Hn). cbv zeta in H.
  assert (Hc : fst (pollCycle Mock.collaborators Mock.sessionId
                      (Mock.watching st w))
               = Throw (lit "Failed to capture tmux pane"))
    by (vm_compute; reflexivity).
  rewrite Hc in H. exact H.
Defined.

(* ===================================================================== *)
(** ** The public operations *)
(* ===================================================================== *)

Lemma stopMonitoring_returns {W} (sessionId : jsstring) (s : Machine W) :
  fst (stopMonitoring sessionId s) = Ok tt.
Proof. reflexivity. Qed.

Lemma stopEach_returns {W} (sessionIds : list jsstring) (s : Machine W) :
  fst (stopEach sessionIds s) = Ok tt.
Proof.
  revert s. induction sessionIds as [|sid rest IH]; intros s.
  - reflexivity.
  - cbn [stopEach]. unfold bind.
    destruct (stopMonitoring sid s) as [[[]|e] s1] eqn:E.
    + apply IH.
    + pose proof (stopMonitoring_returns sid s) as H. rewrite E in H.
      discriminate H.
Qed.

(** C8, as the code has it.  [startMonitoring] throws "Session not found"
    when the lookup of the session returns null, and returns when the
    lookup returns a record; [stopMonitoring] and [stopAll] always return
    ([getActiveMonitoring] reads a map and cannot throw). *)
Theorem public_operations_exceptions :
  forall W (col : Collaborators W) (sessionId : jsstring) (s : Machine W),
    (forall w, getSession col sessionId (world s) = (Ok None, w) ->
               fst (startMonitoring col sessionId s)
               = Throw (lit "Session not found: " ++ sessionId))
    /\ (forall session w,
           getSession col sessionId (world s) = (Ok (Some session), w) ->
           fst (startMonitoring col sessionId s) = Ok tt)
    /\ fst (stopMonitoring sessionId s) = Ok tt
    /\ fst (stopAll s) = Ok tt.
Proof.
  intros W col sessionId s. repeat split.
  - intros w H. unfold startMonitoring. mred. now rewrite H.
  - intros session w H. unfold startMonitoring. mred. rewrite H. mred.
    now destruct (clock col w).
  - apply stopEach_returns.
Qed.

(** C8, a run.  Starting the monitoring of a session the registry does not
    know throws to the caller. *)
Lemma startMonitoring_unknown_session_throws :
  fst (startMonitoring Mock.collaborators (lit "ccremote-9")
         (newMonitor noOptions (Mock.worldAt 0 [] [])))
  = Throw (lit "Session not found: ccremote-9").
Proof. vm_compute. reflexivity. Qed.

Lemma public_operations_exceptions_witness :
  fst (startMonitoring Mock.collaborators Mock.sessionId
         (newMonitor noOptions (Mock.worldAt 0 [] []))) = Ok tt.
Proof.
  refine (proj1 (proj2 (public_operations_exceptions Mock.collaborators
                          Mock.sessionId
                          (newMonitor noOptions (Mock.worldAt 0 [] []))))
            Mock.session (Mock.worldAt 0 [] []) _).
  vm_compute. reflexivity.
Defined.

(* ===================================================================== *)
(** ** The sanity cap on reset times *)
(* ===================================================================== *)

(** [scheduleAndNotify] when the text holds a reset time: the schedule is
    what [parseResetTimeAt] answers, and the limit notification carries the
    raw time. *)
Lemma scheduleAndNotify_notifies {W} (col : Collaborators W)
    (sessionId output : jsstring) (s : Machine W) (c : N) (r : jsstring)
    (t : Z) (w : W) send :
  extractResetTime output = Some (c :: r) ->
  clock col (world s) = (t, w) ->
  sendNotification col = Some send ->
  (forall w0, exists o w', getSession col sessionId w0 = (Ok o, w')) ->
  let s' := snd (scheduleAndNotify col sessionId output s) in
  sessionStates s'
  = match parseResetTimeAt (timezone col) t (c :: r) with
    | Some resetDateTime =>
        alter (SessionState.set_scheduledResetTime (Some resetDateTime))
          sessionId (sessionStates s)
    | None => sessionStates s
    end
  /\ exists n,
      trace s'
      = [UpdateSession sessionId (SetStatus waiting);
         SendNotification sessionId n; GetSession sessionId] ++ trace s
      /\ Notification.type n = n_limit
      /\ In ("resetTime"%string, MStr (c :: r)) (Notification.metadata n).
Proof.
  intros Hx Hclock Hsend Hget. unfold scheduleAndNotify. mred.
  rewrite Hx, Hsend. mred. rewrite Hclock. mred.
  destruct (parseResetTimeAt (timezone col) t (c :: r)) as [d|]; mred;
    match goal with
    | |- context [getSession col sessionId ?w1] =>
        destruct (Hget w1) as (o & w2 & ->)
    end; mred;
    destruct (clock col w2) as [t2 w3]; mred;
    match goal with
    | |- context [send ?a ?b ?x] => destruct (send a b x) as [[[]|e] w4]
    end; mred;
    match goal with
    | |- context [updateSession col ?a ?b ?x] =>
        destruct (updateSession col a b x) as [[[]|e'] w5]
    end; mred;
    (split; [reflexivity|]; eexists; split; [reflexivity|];
     split; [reflexivity|]; left; reflexivity).
Qed.

(** [handleLimitDetected] comes to that second half directly when the
    immediate continuation was attempted before. *)
Lemma handleLimitDetected_already_attempted {W} (col : Collaborators W)
    (sessionId output : jsstring) (s : Machine W) (st : SessionState.t)
    (t : Z) (w : W) :
  sessionStates s !! sessionId = Some st ->
  SessionState.scheduledResetTime st = None ->
  SessionState.immediateContinueAttempted st = true ->
  clock col (world s) = (t, w) ->
  handleLimitDetected col sessionId output s
  = scheduleAndNotify col sessionId output
      (record (Emit {| MonitorEvent.type := EventType.limit_detected;
                       MonitorEvent.sessionId := sessionId;
                       MonitorEvent.data := LimitData output;
                       MonitorEvent.timestamp := t |})
              (withWorld w s)).
Proof.
  intros Hst Hsched Htried Hclock. unfold handleLimitDetected.
  cbv beta iota zeta delta [bind getState now emit].
  now rewrite Hst, Hsched, Hclock, Htried.
Qed.

(** C4, as the code has it.  A deadline more than 5 hours ahead of the
    current time yields no schedule, and the limit notification still goes
    out with the raw reset-time text; a deadline up to 5 hours ahead, 5 hours
    exactly included, is scheduled. *)
Theorem sanity_cap :
  forall W (col : Collaborators W) (sessionId output : jsstring)
         (s : Machine W) (c : N) (r : jsstring) (t d : Z) (w : W) send,
    extractResetTime output = Some (c :: r) ->
    clock col (world s) = (t, w) ->
    resetDeadline (timezone col) t (c :: r) = Some d ->
    sendNotification col = Some send ->
    (forall w0, exists o w', getSession col sessionId w0 = (Ok o, w')) ->
    let s' := snd (scheduleAndNotify col sessionId output s) in
    (5 * msPerHour < d - t ->
     parseResetTimeAt (timezone col) t (c :: r) = None
     /\ sessionStates s' = sessionStates s
     /\ exists n rest,
         trace s' = rest ++ SendNotification sessionId n :: GetSession sessionId
                      :: trace s
         /\ Notification.type n = n_limit
         /\ In ("resetTime"%string, MStr (c :: r)) (Notification.metadata n))
    /\ (d - t <= 5 * msPerHour ->
        parseResetTimeAt (timezone col) t (c :: r) = Some d
        /\ sessionStates s'
           = alter (SessionState.set_scheduledResetTime (Some d)) sessionId
               (sessionStates s)).
Proof.
  intros W col sessionId output s c r t d w send Hx Hclock Hd Hsend Hget s'.
  destruct (scheduleAndNotify_notifies col sessionId output s Hx Hclock Hsend
              Hget) as [Hstates (n & Htr & Hn & Hmeta)].
  fold s' in Hstates, Htr.
  unfold parseResetTimeAt in *. rewrite Hd in *.
  split; intros Hcap.
  - assert (E : (5 * msPerHour <? d - t) = true) by (apply Z.ltb_lt; lia).
    rewrite E in *. split; [reflexivity|]. split; [exact Hstates|].
    exists n, [UpdateSession sessionId (SetStatus waiting)].
    rewrite Htr. auto.
  - assert (E : (5 * msPerHour <? d - t) = false) by (apply Z.ltb_ge; lia).
    rewrite E in *. auto.
Qed.

(** C4, the boundary on a run.  At 10:00:00.000 the pane says that the limit
    resets at 3pm, exactly 5 hours ahead: the time is accepted and the
    continuation is scheduled for it. *)
Lemma deadline_exactly_five_hours_is_scheduled :
  let t := 100 * msPerDay + 10 * msPerHour in
  let out :=
    lit "5-hour limit reached. Your limit resets at 3pm" ++ nl ++ lit "> " in
  let s := Mock.watching (initialState 0) (Mock.worldAt t [out] []) in
  resetDeadline 0 t (lit "3pm") = Some (t + 5 * msPerHour)
  /\ parseResetTimeAt 0 t (lit "3pm") = Some (t + 5 * msPerHour)
  /\ SessionState.scheduledResetTime
       <$> (sessionStates
              (snd (scheduleAndNotify Mock.collaborators Mock.sessionId out s))
              !! Mock.sessionId)
     = Some (Some (t + 5 * msPerHour)).
Proof. vm_compute. repeat split. Qed.

Lemma sanity_cap_witness :
  let t := 100 * msPerDay + 10 * msPerHour in
  let out :=
    lit "5-hour limit reached. Your limit resets at 4pm" ++ nl ++ lit "> " in
  let s := Mock.watching (initialState 0) (Mock.worldAt t [out] []) in
  parseResetTimeAt 0 t (lit "4pm") = None
  /\ sessionStates
       (snd (scheduleAndNotify Mock.collaborators Mock.sessionId out s))
     = sessionStates s.
Proof.
  intros t out s.
  assert (H : 5 * msPerHour < (t + 6 * msPerHour) - t) by (vm_compute; reflexivity).
  destruct (proj1 (sanity_cap Mock.collaborators Mock.sessionId out s
                     (c := 52%N) (r := lit "pm") (t := t)
                     (d := t + 6 * msPerHour)
                     (w := Mock.worldAt t [out] [])
                     (send := fun _ _ w => (Ok tt, w))
                     ltac:(vm_compute; reflexivity)
                     ltac:(reflexivity)
                     ltac:(vm_compute; reflexivity)
                     ltac:(reflexivity)
                     ltac:(intros w0; eexists _, _; reflexivity)) H)
    as (Hparse & Hstates & _).
  split; [exact Hparse | exact Hstates].
Defined.

(* ===================================================================== *)
(** ** Matching a reset time *)
(* ===================================================================== *)

Section Matching.

Implicit Types (k : mstate -> option mstate) (pre tail : jsstring)
  (caps : list (nat * jsstring)) (fl : flags) (a b : regex) (x : mstate).

Lemma capture_app i pre pre' (got : jsstring) tail caps caps' :
  capture i (MS pre (got ++ tail) caps) (MS pre' tail caps')
  = MS pre' tail ((i, got) :: caps').
Proof.
  unfold capture. cbn [remaining consumed captures].
  rewrite length_app, Nat.add_sub, firstn_app, Nat.sub_diag, firstn_all.
  cbn [firstn]. now rewrite app_nil_r.
Qed.

Lemma rmatch_seq fl a b k x :
  rmatch fl (RSeq a b) k x = rmatch fl a (rmatch fl b k) x.
Proof. reflexivity. Qed.

Lemma rmatch_empty fl k x : rmatch fl REmpty k x = k x.
Proof. reflexivity. Qed.

Lemma rmatch_group fl i a k x :
  rmatch fl (RGroup i a) k x = rmatch fl a (fun y => k (capture i x y)) x.
Proof. reflexivity. Qed.

Lemma rmatch_alt fl a b k x :
  rmatch fl (RAlt a b) k x
  = match rmatch fl a k x with
    | Some y => Some y
    | None => rmatch fl b k x
    end.
Proof. reflexivity. Qed.

Lemma rmatch_char_ok k pre c tail caps :
  rmatch plain (RChar c) k (MS pre (c :: tail) caps)
  = k (MS (c :: pre) tail caps).
Proof. cbn. now rewrite N.eqb_refl. Qed.

Lemma rmatch_char_no k pre c tail caps :
  headIs (N.eqb c) tail = false ->
  rmatch plain (RChar c) k (MS pre tail caps) = None.
Proof.
  intros H. destruct tail as [|c' tail]; cbn in *; [reflexivity|].
  rewrite N.eqb_sym. now rewrite H.
Qed.

Lemma rmatch_digit_ok k pre c tail caps :
  isDigit c = true ->
  rmatch plain digit k (MS pre (c :: tail) caps) = k (MS (c :: pre) tail caps).
Proof. intros H. cbn. now rewrite H. Qed.

Lemma rmatch_digit_no k pre tail caps :
  headIs isDigit tail = false ->
  rmatch plain digit k (MS pre tail caps) = None.
Proof. intros H. destruct tail as [|c tail]; cbn in *; [|rewrite H]; reflexivity. Qed.

Lemma rmatch_space_ok k pre c tail caps :
  isWhiteSpace c = true ->
  rmatch plain space k (MS pre (c :: tail) caps) = k (MS (c :: pre) tail caps).
Proof. intros H. cbn [rmatch space remaining xorb inClass ignoreCase plain]. now rewrite H. Qed.

Lemma rmatch_space_no k pre tail caps :
  headIs isWhiteSpace tail = false ->
  rmatch plain space k (MS pre tail caps) = None.
Proof.
  intros H. destruct tail as [|c tail];
    cbn [rmatch space remaining xorb inClass ignoreCase plain headIs] in *;
    [|rewrite H]; reflexivity.
Qed.

(** The hours: one digit, or two when a second one is there. *)
Lemma match_hours k pre (hours : jsstring) tail caps y :
  allDigits hours = true ->
  (length hours = 1 \/ length hours = 2)%nat ->
  headIs isDigit tail = false ->
  k (MS (rev hours ++ pre) tail ((1%nat, hours) :: caps)) = Some y ->
  rmatch plain (RGroup 1 (RSeq digit (ROpt digit))) k
    (MS pre (hours ++ tail) caps) = Some y.
Proof.
  intros Hd Hlen Htail Hk.
  unfold ROpt. rewrite rmatch_group, rmatch_seq.
  destruct hours as [|d1 [|d2 [|d3 hours]]]; cbn in Hlen; try lia.
  - cbn in Hd. rewrite andb_true_r in Hd.
    cbn [app]. rewrite rmatch_digit_ok by exact Hd.
    rewrite rmatch_alt, rmatch_digit_no by exact Htail. rewrite rmatch_empty.
    change (d1 :: tail) with ([d1] ++ tail). rewrite capture_app. exact Hk.
  - cbn in Hd. rewrite andb_true_r in Hd. apply andb_true_iff in Hd as [H1 H2].
    cbn [app]. rewrite rmatch_digit_ok by exact H1.
    rewrite rmatch_alt, rmatch_digit_ok by exact H2.
    change (d1 :: d2 :: tail) with ([d1; d2] ++ tail).
    rewrite (capture_app 1 pre (d2 :: d1 :: pre) [d1; d2] tail caps caps).
    cbn [rev app] in Hk. now rewrite Hk.
Qed.

(** The minutes, when a colon and two digits are ahead. *)
Lemma match_minutes k pre m tail caps y :
  allDigits m = true -> length m = 2%nat ->
  k (MS (rev m ++ 58%N :: pre) tail ((2%nat, m) :: caps)) = Some y ->
  rmatch plain (ROpt (RSeq (RStr ":") (RGroup 2 (RSeq digit digit)))) k
    (MS pre (lit ":" ++ m ++ tail) caps) = Some y.
Proof.
  intros Hd Hlen Hk.
  destruct m as [|m1 [|m2 [|m3 m]]]; cbn in Hlen; try lia.
  cbn in Hd. rewrite andb_true_r in Hd. apply andb_true_iff in Hd as [H1 H2].
  unfold ROpt. change (RStr ":") with (RSeq (RChar 58%N) REmpty).
  change (lit ":") with [58%N]. cbn [app].
  rewrite rmatch_alt, !rmatch_seq, rmatch_char_ok, rmatch_empty, rmatch_group,
    rmatch_seq.
  rewrite rmatch_digit_ok by exact H1. rewrite rmatch_digit_ok by exact H2.
  change (m1 :: m2 :: tail) with ([m1; m2] ++ tail).
  rewrite (capture_app 2 (58%N :: pre) (m2 :: m1 :: 58%N :: pre) [m1; m2] tail
             caps caps).
  cbn [rev app] in Hk. now rewrite Hk.
Qed.

(** No minutes when no colon is ahead. *)
Lemma match_no_minutes k pre tail caps :
  headIs (N.eqb 58) tail = false ->
  rmatch plain (ROpt (RSeq (RStr ":") (RGroup 2 (RSeq digit digit)))) k
    (MS pre tail caps) = k (MS pre tail caps).
Proof.
  intros H. unfold ROpt. change (RStr ":") with (RSeq (RChar 58%N) REmpty).
  rewrite rmatch_alt, !rmatch_seq, rmatch_char_no by exact H.
  apply rmatch_empty.
Qed.

(** The greedy run of white space, up to the first other code unit. *)
Lemma starLoop_spaces k gap : forall n pre tail caps y,
  forallb isWhiteSpace gap = true ->
  headIs isWhiteSpace tail = false ->
  (length gap < n)%nat ->
  k (MS (rev gap ++ pre) tail caps) = Some y ->
  starLoop (rmatch plain space) k n (MS pre (gap ++ tail) caps) = Some y.
Proof.
  induction gap as [|c gap IH]; intros n pre tail caps y Hws Htail Hn Hk.
  - cbn [app rev] in *. destruct n as [|n]; [exact Hk|].
    cbn [starLoop]. rewrite rmatch_space_no by exact Htail. exact Hk.
  - cbn [forallb] in Hws. apply andb_true_iff in Hws as [Hc Hws].
    destruct n as [|n]; [cbn in Hn; lia|].
    cbn [starLoop app]. rewrite rmatch_space_ok by exact Hc.
    cbn [remaining length].
    assert (E : (length (gap ++ tail) <? S (length (gap ++ tail)))%nat = true)
      by (apply Nat.ltb_lt; lia).
    rewrite E. erewrite IH; [reflexivity | exact Hws | exact Htail | |].
    + cbn in Hn. lia.
    + cbn [rev] in Hk. now rewrite <- app_assoc in Hk.
Qed.

Lemma match_spaces k pre gap tail caps y :
  forallb isWhiteSpace gap = true ->
  headIs isWhiteSpace tail = false ->
  k (MS (rev gap ++ pre) tail caps) = Some y ->
  rmatch plain (RStar space) k (MS pre (gap ++ tail) caps) = Some y.
Proof.
  intros Hws Htail Hk. cbn [rmatch remaining].
  apply starLoop_spaces; auto. rewrite length_app. lia.
Qed.

(** The period, when am or pm ends the text. *)
Lemma match_period k pre p caps y :
  k (MS (rev (periodText p) ++ pre) [] ((3%nat, periodText p) :: caps)) = Some y ->
  rmatch plain (ROpt (RGroup 3 (RAlt (RStr "am") (RStr "pm")))) k
    (MS pre (periodText p) caps) = Some y.
Proof.
  intros Hk. destruct p; vm_compute in Hk |- *; now rewrite Hk.
Qed.

Lemma match_no_period k pre caps :
  rmatch plain (ROpt (RGroup 3 (RAlt (RStr "am") (RStr "pm")))) k
    (MS pre [] caps) = k (MS pre [] caps).
Proof. reflexivity. Qed.

End Matching.

Section ResetTime.

Implicit Types (hours gap letters : jsstring) (minutes : option jsstring)
  (period : option Period).

Lemma space_not_digit (c : N) : isWhiteSpace c = true -> isDigit c = false.
Proof.
  unfold isWhiteSpace, isDigit. intros H.
  apply andb_false_iff.
  rewrite !orb_true_iff, !andb_true_iff, !N.leb_le, !N.eqb_eq in H.
  rewrite N.leb_gt, N.leb_gt. lia.
Qed.

Lemma digit_not_space (c : N) : isDigit c = true -> isWhiteSpace c = false.
Proof.
  intros H. destruct (isWhiteSpace c) eqn:E; [|reflexivity].
  apply space_not_digit in E. congruence.
Qed.

Lemma space_not_colon (c : N) : isWhiteSpace c = true -> (58 =? c)%N = false.
Proof.
  unfold isWhiteSpace. intros H. apply N.eqb_neq.
  rewrite !orb_true_iff, !andb_true_iff, !N.leb_le, !N.eqb_eq in H. lia.
Qed.

Lemma digit_not_colon (c : N) : isDigit c = true -> (58 =? c)%N = false.
Proof.
  unfold isDigit. intros H. apply N.eqb_neq.
  rewrite andb_true_iff, !N.leb_le in H. lia.
Qed.

Lemma lowerChar_digit (c : N) : isDigit c = true -> lowerChar c = c.
Proof.
  unfold isDigit, lowerChar, isUpperAscii. intros H.
  rewrite andb_true_iff, !N.leb_le in H.
  destruct (65 <=? c)%N eqn:E; [|reflexivity].
  apply N.leb_le in E. lia.
Qed.

Lemma lowerChar_space (c : N) : isWhiteSpace c = true -> lowerChar c = c.
Proof.
  unfold isWhiteSpace, lowerChar, isUpperAscii. intros H.
  rewrite !orb_true_iff, !andb_true_iff, !N.leb_le, !N.eqb_eq in H.
  destruct ((65 <=? c) && (c <=? 90))%N eqn:E; [|reflexivity].
  rewrite andb_true_iff, !N.leb_le in E. lia.
Qed.

Lemma toLowerCase_digits (s : jsstring) :
  allDigits s = true -> toLowerCase s = s.
Proof.
  unfold toLowerCase, allDigits.
  induction s as [|c s IH]; [reflexivity|]. cbn [map forallb]. intros H.
  apply andb_true_iff in H as [Hc Hs].
  now rewrite lowerChar_digit, IH.
Qed.

Lemma toLowerCase_spaces (s : jsstring) :
  forallb isWhiteSpace s = true -> toLowerCase s = s.
Proof.
  unfold toLowerCase.
  induction s as [|c s IH]; [reflexivity|]. cbn [map forallb]. intros H.
  apply andb_true_iff in H as [Hc Hs].
  now rewrite lowerChar_space, IH.
Qed.

Lemma toLowerCase_app (a b : jsstring) :
  toLowerCase (a ++ b) = toLowerCase a ++ toLowerCase b.
Proof. apply map_app. Qed.

Lemma trimStart_fixed (s : jsstring) :
  headIs isWhiteSpace s = false -> trimStart s = s.
Proof. destruct s as [|c s]; cbn; [reflexivity|]. now intros ->. Qed.

Lemma trim_fixed (s : jsstring) :
  headIs isWhiteSpace s = false -> headIs isWhiteSpace (rev s) = false ->
  trim s = s.
Proof.
  intros H1 H2. unfold trim.
  now rewrite (trimStart_fixed s H1), (trimStart_fixed _ H2), rev_involutive.
Qed.

Lemma headIs_app (p : N -> bool) (a b : jsstring) :
  headIs p (a ++ b) = match a with [] => headIs p b | c :: _ => p c end.
Proof. now destruct a. Qed.

Lemma headIs_spaces (p : N -> bool) (gap tail : jsstring) :
  (forall c, isWhiteSpace c = true -> p c = false) ->
  forallb isWhiteSpace gap = true ->
  headIs p tail = false ->
  headIs p (gap ++ tail) = false.
Proof.
  intros Hp Hgap Htail. destruct gap as [|c gap]; [exact Htail|].
  cbn in *. apply andb_true_iff in Hgap as [Hc _]. now apply Hp.
Qed.

Lemma normalised hours minutes gap letters period :
  isTimeForm hours minutes gap letters period ->
  trim (toLowerCase (timeForm hours minutes gap letters))
  = lowered hours minutes gap period.
Proof.
  intros (Hh & Hlen & Hm & Hp).
  assert (Hlow : toLowerCase (timeForm hours minutes gap letters)
                 = lowered hours minutes gap period).
  { unfold timeForm, lowered. rewrite !toLowerCase_app.
    rewrite toLowerCase_digits by exact Hh. f_equal. f_equal.
    - destruct minutes as [m|]; [|reflexivity]. cbn [minutesText].
      rewrite toLowerCase_app, (toLowerCase_digits m) by apply Hm.
      reflexivity.
    - destruct period as [p|].
      + destruct Hp as [Hg Hl]. rewrite toLowerCase_spaces by exact Hg.
        now rewrite Hl.
      + destruct Hp as [-> ->]. reflexivity. }
  rewrite Hlow. apply trim_fixed.
  - unfold lowered. rewrite headIs_app.
    destruct hours as [|d hours]; [cbn in Hlen; lia|].
    cbn in Hh. apply andb_true_iff in Hh as [Hd _].
    now apply digit_not_space.
  - unfold lowered. rewrite !rev_app_distr, <- !app_assoc.
    destruct period as [p|].
    + destruct p; reflexivity.
    + destruct Hp as [-> _]. cbn [loweredPeriod rev app].
      destruct minutes as [m|].
      * destruct Hm as [Hd Hl].
        destruct m as [|m1 [|m2 [|m3 m]]]; cbn in Hl; try lia.
        cbn in Hd. rewrite andb_true_r in Hd.
        apply andb_true_iff in Hd as [_ H2].
        cbn. now apply digit_not_space.
      * cbn [minutesText rev app].
        destruct hours as [|d1 [|d2 [|d3 hours]]]; cbn in Hlen; try lia;
          cbn in Hh; rewrite andb_true_r in Hh.
        -- cbn. now apply digit_not_space.
        -- apply andb_true_iff in Hh as [_ H2]. cbn. now apply digit_not_space.
Qed.

Lemma timePattern_matches hours minutes gap letters period :
  isTimeForm hours minutes gap letters period ->
  exists whole,
    exec plain timePattern (lowered hours minutes gap period)
    = Some (Matched whole (timeGroups hours minutes period)).
Proof.
  intros (Hh & Hlen & Hm & Hp).
  assert (Hgap : forallb isWhiteSpace gap = true).
  { destruct period; [apply Hp|]. destruct Hp as [-> _]. reflexivity. }
  assert (Hper : headIs isWhiteSpace (loweredPeriod period) = false
                 /\ headIs isDigit (loweredPeriod period) = false
                 /\ headIs (N.eqb 58) (loweredPeriod period) = false).
  { destruct period as [[|]|]; repeat split. }
  destruct Hper as (Hper1 & Hper2 & Hper3).
  assert (Hrun : exists pre,
             rmatch plain timePattern Some
               (MS [] (lowered hours minutes gap period) [])
             = Some (MS pre [] (timeGroups hours minutes period))).
  { unfold timePattern, RSeqs. rewrite !rmatch_seq.
    cbn [rmatch atBol consumed]. unfold lowered.
    destruct minutes as [m|], period as [p|]; eexists;
      (apply match_hours;
       [ exact Hh | exact Hlen
       | first [ reflexivity
               | cbn [minutesText app]; apply headIs_spaces;
                 auto using space_not_digit ]
       | ]).
    - cbn [minutesText]. rewrite <- app_assoc. destruct Hm as [Hmd Hml].
      apply match_minutes; [exact Hmd | exact Hml |].
      apply match_spaces; [exact Hgap | exact Hper1 |].
      apply match_period. reflexivity.
    - cbn [minutesText]. rewrite <- app_assoc. destruct Hm as [Hmd Hml].
      apply match_minutes; [exact Hmd | exact Hml |].
      apply match_spaces; [exact Hgap | exact Hper1 |].
      reflexivity.
    - cbn [minutesText app]. rewrite match_no_minutes
        by (apply headIs_spaces; auto using space_not_colon).
      apply match_spaces; [exact Hgap | exact Hper1 |].
      apply match_period. reflexivity.
    - cbn [minutesText app]. rewrite match_no_minutes
        by (apply headIs_spaces; auto using space_not_colon).
      apply match_spaces; [exact Hgap | exact Hper1 |].
      reflexivity. }
  destruct Hrun as [pre Hrun]. unfold exec.
  destruct (lowered hours minutes gap period) as [|c rest] eqn:E;
    cbn [searchFrom]; rewrite Hrun; eexists; reflexivity.
Qed.

Lemma to24h_hour24 (period : option Period) (h : Z) :
  to24h (periodText <$> period) h = hour24 period h.
Proof.
  destruct period as [[|]|]; [| |reflexivity].
  - change (to24h (periodText <$> Some AM) h)
      with (if false && negb (h =? 12) then h + 12
            else if true && (h =? 12) then 0 else h).
    cbn. now destruct (h =? 12).
  - change (to24h (periodText <$> Some PM) h)
      with (if true && negb (h =? 12) then h + 12
            else if false && (h =? 12) then 0 else h).
    cbn. now destruct (h =? 12).
Qed.

End ResetTime.

(** C3.  For a text of the form H or H:MM with an optional am or pm,
    [parseResetTime] converts the hour by the 12-hour rules, takes the wall
    clock of today at that hour and minute, and moves it to tomorrow exactly
    when today's time is not after the current instant; the deadline so
    obtained is returned unless the sanity check of the last lines rejects
    it. *)
Theorem parseResetTime_wall_clock :
  forall (tz now : Z) (hours : jsstring) (minutes : option jsstring)
         (gap letters : jsstring) (period : option Period),
    isTimeForm hours minutes gap letters period ->
    let hour := hour24 period (parseDigits hours) in
    let minute := match minutes with Some m => parseDigits m | None => 0 end in
    let today := todayAt tz now hour minute in
    let deadline := wallClockDeadline tz now hour minute in
    resetDeadline tz now (timeForm hours minutes gap letters) = Some deadline
    /\ (deadline = today + msPerDay <-> today <= now)
    /\ (deadline = today <-> now < today)
    /\ parseResetTimeAt tz now (timeForm hours minutes gap letters)
       = if 5 * msPerHour <? deadline - now then None else Some deadline.
Proof.
  intros tz now hours minutes gap letters period Hform hour minute today
    deadline.
  assert (Hd : resetDeadline tz now (timeForm hours minutes gap letters)
               = Some deadline).
  { unfold resetDeadline. rewrite (normalised Hform).
    destruct (timePattern_matches Hform) as [whole ->].
    assert (G1 : group (Matched whole (timeGroups hours minutes period)) 1
                 = Some hours)
      by (destruct minutes, period; reflexivity).
    assert (G2 : group (Matched whole (timeGroups hours minutes period)) 2
                 = minutes)
      by (destruct minutes, period; reflexivity).
    assert (G3 : group (Matched whole (timeGroups hours minutes period)) 3
                 = periodText <$> period)
      by (destruct minutes, period; reflexivity).
    cbv zeta. rewrite G1, G2, G3, to24h_hour24. cbn [from_option id].
    fold hour.
    assert (Hmin : minutesOf minutes = minute).
    { subst minute. destruct minutes as [m|]; [|reflexivity].
      destruct Hform as (_ & _ & [_ Hl] & _).
      destruct m; [discriminate Hl | reflexivity]. }
    rewrite Hmin. f_equal. subst deadline. unfold wallClockDeadline.
    change (setHours tz now hour minute) with today.
    fold today. unfold addDay.
    destruct (Z.leb_spec today now), (Z.ltb_spec now today);
      try reflexivity; lia. }
  split; [exact Hd|].
  assert (Hday : 0 < msPerDay) by reflexivity.
  subst deadline. unfold wallClockDeadline in *. fold today in Hd |- *.
  destruct (now <? today) eqn:E.
  - apply Z.ltb_lt in E. repeat split; try lia.
    unfold parseResetTimeAt. now rewrite Hd.
  - apply Z.ltb_ge in E. repeat split; try lia.
    unfold parseResetTimeAt. now rewrite Hd.
Qed.

Lemma parseResetTime_wall_clock_witness :
  let now := 100 * msPerDay + 15 * msPerHour in
  resetDeadline 0 now (lit "3:45 PM")
  = Some (100 * msPerDay + 15 * msPerHour + 45 * msPerMinute).
Proof.
  intros now.
  refine (proj1 (parseResetTime_wall_clock 0 now (hours := lit "3")
                   (minutes := Some (lit "45")) (gap := lit " ")
                   (letters := lit "PM") (period := Some PM) _)).
  split; [reflexivity|]. split; [left; reflexivity|].
  split; split; reflexivity.
Defined.

(* ===================================================================== *)
(** ** What a successful match tells about the text *)
(* ===================================================================== *)

Section Inversion.

Implicit Types (k : mstate -> option mstate) (pre tail : jsstring)
  (caps : list (nat * jsstring)) (fl : flags) (a b : regex) (x y : mstate).

(** A class consumes one code unit of the class. *)
Lemma rmatch_class_inv fl inv p k x y :
  rmatch fl (RClass inv p) k x = Some y ->
  exists c tl, remaining x = c :: tl
               /\ xorb inv (inClass fl p c) = true
               /\ k (step x c tl) = Some y.
Proof.
  cbn [rmatch]. destruct (remaining x) as [|c tl]; [discriminate|].
  destruct (xorb inv (inClass fl p c)) eqn:E; [|discriminate].
  intros H. now exists c, tl.
Qed.

Lemma rmatch_char_inv fl c k x y :
  rmatch fl (RChar c) k x = Some y ->
  exists ch tl, remaining x = ch :: tl
                /\ canonicalize fl ch = canonicalize fl c
                /\ k (step x ch tl) = Some y.
Proof.
  cbn [rmatch]. destruct (remaining x) as [|ch tl]; [discriminate|].
  destruct (canonicalize fl ch =? canonicalize fl c)%N eqn:E; [|discriminate].
  apply N.eqb_eq in E. intros H. now exists ch, tl.
Qed.

Lemma rmatch_alt_inv fl a b k x y :
  rmatch fl (RAlt a b) k x = Some y ->
  rmatch fl a k x = Some y \/ rmatch fl b k x = Some y.
Proof.
  cbn [rmatch]. destruct (rmatch fl a k x) as [z|]; [left | right]; assumption.
Qed.

(** A run of a class: some run of code units of the class, then the
    continuation. *)
Lemma starLoop_class_inv fl inv p k y : forall n x,
  starLoop (rmatch fl (RClass inv p)) k n x = Some y ->
  exists run rest,
    remaining x = run ++ rest
    /\ forallb (fun c => xorb inv (inClass fl p c)) run = true
    /\ k (MS (rev run ++ consumed x) rest (captures x)) = Some y.
Proof.
  induction n as [|n IH]; intros x H.
  - exists [], (remaining x). cbn. destruct x; auto.
  - cbn [starLoop] in H.
    destruct (rmatch fl (RClass inv p) _ x) as [z|] eqn:E.
    + injection H as ->.
      apply rmatch_class_inv in E as (c & tl & Hx & Hc & Hk).
      destruct (_ <? _)%nat; [|discriminate].
      apply IH in Hk as (run & rest & Hr & Hrun & Hk).
      cbn [step remaining consumed captures] in *. subst tl.
      exists (c :: run), rest. cbn [forallb app rev]. rewrite Hc, Hrun.
      rewrite <- app_assoc. auto.
    + exists [], (remaining x). cbn. destruct x; auto.
Qed.

Lemma rmatch_star_class_inv fl inv p k x y :
  rmatch fl (RStar (RClass inv p)) k x = Some y ->
  exists run rest,
    remaining x = run ++ rest
    /\ forallb (fun c => xorb inv (inClass fl p c)) run = true
    /\ k (MS (rev run ++ consumed x) rest (captures x)) = Some y.
Proof. apply starLoop_class_inv. Qed.

(** A literal text consumes that many code units and captures nothing. *)
Lemma rmatch_literal_inv fl (l : jsstring) k y : forall x,
  rmatch fl (fold_right (fun c r => RSeq (RChar c) r) REmpty l) k x = Some y ->
  exists got rest,
    remaining x = got ++ rest /\ length got = length l
    /\ map (canonicalize fl) got = map (canonicalize fl) l
    /\ k (MS (rev got ++ consumed x) rest (captures x)) = Some y.
Proof.
  induction l as [|c l IH]; intros x H.
  - exists [], (remaining x). cbn in *. destruct x; auto.
  - cbn [fold_right] in H. rewrite rmatch_seq in H.
    apply rmatch_char_inv in H as (ch & tl & Hx & Hc & Hk).
    apply IH in Hk as (got & rest & Hr & Hlen & Hcan & Hk).
    cbn [step remaining consumed captures] in *. subst tl.
    exists (ch :: got), rest. cbn [app rev length map].
    rewrite <- app_assoc, Hlen, Hc, Hcan. auto.
Qed.

(** The pattern anchored at the start of the text matches there or
    nowhere. *)
Lemma searchFrom_anchored (r : regex) : forall rest pre,
  pre <> [] -> searchFrom plain (RSeq RBol r) pre rest = None.
Proof.
  induction rest as [|c rest IH]; intros pre Hpre;
    destruct pre as [|p pre]; try congruence; cbn [searchFrom].
  - reflexivity.
  - rewrite rmatch_seq. cbn [rmatch atBol consumed multiline plain andb].
    now apply IH.
Qed.

Lemma exec_anchored (r : regex) (s : jsstring) (m : matched) :
  exec plain (RSeq RBol r) s = Some m ->
  exists y, rmatch plain r Some (MS [] s []) = Some y
            /\ groups m = captures y.
Proof.
  unfold exec. destruct (searchFrom plain (RSeq RBol r) [] s)
    as [[from y]|] eqn:E; [|discriminate].
  intros H. injection H as <-. exists y. split; [|reflexivity].
  destruct s as [|c s]; cbn [searchFrom] in E; rewrite rmatch_seq in E;
    cbn [rmatch atBol consumed] in E;
    destruct (rmatch plain r Some _) as [z|] eqn:Ez.
  - now injection E as _ <-.
  - discriminate.
  - now injection E as _ <-.
  - rewrite searchFrom_anchored in E by discriminate. discriminate.
Qed.

End Inversion.

(* ===================================================================== *)
(** ** The texts the time pattern accepts *)
(* ===================================================================== *)

Section TimePatternSound.

Implicit Types (k : mstate -> option mstate) (pre rest : jsstring)
  (caps : list (nat * jsstring)) (x y : mstate).

Lemma canonicalize_plain_map (l : jsstring) : map (canonicalize plain) l = l.
Proof. induction l as [|c l IH]; [reflexivity|]. cbn. now f_equal. Qed.

Lemma rmatch_digit_inv k x y :
  rmatch plain digit k x = Some y ->
  exists c tl, remaining x = c :: tl /\ isDigit c = true
               /\ k (step x c tl) = Some y.
Proof. intros H. apply rmatch_class_inv in H. exact H. Qed.

Lemma rmatch_eol_inv pre rest caps y :
  rmatch plain (RSeq REol REmpty) Some (MS pre rest caps) = Some y ->
  rest = [] /\ y = MS pre [] caps.
Proof.
  rewrite rmatch_seq. cbn [rmatch atEol remaining].
  destruct rest as [|c rest]; cbn; [|discriminate].
  intros H. now injection H as <-.
Qed.

(** The end of the pattern: white space, then am, pm or nothing. *)
Lemma period_sound pre rest caps y :
  rmatch plain
    (RSeq (RStar space)
       (RSeq (ROpt (RGroup 3 (RAlt (RStr "am") (RStr "pm"))))
          (RSeq REol REmpty))) Some (MS pre rest caps) = Some y ->
  exists gap period,
    forallb isWhiteSpace gap = true
    /\ rest = gap ++ loweredPeriod period
    /\ captures y
       = match period with Some p => [(3%nat, periodText p)] | None => [] end
         ++ caps.
Proof.
  rewrite rmatch_seq. intros H.
  apply rmatch_star_class_inv in H as (gap & rest' & Hr & Hgap & H).
  cbn [remaining consumed captures] in *. subst rest.
  exists gap. rewrite rmatch_seq in H. unfold ROpt in H.
  apply rmatch_alt_inv in H as [H|H].
  - rewrite rmatch_group in H.
    assert (Hlit : forall (l : jsstring),
               rmatch plain (fold_right (fun c r => RSeq (RChar c) r) REmpty l)
                 (fun z => rmatch plain (RSeq REol REmpty) Some
                             (capture 3 (MS (rev gap ++ pre) rest' caps) z))
                 (MS (rev gap ++ pre) rest' caps) = Some y ->
               rest' = l /\ captures y = (3%nat, l) :: caps).
    { intros l Hl. apply rmatch_literal_inv in Hl
        as (got & rest2 & Hr & _ & Hcan & Hk).
      rewrite !canonicalize_plain_map in Hcan. subst got.
      cbn [remaining consumed captures] in *. subst rest'.
      rewrite capture_app in Hk. apply rmatch_eol_inv in Hk as [-> ->].
      now rewrite app_nil_r. }
    apply rmatch_alt_inv in H as [H|H]; apply Hlit in H as [-> Hc].
    + exists (Some AM). auto.
    + exists (Some PM). auto.
  - rewrite rmatch_empty in H. apply rmatch_eol_inv in H as [-> ->].
    exists None. auto.
Qed.

(** Before it, a colon and two digits, or nothing. *)
Lemma minutes_sound pre rest caps y :
  rmatch plain
    (RSeq (ROpt (RSeq (RStr ":") (RGroup 2 (RSeq digit digit))))
       (RSeq (RStar space)
          (RSeq (ROpt (RGroup 3 (RAlt (RStr "am") (RStr "pm"))))
             (RSeq REol REmpty)))) Some (MS pre rest caps) = Some y ->
  exists minutes gap period,
    match minutes with
    | Some m => allDigits m = true /\ length m = 2%nat
    | None => True
    end
    /\ forallb isWhiteSpace gap = true
    /\ rest = minutesText minutes ++ gap ++ loweredPeriod period
    /\ captures y
       = match period with Some p => [(3%nat, periodText p)] | None => [] end
         ++ match minutes with Some m => [(2%nat, m)] | None => [] end
         ++ caps.
Proof.
  rewrite rmatch_seq. unfold ROpt at 1. intros H.
  apply rmatch_alt_inv in H as [H|H].
  - change (RStr ":") with (RSeq (RChar 58%N) REmpty) in H.
    rewrite !rmatch_seq in H.
    apply rmatch_char_inv in H as (ch & tl & Hr & Hc & H).
    cbn in Hc. subst ch. cbn [remaining step consumed captures] in *.
    subst rest. rewrite rmatch_empty, rmatch_group, rmatch_seq in H.
    apply rmatch_digit_inv in H as (m1 & tl1 & Hr & H1 & H).
    apply rmatch_digit_inv in H as (m2 & tl2 & Hr2 & H2 & H).
    cbn [remaining step consumed captures] in *. subst tl tl1.
    unfold step in H. cbn [remaining consumed captures] in H.
    change (m1 :: m2 :: tl2) with ([m1; m2] ++ tl2) in H.
    rewrite (capture_app 2 (58%N :: pre) (m2 :: m1 :: 58%N :: pre) [m1; m2]
               tl2 caps caps) in H.
    apply period_sound in H as (gap & period & Hgap & -> & Hy).
    exists (Some [m1; m2]), gap, period. cbn [allDigits forallb length].
    rewrite H1, H2. auto.
  - rewrite rmatch_empty in H.
    apply period_sound in H as (gap & period & Hgap & -> & Hy).
    exists None, gap, period. auto.
Qed.

(** The whole pattern: the text is one or two digits, then a colon and two
    digits or nothing, white space, and am, pm or nothing; the groups are
    these parts. *)
Lemma timePattern_sound (s : jsstring) (m : matched) :
  exec plain timePattern s = Some m ->
  exists hours minutes gap period,
    allDigits hours = true
    /\ (length hours = 1 \/ length hours = 2)%nat
    /\ match minutes with
       | Some m => allDigits m = true /\ length m = 2%nat
       | None => True
       end
    /\ forallb isWhiteSpace gap = true
    /\ s = lowered hours minutes gap period
    /\ groups m = timeGroups hours minutes period.
Proof.
  unfold timePattern. cbn [RSeqs]. intros H.
  apply exec_anchored in H as (y & H & ->).
  rewrite rmatch_seq, rmatch_group, rmatch_seq in H.
  apply rmatch_digit_inv in H as (d1 & tl & Hr & H1 & H).
  cbn [remaining step consumed captures] in *. subst s.
  unfold ROpt at 1 in H. apply rmatch_alt_inv in H as [H|H].
  - apply rmatch_digit_inv in H as (d2 & tl2 & Hr & H2 & H).
    cbn [remaining step consumed captures] in *. subst tl.
    unfold step in H. cbn [remaining consumed captures] in H.
    change (d1 :: d2 :: tl2) with ([d1; d2] ++ tl2) in H.
    rewrite (capture_app 1 [] [d2; d1] [d1; d2] tl2 [] []) in H.
    apply minutes_sound in H as (minutes & gap & period & Hm & Hgap & -> & Hy).
    exists [d1; d2], minutes, gap, period. cbn [allDigits forallb length].
    rewrite H1, H2, Hy. unfold timeGroups, lowered. auto 10.
  - rewrite rmatch_empty in H.
    unfold step in H. cbn [remaining consumed captures] in H.
    change (d1 :: tl) with ([d1] ++ tl) in H.
    rewrite (capture_app 1 [] [d1] [d1] tl [] []) in H.
    apply minutes_sound in H as (minutes & gap & period & Hm & Hgap & -> & Hy).
    exists [d1], minutes, gap, period. cbn [allDigits forallb length].
    rewrite H1, Hy. unfold timeGroups, lowered. auto 10.
Qed.

End TimePatternSound.

(* ===================================================================== *)
(** ** The two time parsers on every text *)
(* ===================================================================== *)

Section TimeParsers.

Implicit Types (hours gap : jsstring) (minutes : option jsstring)
  (period : option Period) (tz now : Z).

Lemma isDigit_value (c : N) : isDigit c = true -> 0 <= Z.of_N c - 48 <= 9.
Proof.
  unfold isDigit. rewrite andb_true_iff, !N.leb_le. lia.
Qed.

Lemma parseDigits_hours hours :
  allDigits hours = true -> (length hours = 1 \/ length hours = 2)%nat ->
  0 <= parseDigits hours <= 99.
Proof.
  intros Hd Hlen.
  destruct hours as [|d1 [|d2 [|d3 hours]]]; cbn in Hlen; try lia;
    cbn in Hd; rewrite andb_true_r in Hd.
  - apply isDigit_value in Hd. cbn. lia.
  - apply andb_true_iff in Hd as [H1 H2].
    apply isDigit_value in H1, H2. cbn. lia.
Qed.

Lemma minutesOf_range minutes :
  match minutes with
  | Some m => allDigits m = true /\ length m = 2%nat
  | None => True
  end ->
  0 <= minutesOf minutes <= 99.
Proof.
  destruct minutes as [m|]; [|cbn; lia]. intros [Hd Hlen].
  destruct m as [|m1 [|m2 [|m3 m]]]; cbn in Hlen; try lia.
  cbn in Hd. rewrite andb_true_r in Hd. apply andb_true_iff in Hd as [H1 H2].
  apply isDigit_value in H1, H2. cbn. lia.
Qed.

Lemma hour24_range period (h : Z) : 0 <= h -> 0 <= hour24 period h <= h + 12.
Proof.
  intros Hh. destruct period as [[|]|]; cbn; try destruct (h =? 12); lia.
Qed.

(** What the two parsers read from a text the pattern accepts. *)
Lemma timePattern_reads (s : jsstring) (m : matched) :
  exec plain timePattern s = Some m ->
  exists hours minutes gap period,
    timeParts hours minutes gap
    /\ s = lowered hours minutes gap period
    /\ to24h (group m 3) (parseDigits (default [] (group m 1)))
       = hour24 period (parseDigits hours)
    /\ minutesOf (group m 2) = minutesOf minutes.
Proof.
  intros H. apply timePattern_sound in H
    as (hours & minutes & gap & period & Hh & Hlen & Hm & Hgap & Hs & Hg).
  exists hours, minutes, gap, period. destruct m as [whole g].
  cbn [groups] in Hg. subst g.
  assert (G1 : group (Matched whole (timeGroups hours minutes period)) 1
               = Some hours)
    by (destruct minutes, period; reflexivity).
  assert (G2 : group (Matched whole (timeGroups hours minutes period)) 2
               = minutes)
    by (destruct minutes, period; reflexivity).
  assert (G3 : group (Matched whole (timeGroups hours minutes period)) 3
               = periodText <$> period)
    by (destruct minutes, period; reflexivity).
  rewrite G1, G2, G3, to24h_hour24. cbn [from_option id].
  unfold timeParts. auto 10.
Qed.

Lemma startOfDay_bounds tz now :
  startOfDay tz now <= now < startOfDay tz now + msPerDay.
Proof.
  unfold startOfDay.
  assert (H : 0 <= (now + tz) mod msPerDay < msPerDay)
    by (apply Z.mod_pos_bound; reflexivity).
  lia.
Qed.

Lemma startOfDay_shift tz now (off : Z) :
  0 <= off < msPerDay ->
  startOfDay tz (startOfDay tz now + msPerDay + off)
  = startOfDay tz now + msPerDay.
Proof.
  intros Hoff. unfold startOfDay.
  assert (Hday : msPerDay <> 0) by discriminate.
  pose proof (Z.div_mod (now + tz) msPerDay Hday) as Hdm.
  replace (now - (now + tz) mod msPerDay + msPerDay + off + tz)
    with (off + ((now + tz) / msPerDay + 1) * msPerDay) by lia.
  rewrite Z.mod_add by exact Hday.
  rewrite (Z.mod_small off) by exact Hoff. lia.
Qed.

Lemma trimStart_head (s : jsstring) : headIs isWhiteSpace (trimStart s) = false.
Proof.
  induction s as [|c s IH]; [reflexivity|]. cbn [trimStart].
  destruct (isWhiteSpace c) eqn:E; [exact IH | exact E].
Qed.

Lemma trim_last (s : jsstring) : headIs isWhiteSpace (rev (trim s)) = false.
Proof. unfold trim. rewrite rev_involutive. apply trimStart_head. Qed.

(** A trimmed text that ends with the white space of a time text has none
    of it. *)
Lemma trimmed_gap (s front gap : jsstring) :
  forallb isWhiteSpace gap = true ->
  trim s = front ++ gap -> gap = [].
Proof.
  intros Hgap Hs. pose proof (trim_last s) as Hl. rewrite Hs in Hl.
  rewrite rev_app_distr in Hl.
  destruct (rev gap) as [|c r] eqn:E.
  - apply (f_equal (@rev N)) in E. now rewrite rev_involutive in E.
  - cbn in Hl.
    assert (Hin : In c gap) by (apply in_rev; rewrite E; now left).
    rewrite forallb_forall in Hgap. apply Hgap in Hin. congruence.
Qed.

Lemma lowered_isTimeForm hours minutes gap period (s : jsstring) :
  timeParts hours minutes gap ->
  trim s = lowered hours minutes gap period ->
  isTimeForm hours minutes gap (loweredPeriod period) period.
Proof.
  intros (Hh & Hlen & Hm & Hgap) Hs. repeat split; try assumption.
  destruct period as [[|]|]; [split; [exact Hgap | reflexivity] ..|].
  split; [|reflexivity].
  unfold lowered in Hs. cbn [loweredPeriod] in Hs.
  rewrite app_nil_r, app_assoc in Hs. exact (trimmed_gap s _ gap Hgap Hs).
Qed.

End TimeParsers.

Section TimeParsersOnForms.

Implicit Types (hours gap : jsstring) (minutes : option jsstring)
  (period : option Period) (tz now : Z).

(** On a text of the form, the pattern reads the hour and the minute of
    that form. *)
Lemma timePattern_reads_form hours minutes gap period (s : jsstring) :
  timeParts hours minutes gap ->
  trim s = lowered hours minutes gap period ->
  exists m,
    exec plain timePattern (lowered hours minutes gap period) = Some m
    /\ to24h (group m 3) (parseDigits (default [] (group m 1)))
       = hour24 period (parseDigits hours)
    /\ minutesOf (group m 2) = minutesOf minutes.
Proof.
  intros Hparts Hs.
  destruct (timePattern_matches (@lowered_isTimeForm hours minutes gap period s Hparts Hs))
    as [whole Hexec].
  exists (Matched whole (timeGroups hours minutes period)).
  split; [exact Hexec|].
  assert (G1 : group (Matched whole (timeGroups hours minutes period)) 1
               = Some hours)
    by (destruct minutes, period; reflexivity).
  assert (G2 : group (Matched whole (timeGroups hours minutes period)) 2
               = minutes)
    by (destruct minutes, period; reflexivity).
  assert (G3 : group (Matched whole (timeGroups hours minutes period)) 3
               = periodText <$> period)
    by (destruct minutes, period; reflexivity).
  rewrite G1, G2, G3, to24h_hour24. cbn [from_option id]. auto.
Qed.

End TimeParsersOnForms.

(** A deadline is after the instant it was computed at. *)
Lemma resetDeadline_after_now (tz now : Z) (timeStr : jsstring) (deadline : Z) :
  resetDeadline tz now timeStr = Some deadline -> now < deadline.
Proof.
  unfold resetDeadline.
  destruct (exec plain timePattern (trim (toLowerCase timeStr)))
    as [m|] eqn:E; [|discriminate].
  apply timePattern_reads in E
    as (hours & minutes & gap & period & (Hh & Hlen & Hm & _) & _ & -> & ->).
  pose proof (parseDigits_hours hours Hh Hlen) as Hhours.
  pose proof (hour24_range period (proj1 Hhours)) as H24.
  pose proof (minutesOf_range minutes Hm) as Hmin.
  pose proof (startOfDay_bounds tz now) as Hsod.
  cbv zeta. unfold setHours, addDay, msPerHour, msPerMinute in *.
  set (h := hour24 period (parseDigits hours)) in *.
  set (mi := minutesOf minutes) in *.
  destruct (Z.leb_spec (startOfDay tz now + h * (60 * (60 * 1000))
                        + mi * (60 * 1000)) now);
    intros Heq; injection Heq as <-; lia.
Qed.

(** X1.  Whatever the text, a deadline that [parseResetTime] returns is
    strictly after the current instant and at most five hours after it. *)
Theorem parseResetTime_within_window :
  forall (tz now : Z) (timeStr : jsstring) (resetTime : Z),
    parseResetTimeAt tz now timeStr = Some resetTime ->
    now < resetTime <= now + 5 * msPerHour.
Proof.
  intros tz now timeStr resetTime. unfold parseResetTimeAt.
  destruct (resetDeadline tz now timeStr) as [deadline|] eqn:E;
    [|discriminate].
  apply resetDeadline_after_now in E.
  destruct (Z.ltb_spec (5 * msPerHour) (deadline - now)) as [Hfar|Hnear];
    [discriminate|].
  intros Heq. injection Heq as <-. lia.
Qed.

Lemma parseResetTime_within_window_witness :
  let now := 100 * msPerDay + 15 * msPerHour in
  let resetTime := 100 * msPerDay + 15 * msPerHour + 45 * msPerMinute in
  now < resetTime <= now + 5 * msPerHour.
Proof.
  intros now resetTime.
  apply (parseResetTime_within_window 0 now (lit "3:45 PM")).
  vm_compute. reflexivity.
Defined.

(** X2.  Whatever the text and the hour of the day, an instant that
    [parseTimeToNextOccurrence] returns lies on the next local day, never on
    the current one, even when the time named is still ahead today: its day
    is the day after the one of the current instant, and it is after the
    current instant. *)
Theorem parseTimeToNextOccurrence_is_tomorrow :
  forall (tz now : Z) (timeStr : jsstring) (executeAt : Z),
    parseTimeToNextOccurrenceAt tz now timeStr = Some executeAt ->
    startOfDay tz executeAt = addDay (startOfDay tz now)
    /\ now < executeAt.
Proof.
  intros tz now timeStr executeAt. unfold parseTimeToNextOccurrenceAt.
  destruct (exec plain timePattern (trim (toLowerCase timeStr)))
    as [m|] eqn:E; [|discriminate].
  apply timePattern_reads in E
    as (hours & minutes & gap & period & _ & _ & -> & ->).
  cbv zeta.
  set (h := hour24 period (parseDigits hours)).
  set (mi := minutesOf minutes).
  destruct (Z.ltb_spec h 0), (Z.ltb_spec 23 h), (Z.ltb_spec mi 0),
    (Z.ltb_spec 59 mi); cbn [orb]; try discriminate.
  intros Heq. injection Heq as <-.
  pose proof (startOfDay_bounds tz now) as Hsod.
  unfold addDay, setHours.
  replace (startOfDay tz now + h * msPerHour + mi * msPerMinute + msPerDay)
    with (startOfDay tz now + msPerDay + (h * msPerHour + mi * msPerMinute))
    by lia.
  assert (Hoff : 0 <= h * msPerHour + mi * msPerMinute < msPerDay)
    by (unfold msPerDay, msPerHour, msPerMinute; lia).
  rewrite startOfDay_shift by exact Hoff.
  unfold msPerDay, msPerHour, msPerMinute in *. lia.
Qed.

Lemma parseTimeToNextOccurrence_is_tomorrow_witness :
  let now := 100 * msPerDay + 3 * msPerHour in
  let executeAt := 101 * msPerDay + 5 * msPerHour in
  startOfDay 0 executeAt = addDay (startOfDay 0 now)
  /\ now < executeAt.
Proof.
  intros now executeAt.
  apply (parseTimeToNextOccurrence_is_tomorrow 0 now (lit "5am")).
  vm_compute. reflexivity.
Defined.

(** X3.  [parseTimeToNextOccurrence] returns an instant exactly for the
    texts that, lower-cased and trimmed, are one or two digits, then
    optionally a colon and two digits, optional white space and an optional
    am or pm, with the hour after the 12-hour conversion at most 23 and the
    minute at most 59; the instant is that wall clock of the next day. *)
Theorem parseTimeToNextOccurrence_accepts :
  forall (tz now : Z) (timeStr : jsstring) (executeAt : Z),
    parseTimeToNextOccurrenceAt tz now timeStr = Some executeAt
    <-> exists hours minutes gap period,
          timeParts hours minutes gap
          /\ trim (toLowerCase timeStr) = lowered hours minutes gap period
          /\ hour24 period (parseDigits hours) <= 23
          /\ minutesOf minutes <= 59
          /\ executeAt
             = startOfDay tz now + msPerDay
               + hour24 period (parseDigits hours) * msPerHour
               + minutesOf minutes * msPerMinute.
Proof.
  intros tz now timeStr executeAt. unfold parseTimeToNextOccurrenceAt. split.
  - destruct (exec plain timePattern (trim (toLowerCase timeStr)))
      as [m|] eqn:E; [|discriminate].
    apply timePattern_reads in E
      as (hours & minutes & gap & period & Hparts & Hs & -> & ->).
    cbv zeta.
    destruct (Z.ltb_spec (hour24 period (parseDigits hours)) 0),
      (Z.ltb_spec 23 (hour24 period (parseDigits hours))),
      (Z.ltb_spec (minutesOf minutes) 0), (Z.ltb_spec 59 (minutesOf minutes));
      cbn [orb]; try discriminate.
    intros Heq. injection Heq as <-.
    exists hours, minutes, gap, period. unfold addDay, setHours.
    repeat split; try assumption; try apply Hparts; lia.
  - intros (hours & minutes & gap & period & Hparts & Hs & H23 & H59 & ->).
    destruct (@timePattern_reads_form hours minutes gap period _ Hparts Hs)
      as (m & Hexec & HH & HM).
    rewrite Hs, Hexec. cbv zeta. rewrite HH, HM.
    destruct Hparts as (Hh & Hlen & Hm & _).
    pose proof (parseDigits_hours hours Hh Hlen) as Hhours.
    pose proof (hour24_range period (proj1 Hhours)) as H24.
    pose proof (minutesOf_range minutes Hm) as Hmin.
    destruct (Z.ltb_spec (hour24 period (parseDigits hours)) 0),
      (Z.ltb_spec 23 (hour24 period (parseDigits hours))),
      (Z.ltb_spec (minutesOf minutes) 0), (Z.ltb_spec 59 (minutesOf minutes));
      cbn [orb]; try lia.
    unfold addDay, setHours. f_equal. lia.
Qed.

(** X4.  [parseResetTime] returns a deadline exactly for the texts of the
    same form whose wall clock, today when still ahead and tomorrow
    otherwise, is at most five hours away; every other text gives null. *)
Theorem parseResetTime_accepts :
  forall (tz now : Z) (timeStr : jsstring) (resetTime : Z),
    parseResetTimeAt tz now timeStr = Some resetTime
    <-> exists hours minutes gap period,
          timeParts hours minutes gap
          /\ trim (toLowerCase timeStr) = lowered hours minutes gap period
          /\ resetTime
             = wallClockDeadline tz now (hour24 period (parseDigits hours))
                 (minutesOf minutes)
          /\ resetTime - now <= 5 * msPerHour.
Proof.
  intros tz now timeStr resetTime. unfold parseResetTimeAt, resetDeadline.
  assert (Hwall : forall h mi,
             (if setHours tz now h mi <=? now
              then addDay (setHours tz now h mi) else setHours tz now h mi)
             = wallClockDeadline tz now h mi).
  { intros h mi. unfold wallClockDeadline, todayAt, addDay, setHours.
    destruct (Z.leb_spec (startOfDay tz now + h * msPerHour + mi * msPerMinute)
                now),
      (Z.ltb_spec now (startOfDay tz now + h * msPerHour + mi * msPerMinute));
      try reflexivity; lia. }
  split.
  - destruct (exec plain timePattern (trim (toLowerCase timeStr)))
      as [m|] eqn:E; [|discriminate].
    apply timePattern_reads in E
      as (hours & minutes & gap & period & Hparts & Hs & -> & ->).
    cbv zeta. rewrite Hwall.
    match goal with
    | |- context [?a <? ?b] => destruct (Z.ltb_spec a b)
    end; [discriminate|].
    intros Heq. injection Heq as <-.
    exists hours, minutes, gap, period. auto.
  - intros (hours & minutes & gap & period & Hparts & Hs & -> & Hcap).
    destruct (@timePattern_reads_form hours minutes gap period _ Hparts Hs)
      as (m & Hexec & HH & HM).
    rewrite Hs, Hexec. cbv zeta. rewrite HH, HM, Hwall.
    match goal with
    | |- context [?a <? ?b] => destruct (Z.ltb_spec a b)
    end; [lia | reflexivity].
Qed.

(* ===================================================================== *)
(** ** The reset time found in a limit message *)
(* ===================================================================== *)

(** Boolean comparisons of code units in the hypotheses, as propositions. *)
Ltac code_units :=
  repeat match goal with
  | H : _ && _ = true |- _ => apply andb_true_iff in H as [? ?]
  | H : _ && _ = false |- _ => apply andb_false_iff in H as [H|H]
  | H : (_ <=? _)%N = true |- _ => apply N.leb_le in H
  | H : (_ <=? _)%N = false |- _ => apply N.leb_gt in H
  end.

Section ExtractResetTime.

Implicit Types (k : mstate -> option mstate) (pre rest tail : jsstring)
  (caps : list (nat * jsstring)) (x y : mstate)
  (hours gap letters : jsstring) (minutes : option jsstring)
  (period : option Period).

Lemma searchFrom_inv (fl : flags) (r : regex) : forall rest pre from y,
  searchFrom fl r pre rest = Some (from, y) ->
  exists pre', rmatch fl r Some (MS pre' from []) = Some y.
Proof.
  induction rest as [|c rest IH]; intros pre from y; cbn [searchFrom];
    destruct (rmatch fl r Some (MS pre _ [])) as [z|] eqn:E;
    intros H; try discriminate.
  - injection H as <- <-. now exists pre.
  - injection H as <- <-. now exists pre.
  - now apply IH in H.
Qed.

Lemma inClass_i_digit (c : N) :
  inClass flag_i isDigit c = true -> isDigit c = true.
Proof.
  unfold inClass, flag_i, ignoreCase, isDigit, upperChar, lowerChar,
    isLowerAscii, isUpperAscii.
  destruct ((97 <=? c) && (c <=? 122))%N eqn:El,
    ((65 <=? c) && (c <=? 90))%N eqn:Eu; code_units;
    rewrite !orb_true_iff, !andb_true_iff, !N.leb_le; lia.
Qed.

Lemma inClass_i_space (c : N) :
  inClass flag_i isWhiteSpace c = true -> isWhiteSpace c = true.
Proof.
  assert (Hu : isWhiteSpace (upperChar c) = true -> isWhiteSpace c = true).
  { unfold upperChar, isLowerAscii.
    destruct ((97 <=? c) && (c <=? 122))%N eqn:El; [|auto]. code_units.
    unfold isWhiteSpace at 1.
    rewrite !orb_true_iff, !andb_true_iff, !N.leb_le, !N.eqb_eq. lia. }
  assert (Hl : isWhiteSpace (lowerChar c) = true -> isWhiteSpace c = true).
  { unfold lowerChar, isUpperAscii.
    destruct ((65 <=? c) && (c <=? 90))%N eqn:El; [|auto]. code_units.
    unfold isWhiteSpace at 1.
    rewrite !orb_true_iff, !andb_true_iff, !N.leb_le, !N.eqb_eq. lia. }
  unfold inClass, flag_i, ignoreCase.
  destruct (isWhiteSpace c), (isWhiteSpace (upperChar c)),
    (isWhiteSpace (lowerChar c)); auto.
Qed.

Lemma canonicalize_i_colon (c : N) :
  canonicalize flag_i c = canonicalize flag_i 58 -> c = 58%N.
Proof.
  unfold canonicalize, flag_i, ignoreCase, upperChar, isLowerAscii.
  destruct ((97 <=? c) && (c <=? 122))%N eqn:El; code_units; cbn; lia.
Qed.

(** A code unit equal to a letter up to case lower-cases to that letter. *)
Lemma canonicalize_i_letter (c l : N) :
  isLowerAscii l = true ->
  canonicalize flag_i c = canonicalize flag_i l -> lowerChar c = l.
Proof.
  unfold canonicalize, flag_i, ignoreCase, upperChar, lowerChar, isLowerAscii,
    isUpperAscii.
  intros Hl. rewrite Hl.
  destruct ((97 <=? c) && (c <=? 122))%N eqn:El,
    ((65 <=? c) && (c <=? 90))%N eqn:Eu; code_units; lia.
Qed.

Lemma rmatch_digit_i_inv k x y :
  rmatch flag_i digit k x = Some y ->
  exists c tl, remaining x = c :: tl /\ isDigit c = true
               /\ k (step x c tl) = Some y.
Proof.
  intros H. apply rmatch_class_inv in H as (c & tl & Hr & Hc & Hk).
  exists c, tl. cbn [xorb] in Hc. auto using inClass_i_digit.
Qed.

(** am or pm in any letter case, or nothing. *)
Lemma letters_inv k pre rest caps y :
  rmatch flag_i (RSeq (ROpt (RAlt (RStr "am") (RStr "pm"))) REmpty) k
    (MS pre rest caps) = Some y ->
  exists letters period tail pre',
    match period with
    | Some p => toLowerCase letters = periodText p
    | None => letters = []
    end
    /\ rest = letters ++ tail
    /\ k (MS pre' tail caps) = Some y.
Proof.
  rewrite rmatch_seq. unfold ROpt. intros H.
  assert (Hlit : forall (l1 l2 : N),
             isLowerAscii l1 = true -> isLowerAscii l2 = true ->
             rmatch flag_i
               (fold_right (fun c r => RSeq (RChar c) r) REmpty [l1; l2])
               (rmatch flag_i REmpty k) (MS pre rest caps) = Some y ->
             exists letters tail pre',
               toLowerCase letters = [l1; l2]
               /\ rest = letters ++ tail
               /\ k (MS pre' tail caps) = Some y).
  { intros l1 l2 H1 H2 Hl.
    apply rmatch_literal_inv in Hl as (got & tail & Hr & Hlen & Hcan & Hk).
    cbn [remaining consumed captures] in *.
    destruct got as [|c1 [|c2 [|c3 got]]]; cbn in Hlen; try lia.
    cbn [map] in Hcan. injection Hcan as E1 E2.
    apply canonicalize_i_letter in E1, E2; try assumption.
    exists [c1; c2], tail, (rev [c1; c2] ++ pre). cbn [toLowerCase map].
    rewrite E1, E2. auto. }
  apply rmatch_alt_inv in H as [H|H].
  - apply rmatch_alt_inv in H as [H|H];
      apply Hlit in H as (letters & tail & pre' & Hl & Hr & Hk);
      try reflexivity.
    + exists letters, (Some AM), tail, pre'. auto.
    + exists letters, (Some PM), tail, pre'. auto.
  - exists [], None, rest, pre. auto.
Qed.

(** The whole time text of the four patterns. *)
Lemma timeText_inv k pre rest caps y :
  rmatch flag_i timeText k (MS pre rest caps) = Some y ->
  exists hours minutes gap letters period tail pre',
    timeParts hours minutes gap
    /\ match period with
       | Some p => toLowerCase letters = periodText p
       | None => letters = []
       end
    /\ rest = (hours ++ minutesText minutes ++ gap ++ letters) ++ tail
    /\ k (MS pre' tail caps) = Some y.
Proof.
  unfold timeText. cbn [RSeqs]. intros H.
  assert (Hend : forall pre1 rest1,
             rmatch flag_i
               (RSeq (RStar space)
                  (RSeq (ROpt (RAlt (RStr "am") (RStr "pm"))) REmpty)) k
               (MS pre1 rest1 caps) = Some y ->
             exists gap letters period tail pre',
               forallb isWhiteSpace gap = true
               /\ match period with
                  | Some p => toLowerCase letters = periodText p
                  | None => letters = []
                  end
               /\ rest1 = gap ++ letters ++ tail
               /\ k (MS pre' tail caps) = Some y).
  { intros pre1 rest1 Hs. rewrite rmatch_seq in Hs.
    apply rmatch_star_class_inv in Hs as (gap & rest2 & Hr & Hgap & Hs).
    cbn [remaining consumed captures] in *. subst rest1.
    apply letters_inv in Hs as (letters & period & tail & pre' & Hp & -> & Hk).
    exists gap, letters, period, tail, pre'. repeat split; try assumption.
    apply forallb_forall. intros c Hc.
    rewrite forallb_forall in Hgap. apply Hgap in Hc. cbn [xorb] in Hc.
    now apply inClass_i_space. }
  assert (Hmin : forall pre1 rest1,
             rmatch flag_i
               (RSeq (ROpt (RSeq (RStr ":") (RSeq digit (RSeq digit REmpty))))
                  (RSeq (RStar space)
                     (RSeq (ROpt (RAlt (RStr "am") (RStr "pm"))) REmpty))) k
               (MS pre1 rest1 caps) = Some y ->
             exists minutes gap letters period tail pre',
               match minutes with
               | Some m => allDigits m = true /\ length m = 2%nat
               | None => True
               end
               /\ forallb isWhiteSpace gap = true
               /\ match period with
                  | Some p => toLowerCase letters = periodText p
                  | None => letters = []
                  end
               /\ rest1 = minutesText minutes ++ gap ++ letters ++ tail
               /\ k (MS pre' tail caps) = Some y).
  { intros pre1 rest1 Hs. rewrite rmatch_seq in Hs. unfold ROpt at 1 in Hs.
    apply rmatch_alt_inv in Hs as [Hs|Hs].
    - change (RStr ":") with (RSeq (RChar 58%N) REmpty) in Hs.
      rewrite !rmatch_seq in Hs.
      apply rmatch_char_inv in Hs as (ch & tl & Hr & Hc & Hs).
      apply canonicalize_i_colon in Hc. subst ch.
      rewrite rmatch_empty in Hs.
      apply rmatch_digit_i_inv in Hs as (m1 & tl1 & Hr1 & H1 & Hs).
      apply rmatch_digit_i_inv in Hs as (m2 & tl2 & Hr2 & H2 & Hs).
      unfold step in *. cbn [remaining consumed captures] in *.
      subst rest1 tl tl1.
      apply Hend in Hs
        as (gap & letters & period & tail & pre' & Hg & Hp & -> & Hk).
      exists (Some [m1; m2]), gap, letters, period, tail, pre'.
      cbn [allDigits forallb length]. rewrite H1, H2. auto 10.
    - rewrite rmatch_empty in Hs.
      apply Hend in Hs
        as (gap & letters & period & tail & pre' & Hg & Hp & -> & Hk).
      exists None, gap, letters, period, tail, pre'. auto 10. }
  rewrite rmatch_seq in H.
  apply rmatch_digit_i_inv in H as (d1 & tl & Hr & H1 & H).
  rewrite rmatch_seq in H. unfold ROpt at 1 in H.
  unfold step in *. cbn [remaining consumed captures] in *. subst rest.
  apply rmatch_alt_inv in H as [H|H].
  - apply rmatch_digit_i_inv in H as (d2 & tl2 & Hr & H2 & H).
    unfold step in *. cbn [remaining consumed captures] in *. subst tl.
    apply Hmin in H
      as (minutes & gap & letters & period & tail & pre' & Hm & Hg & Hp & ->
          & Hk).
    exists [d1; d2], minutes, gap, letters, period, tail, pre'.
    unfold timeParts. cbn [allDigits forallb length]. rewrite H1, H2.
    repeat split; auto. cbn [app]. now rewrite <- !app_assoc.
  - rewrite rmatch_empty in H.
    apply Hmin in H
      as (minutes & gap & letters & period & tail & pre' & Hm & Hg & Hp & ->
          & Hk).
    exists [d1], minutes, gap, letters, period, tail, pre'.
    unfold timeParts. cbn [allDigits forallb length]. rewrite H1.
    repeat split; auto. cbn [app]. now rewrite <- !app_assoc.
Qed.

End ExtractResetTime.

Section ExtractedTime.

Implicit Types (hours gap letters : jsstring) (minutes : option jsstring)
  (period : option Period).

(** What one of the four patterns captures. *)
Lemma timePatterns_capture (prefix : string) (output : jsstring) (m : matched) :
  exec flag_i (RSeq (RStr prefix) (RGroup 1 timeText)) output = Some m ->
  exists hours minutes gap letters period,
    timeParts hours minutes gap
    /\ match period with
       | Some p => toLowerCase letters = periodText p
       | None => letters = []
       end
    /\ group m 1 = Some (hours ++ minutesText minutes ++ gap ++ letters).
Proof.
  unfold exec.
  destruct (searchFrom flag_i _ [] output) as [[from y]|] eqn:E;
    [|discriminate].
  intros H. injection H as <-.
  apply searchFrom_inv in E as [pre E].
  rewrite rmatch_seq in E. unfold RStr in E.
  apply rmatch_literal_inv in E as (got & rest & _ & _ & _ & E).
  cbn [consumed captures] in E. rewrite rmatch_group in E.
  apply timeText_inv in E
    as (hours & minutes & gap & letters & period & tail & pre' & Hparts & Hp
        & -> & E).
  rewrite capture_app in E. injection E as <-.
  exists hours, minutes, gap, letters, period. auto.
Qed.

Lemma trimStart_spaces (gap rest : jsstring) :
  forallb isWhiteSpace gap = true -> trimStart (gap ++ rest) = trimStart rest.
Proof.
  induction gap as [|c gap IH]; [reflexivity|]. cbn [forallb app trimStart].
  intros H. apply andb_true_iff in H as [-> H]. auto.
Qed.

Lemma trim_trailing (front gap : jsstring) :
  headIs isWhiteSpace front = false ->
  headIs isWhiteSpace (rev front) = false ->
  forallb isWhiteSpace gap = true ->
  front <> [] ->
  trim (front ++ gap) = front.
Proof.
  intros H1 H2 Hgap Hne. unfold trim.
  rewrite (trimStart_fixed (front ++ gap))
    by (destruct front; [congruence | exact H1]).
  rewrite rev_app_distr, trimStart_spaces
    by (rewrite forallb_forall in *; intros c Hc; apply Hgap;
        now apply in_rev).
  now rewrite (trimStart_fixed _ H2), rev_involutive.
Qed.

Lemma letter_m_not_space (c : N) :
  lowerChar c = 109%N -> isWhiteSpace c = false.
Proof.
  unfold lowerChar, isUpperAscii. intros H.
  destruct (isWhiteSpace c) eqn:E; [|reflexivity]. exfalso. revert E.
  unfold isWhiteSpace.
  rewrite !orb_true_iff, !andb_true_iff, !N.leb_le, !N.eqb_eq.
  destruct ((65 <=? c) && (c <=? 90))%N eqn:Eu; code_units; lia.
Qed.

(** The front of a time text, hours and minutes, begins and ends with a
    digit. *)
Lemma front_digits hours minutes :
  allDigits hours = true -> (length hours = 1 \/ length hours = 2)%nat ->
  match minutes with
  | Some m => allDigits m = true /\ length m = 2%nat
  | None => True
  end ->
  headIs isWhiteSpace (hours ++ minutesText minutes) = false
  /\ headIs isWhiteSpace (rev (hours ++ minutesText minutes)) = false
  /\ hours ++ minutesText minutes <> [].
Proof.
  intros Hh Hlen Hm.
  assert (Hlast : forall d, isDigit d = true ->
            headIs isWhiteSpace (rev (minutesText minutes) ++ [d]) = false).
  { intros d Hd. destruct minutes as [m|]; [|cbn; now apply digit_not_space].
    destruct Hm as [Hmd Hml].
    destruct m as [|m1 [|m2 [|m3 m]]]; cbn in Hml; try lia.
    unfold allDigits in Hmd. cbn [forallb] in Hmd.
    rewrite andb_true_r in Hmd. apply andb_true_iff in Hmd as [_ Hm2].
    unfold minutesText. change (lit ":") with [58%N]. cbn.
    now apply digit_not_space. }
  unfold allDigits in Hh.
  destruct hours as [|d1 [|d2 [|d3 hours]]]; cbn in Hlen; try lia;
    cbn [forallb] in Hh; rewrite andb_true_r in Hh.
  - repeat split; try discriminate.
    + cbn. now apply digit_not_space.
    + rewrite rev_app_distr. cbn [rev app]. now apply Hlast.
  - apply andb_true_iff in Hh as [Hd1 Hd2]. repeat split; try discriminate.
    + cbn. now apply digit_not_space.
    + rewrite rev_app_distr. cbn [rev app].
      change [d2; d1] with ([d2] ++ [d1]). rewrite app_assoc, headIs_app.
      pose proof (Hlast d2 Hd2) as Hl.
      destruct (rev (minutesText minutes) ++ [d2]) as [|c l] eqn:E;
        [|exact Hl].
      apply (f_equal (@length N)) in E. rewrite length_app in E. cbn in E. lia.
Qed.

Lemma timeForm_parts hours minutes gap letters :
  timeForm hours minutes gap letters
  = hours ++ minutesText minutes ++ gap ++ letters.
Proof. reflexivity. Qed.

(** The captured text, once trimmed, is a text of the time form. *)
Lemma captured_time_form hours minutes gap letters period :
  timeParts hours minutes gap ->
  match period with
  | Some p => toLowerCase letters = periodText p
  | None => letters = []
  end ->
  exists gap',
    isTimeForm hours minutes gap' letters period
    /\ trim (hours ++ minutesText minutes ++ gap ++ letters)
       = timeForm hours minutes gap' letters.
Proof.
  intros (Hh & Hlen & Hm & Hgap) Hp.
  destruct (front_digits hours minutes Hh Hlen Hm) as (F1 & F2 & F3).
  destruct period as [p|].
  - exists gap. split; [repeat split; assumption|].
    rewrite timeForm_parts. apply trim_fixed.
    + rewrite app_assoc, headIs_app.
      destruct (hours ++ minutesText minutes); [congruence | exact F1].
    + assert (Hl : exists c1 c2, letters = [c1; c2] /\ lowerChar c2 = 109%N).
      { destruct letters as [|c1 [|c2 [|c3 letters]]];
          destruct p; try discriminate Hp;
          injection Hp as E1 E2; now exists c1, c2. }
      destruct Hl as (c1 & c2 & -> & Hc2).
      rewrite !rev_app_distr. cbn. now apply letter_m_not_space.
  - subst letters. exists []. split; [repeat split; assumption|].
    rewrite timeForm_parts, !app_nil_r, app_assoc.
    now apply trim_trailing.
Qed.

Lemma firstTime_time_form (ps : list (string)) (output timeStr : jsstring) :
  firstTime (map (fun prefix => RSeq (RStr prefix) (RGroup 1 timeText)) ps)
    output = Some timeStr ->
  exists hours minutes gap letters period,
    isTimeForm hours minutes gap letters period
    /\ timeStr = timeForm hours minutes gap letters.
Proof.
  induction ps as [|prefix ps IH]; cbn [map firstTime]; [discriminate|].
  destruct (exec flag_i _ output) as [m|] eqn:E; [|exact IH].
  intros H. injection H as <-.
  apply timePatterns_capture in E
    as (hours & minutes & gap & letters & period & Hparts & Hp & ->).
  cbn [from_option id default].
  destruct (captured_time_form letters period Hparts Hp) as (gap' & Hf & Ht).
  exists hours, minutes, gap', letters, period. auto.
Qed.

(** The deadline of a text of the time form. *)
Lemma resetDeadline_time_form (tz now : Z) hours minutes gap letters period :
  isTimeForm hours minutes gap letters period ->
  resetDeadline tz now (timeForm hours minutes gap letters)
  = Some (wallClockDeadline tz now (hour24 period (parseDigits hours))
            (minutesOf minutes)).
Proof.
  intros Hform. pose proof (normalised Hform) as Hn.
  assert (Hparts : timeParts hours minutes gap).
  { destruct Hform as (Hh & Hlen & Hm & Hp). repeat split; try assumption.
    destruct period; [apply Hp|]. destruct Hp as [-> _]. reflexivity. }
  assert (Hn' : trim (toLowerCase (timeForm hours minutes gap letters))
                = lowered hours minutes gap period) by exact Hn.
  destruct (@timePattern_reads_form hours minutes gap period _ Hparts Hn')
    as (m & Hexec & HH & HM).
  unfold resetDeadline. rewrite Hn, Hexec. cbv zeta. rewrite HH, HM.
  f_equal. unfold wallClockDeadline, todayAt, addDay, setHours.
  match goal with
  | |- context [?a <=? now] =>
      destruct (Z.leb_spec a now), (Z.ltb_spec now a)
  end; try reflexivity; lia.
Qed.

End ExtractedTime.

(** X5.  A reset time that [extractResetTime] finds in a limit message is
    always a text that [parseResetTime] can read: one or two digits, then
    optionally a colon and two digits, then optionally am or pm in any letter
    case.  Its deadline is the wall clock of that time, so when no deadline
    is returned for it the five-hour check is the reason. *)
Theorem extractResetTime_is_readable :
  forall (output timeStr : jsstring),
    extractResetTime output = Some timeStr ->
    exists hours minutes gap letters period,
      isTimeForm hours minutes gap letters period
      /\ timeStr = timeForm hours minutes gap letters
      /\ forall tz now,
           resetDeadline tz now timeStr
           = Some (wallClockDeadline tz now
                     (hour24 period (parseDigits hours)) (minutesOf minutes)).
Proof.
  intros output timeStr H.
  unfold extractResetTime in H.
  change timePatterns
    with (map (fun prefix => RSeq (RStr prefix) (RGroup 1 timeText))
            ["resets "; "resets at "; "available again at "; "ready at "]%string)
    in H.
  apply firstTime_time_form in H
    as (hours & minutes & gap & letters & period & Hform & ->).
  exists hours, minutes, gap, letters, period.
  split; [exact Hform|]. split; [reflexivity|].
  intros tz now. now apply resetDeadline_time_form.
Qed.

Lemma extractResetTime_is_readable_witness :
  exists hours minutes gap letters period,
    isTimeForm hours minutes gap letters period
    /\ lit "3:45 PM" = timeForm hours minutes gap letters
    /\ forall tz now,
         resetDeadline tz now (lit "3:45 PM")
         = Some (wallClockDeadline tz now
                   (hour24 period (parseDigits hours)) (minutesOf minutes)).
Proof.
  apply (extractResetTime_is_readable
           (lit "5-hour limit reached. Your limit resets at 3:45 PM today")).
  vm_compute. reflexivity.
Defined.

(* ===================================================================== *)
(** ** Relations kept by the methods *)
(* ===================================================================== *)

Section Framed.

Context {W : Type} (col : Collaborators W).
Context (R : Machine W -> Machine W -> Prop) (okCall : Call -> bool)
  (okField : jsstring -> (SessionState.t -> SessionState.t) -> Prop).
Hypothesis F : Framing R okCall okField.

Lemma framed_ret {A} (a : A) : keeps R (ret a).
Proof. apply keeps_ret, F. Qed.

Lemma framed_throw {A} (e : jsstring) : keeps R (@throw W A e).
Proof. apply keeps_throw, F. Qed.

Lemma framed_bind {A B} (m : M A) (k : A -> M B) :
  keeps R m -> (forall a, keeps R (k a)) -> keeps R (bind m k).
Proof. apply keeps_bind, F. Qed.

Lemma framed_tryCatch {A} (m : M A) (h : jsstring -> M A) :
  keeps R m -> (forall e, keeps R (h e)) -> keeps R (tryCatch m h).
Proof. apply keeps_tryCatch, F. Qed.

Lemma framed_call {A} (c : Call) (op : W -> result A * W) :
  okCall c = true -> keeps R (call c op).
Proof.
  exact (@keeps_call W R okCall (framing_trans F) (framing_world F)
           (framing_record F) A c op).
Qed.

Lemma framed_now : keeps R (now col).
Proof. apply keeps_now, F. Qed.

Lemma framed_sleep (ms : Z) :
  okCall (Sleep ms) = true -> keeps R (sleep col ms).
Proof.
  exact (@keeps_sleep W col R okCall (framing_trans F) (framing_world F)
           (framing_record F) ms).
Qed.

Lemma framed_emit (e : MonitorEvent.t) :
  okCall (Emit e) = true -> keeps R (@emit W e).
Proof. exact (@keeps_emit W R okCall (framing_record F) e). Qed.

Lemma framed_getState (sid : jsstring) : keeps R (@getState W sid).
Proof. apply keeps_getState, F. Qed.

Lemma framed_getOptions : keeps R (@getOptions W).
Proof. apply keeps_getOptions, F. Qed.

Lemma framed_safeNotifyDiscord (sid : jsstring) (n : Notification.t) :
  okCall (SendNotification sid n) = true ->
  keeps R (safeNotifyDiscord col sid n).
Proof.
  exact (@keeps_safeNotifyDiscord W col R okCall (framing_refl F)
           (framing_trans F) (framing_world F) (framing_record F) sid n).
Qed.

Lemma framed_sessionNameOf (sid : jsstring) :
  okCall (GetSession sid) = true -> keeps R (sessionNameOf col sid).
Proof.
  exact (@keeps_sessionNameOf W col R okCall (framing_refl F)
           (framing_trans F) (framing_world F) (framing_record F) sid).
Qed.

Lemma framed_modifyState (sid : jsstring)
    (f : SessionState.t -> SessionState.t) :
  okField sid f -> keeps R (modifyState sid f).
Proof. intros Hf s. now apply (framing_modify F). Qed.

End Framed.

(** Splitting a method along its binds, branches and primitive steps, for a
    relation with the framing [F]; [field] proves that an assignment is
    accepted. *)
Ltac framed_step F field :=
  first
    [ progress cbv zeta
    | apply (framed_ret F) | apply (framed_now _ F)
    | apply (framed_getState F) | apply (framed_getOptions F)
    | apply (framed_sleep _ F); reflexivity
    | apply (framed_safeNotifyDiscord _ F); reflexivity
    | apply (framed_sessionNameOf _ F); reflexivity
    | apply (framed_call F); reflexivity
    | apply (framed_emit F); reflexivity
    | apply (framed_modifyState F); field
    | apply (framed_bind F); [|intros ?]
    | apply (framed_tryCatch F); [|intros ?]
    | match goal with
      | |- keeps _ (match ?x with _ => _ end) => destruct x
      | |- keeps _ (if ?b then _ else _) => destruct b
      end ].

Tactic Notation "framed" constr(F) "by" tactic(field) "using" tactic(known) :=
  repeat first [known | framed_step F field].

(* ===================================================================== *)
(** ** One session does not disturb another *)
(* ===================================================================== *)

Section Isolation.

Context {W : Type} (col : Collaborators W) (sessionId : jsstring).

Lemma others_framing :
  Framing (@others W sessionId) anyCall (onSession sessionId).
Proof.
  split.
  - intros s. split; [reflexivity | intros; split; reflexivity].
  - intros a b c [Ho1 H1] [Ho2 H2]. split; [congruence|].
    intros other Hne. destruct (H1 other Hne), (H2 other Hne).
    split; congruence.
  - intros w s. split; [reflexivity | intros; split; reflexivity].
  - intros c s _. split; [reflexivity | intros; split; reflexivity].
  - intros sid f s ->. split; [reflexivity|]. intros other Hne.
    cbn [sessionStates monitoringIntervals withStates].
    split; [|reflexivity]. now rewrite lookup_alter_ne.
Qed.

#[local] Abbreviation apart := (keeps (@others W sessionId)).

#[local] Tactic Notation "apart_auto" tactic(known) :=
  framed others_framing by (reflexivity) using known.

Lemma apart_stopMonitoring : apart (@stopMonitoring W sessionId).
Proof.
  intros s. unfold stopMonitoring.
  destruct (monitoringIntervals s !! sessionId) as [interval|];
    (split; [reflexivity|]); intros other Hne;
    cbn [sessionStates monitoringIntervals withStates withIntervals record snd];
    rewrite ?lookup_delete_ne by congruence; split; reflexivity.
Qed.

Lemma apart_startMonitoring : apart (startMonitoring col sessionId).
Proof.
  unfold startMonitoring.
  apply (framed_bind others_framing);
    [apply (framed_call others_framing); reflexivity|].
  intros [session|]; [|apply (framed_throw others_framing)].
  intros s. unfold bind, now. destruct (clock col (world s)) as [t w].
  split; [reflexivity|]. intros other Hne.
  cbn [sessionStates monitoringIntervals withStates withIntervals record
       withWorld snd].
  rewrite !lookup_insert_ne by congruence. split; reflexivity.
Qed.

Lemma apart_handlePollingError e : apart (handlePollingError col sessionId e).
Proof.
  unfold handlePollingError. apart_auto (apply apart_stopMonitoring).
Qed.

Lemma apart_handleTaskCompletion output idleMs :
  apart (handleTaskCompletion col sessionId output idleMs).
Proof. unfold handleTaskCompletion. apart_auto fail. Qed.

Lemma apart_checkTaskCompletion output :
  apart (checkTaskCompletion col sessionId output).
Proof.
  unfold checkTaskCompletion. apart_auto (apply apart_handleTaskCompletion).
Qed.

Lemma apart_handleApprovalRequest output :
  apart (handleApprovalRequest col sessionId output).
Proof. unfold handleApprovalRequest. apart_auto fail. Qed.

Lemma apart_tryImmediateContinuation output :
  apart (tryImmediateContinuation col sessionId output).
Proof. unfold tryImmediateContinuation. apart_auto fail. Qed.

Lemma apart_scheduleAndNotify output :
  apart (scheduleAndNotify col sessionId output).
Proof. unfold scheduleAndNotify. apart_auto fail. Qed.

Lemma apart_handleLimitDetected output :
  apart (handleLimitDetected col sessionId output).
Proof.
  unfold handleLimitDetected.
  apart_auto (first [apply apart_tryImmediateContinuation
                    | apply apart_scheduleAndNotify]).
Qed.

Lemma apart_performAutoContinuation :
  apart (performAutoContinuation col sessionId).
Proof. unfold performAutoContinuation. apart_auto fail. Qed.

Lemma apart_executeQuotaSchedule q :
  apart (executeQuotaSchedule col sessionId q).
Proof. unfold executeQuotaSchedule. apart_auto fail. Qed.

Lemma apart_detectApproval output : apart (detectApproval col sessionId output).
Proof.
  unfold detectApproval. apart_auto (apply apart_handleApprovalRequest).
Qed.

Lemma apart_detectPatterns output : apart (detectPatterns col sessionId output).
Proof.
  unfold detectPatterns.
  apart_auto (first [apply apart_handleLimitDetected
                    | apply apart_detectApproval]).
Qed.

Lemma apart_analyzeOutput output : apart (analyzeOutput col sessionId output).
Proof.
  unfold analyzeOutput.
  apart_auto (first [apply apart_detectPatterns
                    | apply apart_checkTaskCompletion]).
Qed.

Lemma apart_quotaGate session : apart (quotaGate col sessionId session).
Proof.
  unfold quotaGate. apart_auto (apply apart_executeQuotaSchedule).
Qed.

Lemma apart_pollSession : apart (pollSession col sessionId).
Proof.
  unfold pollSession, pollCycle, handleSessionEnded.
  apart_auto (first [apply apart_stopMonitoring
                    | apply apart_handlePollingError
                    | apply apart_performAutoContinuation
                    | apply apart_quotaGate
                    | apply apart_analyzeOutput]).
Qed.

End Isolation.

(** X6.  Starting, polling and stopping one session leave every other
    session as it is: its runtime state and its interval are the same
    afterwards, and so are the options of the monitor, whatever the
    collaborators answer and whether the operation ends with an error or
    not. *)
Theorem operations_leave_other_sessions :
  forall W (col : Collaborators W) (sessionId other : jsstring)
         (s : Machine W),
    other <> sessionId ->
    forall s',
      s' = snd (pollSession col sessionId s)
      \/ s' = snd (startMonitoring col sessionId s)
      \/ s' = snd (stopMonitoring sessionId s) ->
      sessionStates s' !! other = sessionStates s !! other
      /\ monitoringIntervals s' !! other = monitoringIntervals s !! other
      /\ options s' = options s.
Proof.
  intros W col sessionId other s Hne s' Hs'.
  assert (H : others sessionId s s').
  { destruct Hs' as [-> | [-> | ->]].
    - apply apart_pollSession.
    - apply apart_startMonitoring.
    - apply apart_stopMonitoring. }
  destruct H as [Ho H]. destruct (H other Hne). auto.
Qed.

Lemma operations_leave_other_sessions_witness :
  let other := lit "ccremote-2" in
  let s :=
    withStates
      (<[other := initialState 5]> {[ Mock.sessionId := initialState 0 ]})
      (Mock.watching (initialState 0)
         (Mock.worldAt 60000 [Fixtures.proceed] [])) in
  let s' := snd (pollSession Mock.collaborators Mock.sessionId s) in
  sessionStates s' !! other = sessionStates s !! other
  /\ monitoringIntervals s' !! other = monitoringIntervals s !! other
  /\ options s' = options s.
Proof.
  intros other s s'.
  apply (@operations_leave_other_sessions _ Mock.collaborators Mock.sessionId
           other s).
  - vm_compute. discriminate.
  - left. reflexivity.
Defined.

(* ===================================================================== *)
(** ** A session that awaits its continuation *)
(* ===================================================================== *)

Section Waiting.

Context {W : Type} (col : Collaborators W) (sessionId : jsstring)
  (scheduled : option Z).

Lemma waiting_framing :
  Framing (@staysWaiting W sessionId scheduled) calm besideWaiting.
Proof.
  split.
  - intros s H. split; [exact H | now exists []].
  - intros a b c Hab Hbc Ha. destruct (Hab Ha) as (Hb & n1 & T1 & C1).
    destruct (Hbc Hb) as (Hc & n2 & T2 & C2). split; [exact Hc|].
    exists (n2 ++ n1). rewrite T2, T1, app_assoc, forallb_app, C1, C2. auto.
  - intros w s H. split; [exact H | now exists []].
  - intros c s Hc H. split; [exact H|]. exists [c]. cbn. now rewrite Hc.
  - intros sid f s Hf H. split; [|now exists []].
    unfold waitingOn in *. cbn [sessionStates withStates].
    rewrite lookup_alter. destruct (decide (sid = sessionId)) as [->|];
      [|exact H].
    destruct (sessionStates s !! sessionId) as [st|]; [|exact I].
    cbn. destruct (Hf st) as [-> ->]. exact H.
Qed.

#[local] Abbreviation waits := (keeps (@staysWaiting W sessionId scheduled)).

#[local] Tactic Notation "waits_auto" tactic(known) :=
  framed waiting_framing by (intros ?; split; reflexivity) using known.

Lemma waits_stopMonitoring : waits (@stopMonitoring W sessionId).
Proof.
  intros s _. unfold stopMonitoring, waitingOn.
  destruct (monitoringIntervals s !! sessionId) as [interval|];
    cbn [sessionStates monitoringIntervals withStates withIntervals record snd
         trace];
    rewrite lookup_delete_eq; (split; [exact I|]).
  - now exists [ClearInterval interval].
  - now exists [].
Qed.

Lemma waits_handlePollingError e : waits (handlePollingError col sessionId e).
Proof.
  unfold handlePollingError. waits_auto (apply waits_stopMonitoring).
Qed.

Lemma waits_handleApprovalRequest output :
  waits (handleApprovalRequest col sessionId output).
Proof. unfold handleApprovalRequest. waits_auto fail. Qed.

Lemma waits_executeQuotaSchedule q :
  waits (executeQuotaSchedule col sessionId q).
Proof. unfold executeQuotaSchedule. waits_auto fail. Qed.

Lemma waits_detectApproval output : waits (detectApproval col sessionId output).
Proof.
  unfold detectApproval. waits_auto (apply waits_handleApprovalRequest).
Qed.

Lemma waits_quotaGate session : waits (quotaGate col sessionId session).
Proof.
  unfold quotaGate. waits_auto (apply waits_executeQuotaSchedule).
Qed.

(** While the continuation is awaited a limit message is not handled. *)
Lemma waits_detectPatterns output : waits (detectPatterns col sessionId output).
Proof.
  intros s H. unfold detectPatterns. mred.
  pose proof H as H'. unfold waitingOn in H'.
  destruct (sessionStates s !! sessionId) as [st|] eqn:E.
  - destruct H' as [-> _]. cbn [negb]. rewrite andb_false_r.
    now apply waits_detectApproval.
  - now apply (framing_refl waiting_framing).
Qed.

(** Nor is a completed task looked for. *)
Lemma waits_checkTaskCompletion output :
  waits (checkTaskCompletion col sessionId output).
Proof.
  intros s H. unfold checkTaskCompletion. mred.
  pose proof H as H'. unfold waitingOn in H'.
  destruct (sessionStates s !! sessionId) as [st|] eqn:E.
  - destruct H' as [-> _]. now apply (framing_refl waiting_framing).
  - now apply (framing_refl waiting_framing).
Qed.

Lemma waits_analyzeOutput output : waits (analyzeOutput col sessionId output).
Proof.
  unfold analyzeOutput.
  waits_auto (first [apply waits_detectPatterns
                    | apply waits_checkTaskCompletion]).
Qed.

(** The cycle from the quota gate on. *)
Lemma waits_afterGate session : waits (afterGate col sessionId session).
Proof.
  unfold afterGate.
  waits_auto (first [apply waits_quotaGate | apply waits_analyzeOutput]).
Qed.

End Waiting.

Section Gate.

Context {W : Type} (col : Collaborators W) (sessionId : jsstring).

(** The cycle of a session found with its pane, up to the gate of the
    scheduled continuation. *)
Lemma pollCycle_to_gate (session : Session.t) (w1 w2 : W) (s : Machine W) :
  getSession col sessionId (world s) = (Ok (Some session), w1) ->
  sessionExists col (Session.tmuxSession session) w1 = (Ok true, w2) ->
  pollCycle col sessionId s
  = match sessionStates s !! sessionId with
    | Some st =>
        match SessionState.scheduledResetTime st with
        | Some scheduled =>
            let '(t, w3) := clock col w2 in
            if scheduled <=? t then
              bind (modifyState sessionId
                      (SessionState.set_scheduledResetTime None))
                (fun _ => performAutoContinuation col sessionId)
                (atGate sessionId session w3 s)
            else afterGate col sessionId session
                   (atGate sessionId session w3 s)
        | None => afterGate col sessionId session
                    (atGate sessionId session w2 s)
        end
    | None => afterGate col sessionId session (atGate sessionId session w2 s)
    end.
Proof.
  intros H1 H2. unfold pollCycle. unfold bind at 1. unfold call at 1.
  rewrite H1. cbv zeta. unfold bind at 1. unfold call at 1.
  cbn [world withWorld record]. rewrite H2. cbn [negb].
  unfold bind at 1. unfold getState at 1.
  cbn [sessionStates withWorld record].
  destruct (sessionStates s !! sessionId) as [st|]; [|reflexivity].
  destruct (SessionState.scheduledResetTime st) as [scheduled|];
    [|reflexivity].
  unfold bind at 1. unfold bind at 1. unfold now at 1.
  cbn [world withWorld record].
  destruct (clock col w2) as [t w3]. unfold ret at 1.
  destruct (scheduled <=? t); reflexivity.
Qed.

(** A cycle of a session that awaits a continuation never scheduled. *)
Lemma waits_pollCycle_unscheduled :
  keeps (@staysWaiting W sessionId None) (pollCycle col sessionId).
Proof.
  pose proof (@waiting_framing W sessionId None) as F.
  unfold pollCycle.
  apply (framed_bind F); [apply (framed_call F); reflexivity|].
  intros [session|]; [|apply waits_stopMonitoring].
  cbv zeta. apply (framed_bind F); [apply (framed_call F); reflexivity|].
  intros tmuxExists.
  destruct (negb tmuxExists); [apply waits_stopMonitoring|].
  intros s.
  match goal with
  | |- staysWaiting _ _ _ (snd (?m s)) =>
      assert (Hrun : waitingOn sessionId None s ->
                     m s = afterGate col sessionId session s)
  end.
  { intros H. unfold waitingOn in H. unfold bind at 1. unfold getState at 1.
    destruct (sessionStates s !! sessionId) as [st|]; [|reflexivity].
    destruct H as [_ ->]. reflexivity. }
  intros H. rewrite (Hrun H). now apply waits_afterGate.
Qed.

Lemma waits_pollSession_unscheduled :
  keeps (@staysWaiting W sessionId None) (pollSession col sessionId).
Proof.
  unfold pollSession.
  apply (framed_tryCatch (@waiting_framing W sessionId None)).
  - apply waits_pollCycle_unscheduled.
  - intros e. apply waits_handlePollingError.
Qed.

Lemma waitingOn_atGate scheduled session (w : W) (s : Machine W) :
  waitingOn sessionId scheduled s ->
  waitingOn sessionId scheduled (atGate sessionId session w s).
Proof. exact (fun H => H). Qed.

(** A cycle that reads, at the gate of the scheduled continuation, an
    instant before the scheduled one. *)
Lemma waits_pollSession_early (scheduled t : Z) (session : Session.t)
    (w1 w2 w3 : W) (s : Machine W) :
  getSession col sessionId (world s) = (Ok (Some session), w1) ->
  sessionExists col (Session.tmuxSession session) w1 = (Ok true, w2) ->
  clock col w2 = (t, w3) ->
  t < scheduled ->
  staysWaiting sessionId (Some scheduled) s
    (snd (pollSession col sessionId s)).
Proof.
  intros H1 H2 H3 Ht H. pose proof H as H'. unfold waitingOn in H'.
  pose proof (@waiting_framing W sessionId (Some scheduled)) as F.
  assert (Hrun : exists w, pollCycle col sessionId s
                           = afterGate col sessionId session
                               (atGate sessionId session w s)).
  { rewrite (pollCycle_to_gate s H1 H2).
    destruct (sessionStates s !! sessionId) as [st|]; [|now exists w2].
    destruct H' as [_ ->]. rewrite H3.
    destruct (Z.leb_spec scheduled t) as [Hle|_]; [lia|]. now exists w3. }
  destruct Hrun as [w Hrun]. unfold pollSession, tryCatch. rewrite Hrun.
  pose proof (waits_afterGate col sessionId (Some scheduled) session
                (atGate sessionId session w s)
                (@waitingOn_atGate (Some scheduled) session w s H)) as (Hw & new & Htr & Hcalm).
  assert (Hgate : staysWaiting sessionId (Some scheduled) s
                    (snd (afterGate col sessionId session
                            (atGate sessionId session w s)))).
  { intros _. split; [exact Hw|].
    exists (new ++ [SessionExists (Session.tmuxSession session);
                    GetSession sessionId]).
    split; [|now rewrite forallb_app, Hcalm].
    rewrite Htr, <- app_assoc. reflexivity. }
  destruct (afterGate col sessionId session (atGate sessionId session w s))
    as [[[]|e] s1]; cbn [snd] in *.
  - now apply Hgate.
  - apply (framing_trans F _ _ _ Hgate (waits_handlePollingError col
             sessionId (Some scheduled) e s1)). exact H.
Qed.

End Gate.

(** X7.  A session that awaits its continuation with no reset time
    scheduled stays so: whatever the pane shows and the collaborators answer,
    a poll cycle leaves [awaitingContinuation] set and no reset time
    scheduled wherever the session is still monitored, and it neither sends
    the continue sequence nor reports a limit again. *)
Theorem awaiting_without_schedule_never_continues :
  forall W (col : Collaborators W) (sessionId : jsstring) (s : Machine W)
         (st : SessionState.t),
    sessionStates s !! sessionId = Some st ->
    SessionState.awaitingContinuation st = true ->
    SessionState.scheduledResetTime st = None ->
    let s' := snd (pollSession col sessionId s) in
    (forall st', sessionStates s' !! sessionId = Some st' ->
                 SessionState.awaitingContinuation st' = true
                 /\ SessionState.scheduledResetTime st' = None)
    /\ exists new, trace s' = new ++ trace s /\ forallb calm new = true.
Proof.
  intros W col sessionId s st Hst Haw Hsch s'.
  assert (H : waitingOn sessionId None s)
    by (unfold waitingOn; rewrite Hst; auto).
  destruct (waits_pollSession_unscheduled col sessionId s H) as [Hw Htr].
  split; [|exact Htr]. intros st' Hst'. unfold waitingOn in Hw.
  fold s' in Hw. now rewrite Hst' in Hw.
Qed.

Lemma awaiting_without_schedule_never_continues_witness :
  let st := SessionState.set_awaitingContinuation true (initialState 0) in
  let s :=
    Mock.watching st (Mock.worldAt 60000 [Fixtures.claudeV2Limit] []) in
  let s' := snd (pollSession Mock.collaborators Mock.sessionId s) in
  (forall st', sessionStates s' !! Mock.sessionId = Some st' ->
               SessionState.awaitingContinuation st' = true
               /\ SessionState.scheduledResetTime st' = None)
  /\ exists new, trace s' = new ++ trace s /\ forallb calm new = true.
Proof.
  intros st s.
  apply (@awaiting_without_schedule_never_continues _ Mock.collaborators
           Mock.sessionId s st); reflexivity.
Defined.

(** X8.  While a continuation is scheduled, a cycle that reads at the gate
    an instant before the scheduled one leaves the schedule and
    [awaitingContinuation] as they are and neither sends the continue
    sequence nor reports the limit again. *)
Theorem scheduled_continuation_waits_for_its_time :
  forall W (col : Collaborators W) (sessionId : jsstring) (s : Machine W)
         (st : SessionState.t) (session : Session.t) (scheduled t : Z)
         (w1 w2 w3 : W),
    sessionStates s !! sessionId = Some st ->
    SessionState.awaitingContinuation st = true ->
    SessionState.scheduledResetTime st = Some scheduled ->
    getSession col sessionId (world s) = (Ok (Some session), w1) ->
    sessionExists col (Session.tmuxSession session) w1 = (Ok true, w2) ->
    clock col w2 = (t, w3) ->
    t < scheduled ->
    let s' := snd (pollSession col sessionId s) in
    (forall st', sessionStates s' !! sessionId = Some st' ->
                 SessionState.awaitingContinuation st' = true
                 /\ SessionState.scheduledResetTime st' = Some scheduled)
    /\ exists new, trace s' = new ++ trace s /\ forallb calm new = true.
Proof.
  intros W col sessionId s st session scheduled t w1 w2 w3 Hst Haw Hsch
    H1 H2 H3 Ht s'.
  assert (H : waitingOn sessionId (Some scheduled) s)
    by (unfold waitingOn; rewrite Hst; auto).
  destruct (@waits_pollSession_early W col sessionId scheduled t session w1 w2 w3 s H1 H2 H3 Ht H) as [Hw Htr].
  split; [|exact Htr]. intros st' Hst'. unfold waitingOn in Hw.
  fold s' in Hw. now rewrite Hst' in Hw.
Qed.

Lemma scheduled_continuation_waits_for_its_time_witness :
  let st :=
    SessionState.set_scheduledResetTime (Some 7200000)
      (SessionState.set_awaitingContinuation true (initialState 0)) in
  let w := Mock.worldAt 60000 [Fixtures.claudeV2Limit] [] in
  let s := Mock.watching st w in
  let s' := snd (pollSession Mock.collaborators Mock.sessionId s) in
  (forall st', sessionStates s' !! Mock.sessionId = Some st' ->
               SessionState.awaitingContinuation st' = true
               /\ SessionState.scheduledResetTime st' = Some 7200000)
  /\ exists new, trace s' = new ++ trace s /\ forallb calm new = true.
Proof.
  intros st w s.
  apply (@scheduled_continuation_waits_for_its_time _ Mock.collaborators
           Mock.sessionId s st Mock.session 7200000 60000 w w w);
    try reflexivity.
Defined.

(* ===================================================================== *)
(** ** The scheduled continuation *)
(* ===================================================================== *)

Section Due.

Context {W : Type} (col : Collaborators W) (sessionId : jsstring).

(** [performAutoContinuation] on a monitored session: it returns and
    captures nothing; the continue sequence is sent once when the lookup
    gives a session and not at all otherwise, and the state is the one of a
    continued session when the sequence went through and the one before in
    every other case. *)
Lemma performAutoContinuation_outcome (s : Machine W) (st : SessionState.t)
    (again : result (option Session.t)) (w4 : W) :
  sessionStates s !! sessionId = Some st ->
  getSession col sessionId (world s) = (again, w4) ->
  let r := performAutoContinuation col sessionId s in
  fst r = Ok tt
  /\ exists new,
       trace (snd r) = new ++ trace s
       /\ forallb notCapture new = true
       /\ match again with
          | Ok (Some found) =>
              let target := Session.tmuxSession found in
              List.filter isContinuation new = [SendContinueCommand target]
              /\ sessionStates (snd r) !! sessionId
                 = Some match sendContinueCommand col target w4 with
                        | (Ok _, w5) => continuedAt (fst (clock col w5)) st
                        | (Throw _, _) => st
                        end
          | _ =>
              List.filter isContinuation new = []
              /\ sessionStates (snd r) !! sessionId = Some st
          end.
Proof.
  intros Hst Hget. unfold performAutoContinuation, safeNotifyDiscord.
  destruct (sendNotification col) as [send|]; mred; rewrite Hget;
    (destruct again as [[found|]|e1]; mred;
     try solve [split; [reflexivity|]; eexists [_]; repeat split;
                try reflexivity; exact Hst]);
    rewrite Hst; mred;
    (destruct (sendContinueCommand col (Session.tmuxSession found) w4)
       as [[[]|e2] w5]; mred;
     try solve [split; [reflexivity|]; eexists [_; _]; repeat split;
                try reflexivity; exact Hst]);
    destruct (clock col w5) as [t w6]; mred;
    destruct (updateSession col sessionId (SetStatus active) w6)
      as [[[]|e4] w7]; mred;
    try match goal with
        | |- context [send ?a ?b ?c] =>
            destruct (send a b c) as [[[]|e5] w8]; mred
        end;
    (split; [reflexivity|];
     first [ solve [eexists [_; _; _; _]; repeat split; try reflexivity;
                    rewrite !lookup_alter_eq, Hst; reflexivity]
           | solve [eexists [_; _; _]; repeat split; try reflexivity;
                    rewrite !lookup_alter_eq, Hst; reflexivity] ]).
Qed.

End Due.

(** X9.  When a cycle reads, at the gate, an instant at or after the
    scheduled one, the schedule is cleared and the continuation attempted
    in place of the analysis of the pane: the cycle ends without error and
    captures nothing.  The session is looked up again; when it is found the
    continue sequence is sent exactly once, to its pane, and otherwise not at
    all.  When the sequence went through the state is the one of a continued
    session; in every other case it is the state before with only the
    schedule removed: the schedule is cleared whether or not the
    continuation went through. *)
Theorem scheduled_continuation_is_attempted_once :
  forall W (col : Collaborators W) (sessionId : jsstring) (s : Machine W)
         (st : SessionState.t) (session : Session.t) (scheduled t : Z)
         (w1 w2 w3 w4 : W) (again : result (option Session.t)),
    sessionStates s !! sessionId = Some st ->
    SessionState.scheduledResetTime st = Some scheduled ->
    getSession col sessionId (world s) = (Ok (Some session), w1) ->
    sessionExists col (Session.tmuxSession session) w1 = (Ok true, w2) ->
    clock col w2 = (t, w3) ->
    scheduled <= t ->
    getSession col sessionId w3 = (again, w4) ->
    let r := pollSession col sessionId s in
    let unscheduled := SessionState.set_scheduledResetTime None st in
    fst r = Ok tt
    /\ exists new,
         trace (snd r) = new ++ trace s
         /\ forallb notCapture new = true
         /\ match again with
            | Ok (Some found) =>
                let target := Session.tmuxSession found in
                List.filter isContinuation new = [SendContinueCommand target]
                /\ sessionStates (snd r) !! sessionId
                   = Some match sendContinueCommand col target w4 with
                          | (Ok _, w5) =>
                              continuedAt (fst (clock col w5)) unscheduled
                          | (Throw _, _) => unscheduled
                          end
            | _ =>
                List.filter isContinuation new = []
                /\ sessionStates (snd r) !! sessionId = Some unscheduled
            end.
Proof.
  intros W col sessionId s st session scheduled t w1 w2 w3 w4 again Hst Hsch
    H1 H2 H3 Ht H4 r unscheduled.
  pose (s4 := withStates
                (alter (SessionState.set_scheduledResetTime None) sessionId
                   (sessionStates s))
                (atGate sessionId session w3 s)).
  assert (Hrun : pollCycle col sessionId s
                 = performAutoContinuation col sessionId s4).
  { rewrite (@pollCycle_to_gate W col sessionId session w1 w2 s H1 H2), Hst,
      Hsch, H3.
    destruct (Z.leb_spec scheduled t) as [_|Hlt]; [reflexivity | lia]. }
  subst r. unfold pollSession, tryCatch. rewrite Hrun.
  assert (Hst4 : sessionStates s4 !! sessionId = Some unscheduled).
  { subst s4. cbn [sessionStates withStates].
    now rewrite lookup_alter_eq, Hst. }
  destruct (@performAutoContinuation_outcome W col sessionId s4 unscheduled
              again w4 Hst4 H4) as (Hok & new & Htr & Hnc & Hout).
  destruct (performAutoContinuation col sessionId s4) as [[[]|e] s5];
    cbn [fst snd] in *; [|discriminate Hok].
  split; [reflexivity|].
  exists (new ++ [SessionExists (Session.tmuxSession session);
                  GetSession sessionId]).
  split; [rewrite Htr, <- app_assoc; reflexivity|].
  split; [now rewrite forallb_app, Hnc|].
  rewrite List.filter_app. cbn [List.filter isContinuation].
  rewrite app_nil_r. exact Hout.
Qed.

Lemma scheduled_continuation_is_attempted_once_witness :
  let st :=
    SessionState.set_scheduledResetTime (Some 7200000)
      (SessionState.set_awaitingContinuation true (initialState 0)) in
  let w := Mock.worldAt 7200500 [Fixtures.claudeV2Limit] [] in
  let s := Mock.watching st w in
  let r := pollSession Mock.collaborators Mock.sessionId s in
  let unscheduled := SessionState.set_scheduledResetTime None st in
  fst r = Ok tt
  /\ exists new,
       trace (snd r) = new ++ trace s
       /\ forallb notCapture new = true
       /\ List.filter isContinuation new
          = [SendContinueCommand (Session.tmuxSession Mock.session)]
          /\ sessionStates (snd r) !! Mock.sessionId
             = Some (continuedAt 7200500 unscheduled).
Proof.
  intros st w s.
  apply (@scheduled_continuation_is_attempted_once _ Mock.collaborators
           Mock.sessionId s st Mock.session 7200000 7200500 w w w w
           (Ok (Some Mock.session))); try reflexivity.
  vm_compute. discriminate.
Defined.

(* ===================================================================== *)
(** ** Starting and stopping *)
(* ===================================================================== *)

Section Lifecycle.

Context {W : Type}.

Implicit Types (s : Machine W) (sessionId other : jsstring) (i : nat).

Lemma stopMonitoring_returns_unit sessionId s :
  fst (stopMonitoring sessionId s) = Ok tt.
Proof. reflexivity. Qed.

Lemma stopMonitoring_intervals sessionId s other :
  monitoringIntervals (snd (stopMonitoring sessionId s)) !! other
  = if decide (other = sessionId) then None
    else monitoringIntervals s !! other.
Proof.
  unfold stopMonitoring.
  destruct (monitoringIntervals s !! sessionId) as [interval|] eqn:E;
    cbn [snd monitoringIntervals withStates withIntervals record];
    destruct (decide (other = sessionId)) as [->|Hne]; try reflexivity.
  - apply lookup_delete_eq.
  - now apply lookup_delete_ne.
  - exact E.
Qed.

Lemma stopMonitoring_states sessionId s other :
  sessionStates (snd (stopMonitoring sessionId s)) !! other
  = if decide (other = sessionId) then None else sessionStates s !! other.
Proof.
  unfold stopMonitoring.
  destruct (monitoringIntervals s !! sessionId) as [interval|];
    cbn [snd sessionStates withStates withIntervals record];
    destruct (decide (other = sessionId)) as [->|Hne];
    first [apply lookup_delete_eq | now apply lookup_delete_ne].
Qed.

Lemma stopMonitoring_timers sessionId s i :
  timers (snd (stopMonitoring sessionId s)) !! i
  = if decide (monitoringIntervals s !! sessionId = Some i) then None
    else timers s !! i.
Proof.
  unfold stopMonitoring.
  destruct (monitoringIntervals s !! sessionId) as [interval|];
    cbn [snd timers withStates withIntervals record].
  - destruct (decide (Some interval = Some i)) as [E|Hne].
    + injection E as ->. apply lookup_delete_eq.
    + apply lookup_delete_ne. congruence.
  - destruct (decide (None = Some i)); [discriminate | reflexivity].
Qed.

Lemma stopEach_returns_unit (l : list jsstring) : forall s,
  fst (stopEach l s) = Ok tt.
Proof.
  induction l as [|sessionId l IH]; intros s; [reflexivity|].
  cbn [stopEach]. unfold bind.
  destruct (stopMonitoring sessionId s) as [[[]|e] s1] eqn:E.
  - apply IH.
  - discriminate (f_equal fst E).
Qed.

Lemma stopEach_step sessionId (l : list jsstring) s :
  snd (stopEach (sessionId :: l) s)
  = snd (stopEach l (snd (stopMonitoring sessionId s))).
Proof. reflexivity. Qed.

Lemma stopEach_intervals (l : list jsstring) : forall s other,
  monitoringIntervals (snd (stopEach l s)) !! other
  = if decide (other ∈ l) then None else monitoringIntervals s !! other.
Proof.
  induction l as [|sessionId l IH]; intros s other.
  - destruct (decide (other ∈ [])) as [H|_]; [|reflexivity].
    now apply not_elem_of_nil in H.
  - rewrite stopEach_step, IH, stopMonitoring_intervals.
    destruct (decide (other ∈ l)) as [Hin|Hout].
    + rewrite decide_True by (now right). reflexivity.
    + destruct (decide (other = sessionId)) as [->|Hne].
      * rewrite decide_True by (now left). reflexivity.
      * rewrite decide_False; [reflexivity|].
        intros H. apply elem_of_cons in H as [?|?]; contradiction.
Qed.

Lemma stopEach_states (l : list jsstring) : forall s other,
  sessionStates (snd (stopEach l s)) !! other
  = if decide (other ∈ l) then None else sessionStates s !! other.
Proof.
  induction l as [|sessionId l IH]; intros s other.
  - destruct (decide (other ∈ [])) as [H|_]; [|reflexivity].
    now apply not_elem_of_nil in H.
  - rewrite stopEach_step, IH, stopMonitoring_states.
    destruct (decide (other ∈ l)) as [Hin|Hout].
    + rewrite decide_True by (now right). reflexivity.
    + destruct (decide (other = sessionId)) as [->|Hne].
      * rewrite decide_True by (now left). reflexivity.
      * rewrite decide_False; [reflexivity|].
        intros H. apply elem_of_cons in H as [?|?]; contradiction.
Qed.

(** A timer once cleared stays cleared, and the timer of every session of
    the list is cleared. *)
Lemma stopEach_timers_none (l : list jsstring) : forall s i,
  timers s !! i = None -> timers (snd (stopEach l s)) !! i = None.
Proof.
  induction l as [|sessionId l IH]; intros s i H; [exact H|].
  rewrite stopEach_step. apply IH. rewrite stopMonitoring_timers.
  now destruct (decide _).
Qed.

Lemma stopEach_timers (l : list jsstring) : forall s sessionId i,
  sessionId ∈ l -> monitoringIntervals s !! sessionId = Some i ->
  timers (snd (stopEach l s)) !! i = None.
Proof.
  induction l as [|first l IH]; intros s sessionId i Hin Hi.
  - now apply not_elem_of_nil in Hin.
  - rewrite stopEach_step.
    destruct (decide (sessionId = first)) as [->|Hne].
    + apply stopEach_timers_none. rewrite stopMonitoring_timers.
      now rewrite decide_True.
    + apply elem_of_cons in Hin as [?|Hin]; [contradiction|].
      apply (IH _ sessionId); [exact Hin|].
      rewrite stopMonitoring_intervals. now rewrite decide_False.
Qed.

Lemma active_monitored s sessionId :
  sessionId ∈ getActiveMonitoring s
  <-> exists i, monitoringIntervals s !! sessionId = Some i.
Proof.
  unfold getActiveMonitoring. rewrite list_elem_of_fmap. split.
  - intros ([k i] & -> & H). exists i. now apply elem_of_map_to_list in H.
  - intros [i H]. exists (sessionId, i). split; [reflexivity|].
    now apply elem_of_map_to_list.
Qed.

End Lifecycle.

(** X10.  [stopAll] never fails and leaves nothing monitored: the map of
    intervals is empty afterwards, and every session that had an interval
    has lost its runtime state and its timer is cleared. *)
Theorem stopAll_stops_everything :
  forall W (s : Machine W),
    let r := stopAll s in
    fst r = Ok tt
    /\ monitoringIntervals (snd r) = ∅
    /\ getActiveMonitoring (snd r) = []
    /\ forall sessionId i,
         monitoringIntervals s !! sessionId = Some i ->
         sessionStates (snd r) !! sessionId = None
         /\ timers (snd r) !! i = None.
Proof.
  intros W s r. subst r. unfold stopAll.
  assert (Hempty : monitoringIntervals
                     (snd (stopEach (getActiveMonitoring s) s)) = ∅).
  { apply map_empty. intros sessionId. rewrite stopEach_intervals.
    destruct (decide (sessionId ∈ getActiveMonitoring s)) as [_|Hout];
      [reflexivity|].
    destruct (monitoringIntervals s !! sessionId) as [i|] eqn:E;
      [|reflexivity].
    exfalso. apply Hout, active_monitored. now exists i. }
  split; [apply stopEach_returns_unit|]. split; [exact Hempty|]. split.
  - unfold getActiveMonitoring at 1. rewrite Hempty.
    now rewrite map_to_list_empty.
  - intros sessionId i Hi.
    assert (Hin : sessionId ∈ getActiveMonitoring s)
      by (apply active_monitored; now exists i).
    split.
    + rewrite stopEach_states. now rewrite decide_True.
    + exact (@stopEach_timers W (getActiveMonitoring s) s sessionId i Hin Hi).
Qed.

Section Restart.

Context {W : Type} (col : Collaborators W) (sessionId : jsstring).

(** The machine after a successful [startMonitoring]. *)
Lemma startMonitoring_found (s : Machine W) (session : Session.t) (t : Z)
    (w1 w2 : W) :
  getSession col sessionId (world s) = (Ok (Some session), w1) ->
  clock col w1 = (t, w2) ->
  let s1 := snd (startMonitoring col sessionId s) in
  fst (startMonitoring col sessionId s) = Ok tt
  /\ monitoringIntervals s1
     = <[sessionId := nextTimer s]> (monitoringIntervals s)
  /\ sessionStates s1 = <[sessionId := initialState t]> (sessionStates s)
  /\ timers s1
     = <[nextTimer s := (sessionId, Options.pollInterval (options s))]>
         (timers s)
  /\ options s1 = options s.
Proof.
  intros H1 H2. unfold startMonitoring. mred. rewrite H1. mred.
  rewrite H2. mred. repeat split.
Qed.

End Restart.

(** X11.  [stopMonitoring] undoes [startMonitoring]: for a session that is
    not monitored, starting it and then stopping it leaves the intervals, the
    runtime states, the live timers and the options as they were. *)
Theorem stop_undoes_start :
  forall W (col : Collaborators W) (sessionId : jsstring) (s : Machine W)
         (session : Session.t) (w1 : W),
    monitoringIntervals s !! sessionId = None ->
    sessionStates s !! sessionId = None ->
    timers s !! nextTimer s = None ->
    getSession col sessionId (world s) = (Ok (Some session), w1) ->
    let s2 := snd (stopMonitoring sessionId
                     (snd (startMonitoring col sessionId s))) in
    monitoringIntervals s2 = monitoringIntervals s
    /\ sessionStates s2 = sessionStates s
    /\ timers s2 = timers s
    /\ options s2 = options s.
Proof.
  intros W col sessionId s session w1 Hi Hs Ht H1 s2.
  destruct (clock col w1) as [t w2] eqn:H2.
  destruct (startMonitoring_found col sessionId s H1 H2)
    as (_ & Hint & Hst & Htm & Hopt).
  subst s2. unfold stopMonitoring. rewrite Hint, lookup_insert_eq.
  cbn [snd monitoringIntervals sessionStates timers options withStates
       withIntervals record].
  rewrite Hst, Htm, Hopt.
  rewrite !delete_insert_id by assumption. auto.
Qed.

Lemma stop_undoes_start_witness :
  let s := newMonitor noOptions (Mock.worldAt 0 [] []) in
  let s2 := snd (stopMonitoring Mock.sessionId
                   (snd (startMonitoring Mock.collaborators Mock.sessionId
                           s))) in
  monitoringIntervals s2 = monitoringIntervals s
  /\ sessionStates s2 = sessionStates s
  /\ timers s2 = timers s
  /\ options s2 = options s.
Proof.
  intros s.
  apply (@stop_undoes_start _ Mock.collaborators Mock.sessionId s Mock.session
           (Mock.worldAt 0 [] [])); reflexivity.
Defined.

(** X12.  [startMonitoring] on a session that is already monitored replaces
    its runtime state by a fresh one and registers a second timer without
    clearing the first: the first timer stays live, and a later
    [stopMonitoring] clears only the second, so that the session is listed as
    not monitored while its first timer still runs. *)
Theorem restart_leaves_the_first_timer :
  forall W (col : Collaborators W) (sessionId : jsstring) (s : Machine W)
         (session : Session.t) (t : Z) (w1 w2 : W) (first : nat)
         (timer : jsstring * Z),
    monitoringIntervals s !! sessionId = Some first ->
    timers s !! first = Some timer ->
    timers s !! nextTimer s = None ->
    getSession col sessionId (world s) = (Ok (Some session), w1) ->
    clock col w1 = (t, w2) ->
    let s1 := snd (startMonitoring col sessionId s) in
    let s2 := snd (stopMonitoring sessionId s1) in
    sessionStates s1 !! sessionId = Some (initialState t)
    /\ monitoringIntervals s1 !! sessionId = Some (nextTimer s)
    /\ timers s1 !! first = Some timer
    /\ monitoringIntervals s2 !! sessionId = None
    /\ timers s2 !! nextTimer s = None
    /\ timers s2 !! first = Some timer.
Proof.
  intros W col sessionId s session t w1 w2 first timer Hi Hf Ht H1 H2 s1 s2.
  destruct (startMonitoring_found col sessionId s H1 H2)
    as (_ & Hint & Hst & Htm & _).
  fold s1 in Hint, Hst, Htm.
  assert (Hne : first <> nextTimer s) by congruence.
  assert (Hf1 : timers s1 !! first = Some timer)
    by (rewrite Htm, lookup_insert_ne by congruence; exact Hf).
  assert (Hi1 : monitoringIntervals s1 !! sessionId = Some (nextTimer s))
    by (rewrite Hint; apply lookup_insert_eq).
  split; [rewrite Hst; apply lookup_insert_eq|].
  split; [exact Hi1|]. split; [exact Hf1|].
  subst s2. rewrite stopMonitoring_intervals, !stopMonitoring_timers, Hi1.
  rewrite decide_True by reflexivity.
  rewrite decide_True by reflexivity.
  rewrite decide_False by congruence. auto.
Qed.

Lemma restart_leaves_the_first_timer_witness :
  let s := Mock.watching (initialState 0) (Mock.worldAt 5000 [] []) in
  let s1 := snd (startMonitoring Mock.collaborators Mock.sessionId s) in
  let s2 := snd (stopMonitoring Mock.sessionId s1) in
  sessionStates s1 !! Mock.sessionId = Some (initialState 5000)
  /\ monitoringIntervals s1 !! Mock.sessionId = Some 1%nat
  /\ timers s1 !! 0%nat = Some (Mock.sessionId, 2000)
  /\ monitoringIntervals s2 !! Mock.sessionId = None
  /\ timers s2 !! 1%nat = None
  /\ timers s2 !! 0%nat = Some (Mock.sessionId, 2000).
Proof.
  intros s.
  apply (@restart_leaves_the_first_timer _ Mock.collaborators Mock.sessionId s
           Mock.session 5000 (Mock.worldAt 5000 [] []) (Mock.worldAt 5000 [] [])
           0%nat (Mock.sessionId, 2000)); reflexivity.
Defined.

(* ===================================================================== *)
(** ** Approval dialogs *)
(* ===================================================================== *)

Section Dialog.

(** The loop of [detectApprovalDialog], from flags not all set. *)
Lemma detectApprovalLoop_spec (lines : list jsstring) : forall q n s,
  q && n && s = false ->
  detectApprovalLoop lines q n s
  = (q || existsb (fun l => test flag_i patterns.question (trim l)) lines)
    && (n || existsb (fun l => test plain patterns.numberedOptions (trim l))
                lines)
    && (s || existsb (fun l => test plain patterns.currentSelection (trim l))
                lines).
Proof.
  induction lines as [|line lines IH]; intros q n s H.
  - cbn [detectApprovalLoop existsb]. now rewrite !orb_false_r.
  - cbn [detectApprovalLoop existsb]. cbv zeta.
    destruct (test flag_i patterns.question (trim line)) eqn:Eq,
      (test plain patterns.numberedOptions (trim line)) eqn:En,
      (test plain patterns.currentSelection (trim line)) eqn:Es;
      cbn [orb andb];
      try (rewrite !orb_true_r; cbn [orb andb]);
      try reflexivity;
      repeat match goal with
      | |- context [if ?b then _ else _] => destruct b eqn:?
      end;
      try (rewrite IH by (cbn; auto using andb_false_r));
      destruct q, n, s; cbn in *; try discriminate; try reflexivity;
      try (rewrite !orb_true_r; reflexivity).
Qed.

End Dialog.

(** X13.  [detectApprovalDialog] is true exactly when some line, trimmed,
    matches the question pattern, some line the numbered-option pattern and
    some line shows the selection arrow; the three may be on different lines,
    in any order and any distance apart. *)
Theorem detectApprovalDialog_three_parts :
  forall (output : jsstring),
    detectApprovalDialog output = true
    <-> (exists line, In line (split output)
                      /\ test flag_i patterns.question (trim line) = true)
        /\ (exists line, In line (split output)
                         /\ test plain patterns.numberedOptions (trim line)
                            = true)
        /\ (exists line, In line (split output)
                         /\ test plain patterns.currentSelection (trim line)
                            = true).
Proof.
  intros output. unfold detectApprovalDialog.
  rewrite detectApprovalLoop_spec by reflexivity. cbn [orb].
  rewrite !andb_true_iff, !existsb_exists. tauto.
Qed.

Section ApprovalInfoFold.

Implicit Types (output line : jsstring) (acc : ApprovalInfo.t).

Lemma approvalStep_options output acc line :
  ApprovalInfo.options (approvalStep output acc line)
  = ApprovalInfo.options acc
    ++ match parseOption (cleanDialogLine line) with
       | Some o => [o]
       | None => []
       end.
Proof.
  unfold approvalStep. cbv zeta.
  repeat match goal with
  | |- context [if ?b then _ else _] => destruct b
  end; cbn [ApprovalInfo.options];
    destruct (parseOption (cleanDialogLine line));
    now rewrite ?app_nil_r.
Qed.

Lemma approvalStep_question output acc line :
  ApprovalInfo.question (approvalStep output acc line)
  = if test flag_i patterns.question (cleanDialogLine line)
    then cleanDialogLine line else ApprovalInfo.question acc.
Proof.
  unfold approvalStep. cbv zeta.
  destruct (test flag_i patterns.question (cleanDialogLine line));
    repeat match goal with
    | |- context [if ?b then _ else _] => destruct b
    end; reflexivity.
Qed.

Lemma approvalStep_tool output acc line :
  test flag_i patterns.question (cleanDialogLine line) = false ->
  ApprovalInfo.tool (approvalStep output acc line) = ApprovalInfo.tool acc
  /\ ApprovalInfo.action (approvalStep output acc line)
     = ApprovalInfo.action acc.
Proof. unfold approvalStep. cbv zeta. intros ->. split; reflexivity. Qed.

Lemma last_cons_default {A} (x d : A) (l : list A) :
  List.last (x :: l) d = List.last l x.
Proof.
  revert x d. induction l as [|y l IH]; intros x d; [reflexivity|].
  change (List.last (x :: y :: l) d) with (List.last (y :: l) d).
  now rewrite (IH y d), (IH y x).
Qed.

Lemma omap_cons_option {A B} (f : A -> option B) (x : A) (l : list A) :
  omap f (x :: l)
  = match f x with Some y => y :: omap f l | None => omap f l end.
Proof. reflexivity. Qed.

Lemma approvalFold output (lines : list jsstring) : forall acc,
  let info := fold_left (approvalStep output) lines acc in
  let cleaned := map cleanDialogLine lines in
  ApprovalInfo.options info
  = ApprovalInfo.options acc ++ omap parseOption cleaned
  /\ ApprovalInfo.question info
     = List.last (List.filter (test flag_i patterns.question) cleaned)
         (ApprovalInfo.question acc)
  /\ (List.filter (test flag_i patterns.question) cleaned = [] ->
      ApprovalInfo.tool info = ApprovalInfo.tool acc
      /\ ApprovalInfo.action info = ApprovalInfo.action acc).
Proof.
  induction lines as [|line lines IH]; intros acc.
  - cbn. rewrite app_nil_r. auto.
  - cbn [fold_left map List.filter]. cbv zeta.
    destruct (IH (approvalStep output acc line)) as (Ho & Hq & Ht).
    cbv zeta in Ho, Hq, Ht.
    rewrite Ho, Hq, approvalStep_options, approvalStep_question,
      omap_cons_option.
    destruct (test flag_i patterns.question (cleanDialogLine line)) eqn:E.
    + split; [|split; [|discriminate]].
      * destruct (parseOption (cleanDialogLine line));
          now rewrite <- app_assoc.
      * now rewrite last_cons_default.
    + split; [|split; [reflexivity|]].
      * destruct (parseOption (cleanDialogLine line));
          now rewrite <- app_assoc.
      * intros Hnone. destruct (Ht Hnone) as [-> ->].
        now apply approvalStep_tool.
Qed.

End ApprovalInfoFold.

(** X14.  [extractApprovalInfo] on the lines of the pane, each cleaned of
    box characters and extra white space: the options are the numbered lines
    in the order of the screen, one option per line; the question is the last
    line that matches the question pattern, the empty text if there is none;
    and without such a line the tool and the action stay Unknown and Unknown
    operation. *)
Theorem extractApprovalInfo_reads_the_lines :
  forall (output : jsstring),
    let cleaned := map cleanDialogLine (split output) in
    let questions := List.filter (test flag_i patterns.question) cleaned in
    let info := extractApprovalInfo output in
    ApprovalInfo.options info = omap parseOption cleaned
    /\ ApprovalInfo.question info = List.last questions []
    /\ (questions = [] ->
        ApprovalInfo.tool info = lit "Unknown"
        /\ ApprovalInfo.action info = lit "Unknown operation").
Proof.
  intros output cleaned questions info. subst cleaned questions info.
  unfold extractApprovalInfo.
  exact (approvalFold output (split output)
           {| ApprovalInfo.tool := lit "Unknown";
              ApprovalInfo.action := lit "Unknown operation";
              ApprovalInfo.question := []; ApprovalInfo.options := [] |}).
Qed.

(* ===================================================================== *)
(** ** The cooldown of the completion notice *)
(* ===================================================================== *)

Section Cooldown.

Context {W : Type} (col : Collaborators W) (sessionId : jsstring).

(** [handleTaskCompletion] stamps the state with its first reading of the
    clock, whatever happens to the notification afterwards. *)
Lemma handleTaskCompletion_stamps (output : jsstring) (idleMs : Z)
    (s : Machine W) (st : SessionState.t) (t : Z) (w : W) :
  sessionStates s !! sessionId = Some st ->
  clock col (world s) = (t, w) ->
  sessionStates (snd (handleTaskCompletion col sessionId output idleMs s))
  !! sessionId
  = Some (SessionState.set_lastTaskCompletionNotification (Some t) st).
Proof.
  intros Hst Hclock. unfold handleTaskCompletion, safeNotifyDiscord.
  destruct (sendNotification col) as [send|]; mred; rewrite Hst; mred;
    rewrite Hclock; mred;
    destruct (clock col w) as [t2 w2]; mred;
    destruct (getSession col sessionId w2) as [[o|e] w3]; mred;
    try (destruct (clock col w3) as [t3 w4]; mred);
    try match goal with
        | |- context [send ?a ?b ?c] =>
            destruct (send a b c) as [[[]|e5] w5]; mred
        end;
    now rewrite lookup_alter_eq, Hst.
Qed.

(** Inside the cooldown [checkTaskCompletion] does nothing. *)
Lemma checkTaskCompletion_cooldown (output : jsstring) (s : Machine W)
    (st : SessionState.t) (last t : Z) (w : W) :
  sessionStates s !! sessionId = Some st ->
  SessionState.lastTaskCompletionNotification st = Some last ->
  clock col (world s) = (t, w) ->
  t - last < COMPLETION_COOLDOWN_MS ->
  let r := checkTaskCompletion col sessionId output s in
  fst r = Ok tt /\ trace (snd r) = trace s
  /\ sessionStates (snd r) = sessionStates s.
Proof.
  intros Hst Hlast Hclock Hcool. unfold checkTaskCompletion. mred.
  rewrite Hst.
  destruct (SessionState.awaitingContinuation st); [now repeat split|].
  destruct (SessionState.lastOutputChangeTime st) as [lastChange|];
    [|now repeat split].
  mred. rewrite Hclock. mred.
  destruct (t - lastChange <? MIN_IDLE_SECONDS * 1000); [now repeat split|].
  destruct (negb _ || negb _); [now repeat split|].
  rewrite Hlast.
  destruct (Z.ltb_spec (t - last) COMPLETION_COOLDOWN_MS) as [_|Hge];
    [now repeat split | lia].
Qed.

End Cooldown.

(** X15.  After [handleTaskCompletion] has run, stamping the state with the
    instant [t1] it read first, [checkTaskCompletion] does nothing as long as
    its clock reads less than five minutes after [t1]: whatever the pane
    shows and however long it has been idle, it returns without a call and
    without a change of state. *)
Theorem completion_is_not_repeated_within_cooldown :
  forall W (col : Collaborators W) (sessionId output output2 : jsstring)
         (idleMs : Z) (s : Machine W) (st : SessionState.t) (t1 t2 : Z)
         (w1 w2 : W),
    sessionStates s !! sessionId = Some st ->
    clock col (world s) = (t1, w1) ->
    let s1 := snd (handleTaskCompletion col sessionId output idleMs s) in
    clock col (world s1) = (t2, w2) ->
    t2 - t1 < 5 * 60 * 1000 ->
    let r := checkTaskCompletion col sessionId output2 s1 in
    fst r = Ok tt /\ trace (snd r) = trace s1
    /\ sessionStates (snd r) = sessionStates s1.
Proof.
  intros W col sessionId output output2 idleMs s st t1 t2 w1 w2 Hst H1 s1 H2
    Hcool.
  apply (@checkTaskCompletion_cooldown W col sessionId output2 s1
           (SessionState.set_lastTaskCompletionNotification (Some t1) st)
           t1 t2 w2).
  - now apply handleTaskCompletion_stamps with (w := w1).
  - reflexivity.
  - exact H2.
  - exact Hcool.
Qed.

Lemma completion_is_not_repeated_within_cooldown_witness :
  let out := lit "Task finished" ++ nl ++ lit "> " in
  let s := Mock.watching (initialState 0) (Mock.worldAt 12000 [out] []) in
  let s1 :=
    snd (handleTaskCompletion Mock.collaborators Mock.sessionId out 12000 s) in
  let r := checkTaskCompletion Mock.collaborators Mock.sessionId out s1 in
  fst r = Ok tt /\ trace (snd r) = trace s1
  /\ sessionStates (snd r) = sessionStates s1.
Proof.
  intros out s.
  apply (@completion_is_not_repeated_within_cooldown _ Mock.collaborators
           Mock.sessionId out out 12000 s (initialState 0) 12000 12000
           (Mock.worldAt 12000 [out] []) (Mock.worldAt 12000 [out] []));
    reflexivity.
Defined.

(* ===================================================================== *)
(** ** The steps of a limit episode in one cycle *)
(* ===================================================================== *)

Section Episode.

Context {W : Type} (col : Collaborators W).

Implicit Types (steps : list EpisodeStep) (s : Machine W).

Lemma emits_nothing_framing : Framing (@emits W []) silent anyField.
Proof.
  split.
  - intros s. exists []. split; [reflexivity | apply sublist_nil].
  - intros a b c (n1 & T1 & S1) (n2 & T2 & S2). exists (n2 ++ n1).
    split; [now rewrite T2, T1, app_assoc|].
    apply sublist_nil_r in S1, S2. rewrite omap_app, S1, S2. apply sublist_nil.
  - intros w s. exists []. split; [reflexivity | apply sublist_nil].
  - intros c s Hc. exists [c]. split; [reflexivity|].
    unfold silent in Hc. cbn. destruct (episodeStep c); [discriminate|].
    apply sublist_nil.
  - intros sid f s _. exists []. split; [reflexivity | apply sublist_nil].
Qed.

Lemma emits_weaken steps steps' {A} (m : @M W A) :
  steps `sublist_of` steps' -> keeps (emits steps) m -> keeps (emits steps') m.
Proof.
  intros Hsub Hm s. destruct (Hm s) as (new & T & S).
  exists new. split; [exact T|]. now transitivity steps.
Qed.

Lemma emits_quiet steps {A} (m : @M W A) :
  keeps (emits []) m -> keeps (emits steps) m.
Proof. apply emits_weaken, sublist_nil_l. Qed.

Lemma emits_bind first then_ {A B} (m : @M W A) (k : A -> @M W B) :
  keeps (emits first) m -> (forall a, keeps (emits then_) (k a)) ->
  keeps (emits (then_ ++ first)) (bind m k).
Proof.
  intros Hm Hk s. unfold bind. destruct (Hm s) as (n1 & T1 & S1).
  destruct (m s) as [[a|e] s1]; cbn [snd] in *.
  - destruct (Hk a s1) as (n2 & T2 & S2). exists (n2 ++ n1).
    split; [now rewrite T2, T1, app_assoc|].
    rewrite omap_app. now apply sublist_app.
  - exists n1. split; [exact T1|]. now apply sublist_inserts_l.
Qed.

Lemma emits_bind_quiet steps {A B} (m : @M W A) (k : A -> @M W B) :
  keeps (emits []) m -> (forall a, keeps (emits steps) (k a)) ->
  keeps (emits steps) (bind m k).
Proof.
  intros Hm Hk. rewrite <- (app_nil_r steps). now apply emits_bind.
Qed.

Lemma emits_tryCatch steps {A} (m : @M W A) (h : jsstring -> @M W A) :
  keeps (emits steps) m -> (forall e, keeps (emits []) (h e)) ->
  keeps (emits steps) (tryCatch m h).
Proof.
  intros Hm Hh s. unfold tryCatch. destruct (Hm s) as (n1 & T1 & S1).
  destruct (m s) as [[a|e] s1]; cbn [snd] in *.
  - now exists n1.
  - destruct (Hh e s1) as (n2 & T2 & S2). exists (n2 ++ n1).
    split; [now rewrite T2, T1, app_assoc|].
    apply sublist_nil_r in S2. now rewrite omap_app, S2.
Qed.

Lemma emits_call_step {A} (c : Call) (op : W -> result A * W)
    (step : EpisodeStep) :
  episodeStep c = Some step -> keeps (emits [step]) (call c op).
Proof.
  intros Hc s. unfold call. destruct (op (world s)) as [r w].
  exists [c]. split; [reflexivity|]. cbn. now rewrite Hc.
Qed.

Lemma emits_emit_step (e : MonitorEvent.t) (step : EpisodeStep) :
  episodeStep (Emit e) = Some step -> keeps (emits [step]) (@emit W e).
Proof.
  intros Hc s. exists [Emit e]. split; [reflexivity|].
  cbn [omap list_omap]. now rewrite Hc.
Qed.

Lemma emits_notify_step (sid : jsstring) (n : Notification.t)
    (step : EpisodeStep) :
  episodeStep (SendNotification sid n) = Some step ->
  keeps (emits [step]) (safeNotifyDiscord col sid n).
Proof.
  intros Hc. unfold safeNotifyDiscord.
  destruct (sendNotification col) as [send|].
  - apply emits_tryCatch; [now apply emits_call_step|].
    intros e. apply (framed_ret emits_nothing_framing).
  - apply emits_quiet, (framed_ret emits_nothing_framing).
Qed.

End Episode.

Section EpisodeMethods.

Context {W : Type} (col : Collaborators W).

#[local] Abbreviation quiet := (keeps (@emits W [])).

(** A method none of whose calls is an episode step. *)
#[local] Tactic Notation "quiet_method" "using" tactic(known) :=
  framed (@emits_nothing_framing W) by (exact I) using known.

Lemma quiet_stopMonitoring sid : quiet (@stopMonitoring W sid).
Proof.
  intros s. unfold stopMonitoring.
  destruct (monitoringIntervals s !! sid) as [interval|].
  - exists [ClearInterval interval]. split; [reflexivity | apply sublist_nil].
  - exists []. split; [reflexivity | apply sublist_nil].
Qed.

Lemma quiet_handlePollingError sid e : quiet (handlePollingError col sid e).
Proof.
  unfold handlePollingError. quiet_method using (apply quiet_stopMonitoring).
Qed.

Lemma quiet_handleTaskCompletion sid output idleMs :
  quiet (handleTaskCompletion col sid output idleMs).
Proof. unfold handleTaskCompletion. quiet_method using fail. Qed.

Lemma quiet_checkTaskCompletion sid output :
  quiet (checkTaskCompletion col sid output).
Proof.
  unfold checkTaskCompletion.
  quiet_method using (apply quiet_handleTaskCompletion).
Qed.

Lemma quiet_handleApprovalRequest sid output :
  quiet (handleApprovalRequest col sid output).
Proof. unfold handleApprovalRequest. quiet_method using fail. Qed.

Lemma quiet_detectApproval sid output : quiet (detectApproval col sid output).
Proof.
  unfold detectApproval. quiet_method using (apply quiet_handleApprovalRequest).
Qed.

Lemma quiet_executeQuotaSchedule sid q :
  quiet (executeQuotaSchedule col sid q).
Proof. unfold executeQuotaSchedule. quiet_method using fail. Qed.

Lemma quiet_quotaGate sid session : quiet (quotaGate col sid session).
Proof.
  unfold quotaGate. quiet_method using (apply quiet_executeQuotaSchedule).
Qed.

(** The quiet parts of a method some of whose calls are episode steps: the
    binds whose first part is quiet are split, the others are left. *)
#[local] Tactic Notation "all_quiet" :=
  solve [quiet_method using
           (first [ apply quiet_stopMonitoring | apply quiet_handlePollingError
                  | apply quiet_checkTaskCompletion
                  | apply quiet_detectApproval | apply quiet_quotaGate ])].

#[local] Tactic Notation "episode" :=
  repeat first
    [ progress cbv zeta
    | match goal with
      | |- keeps _ (match ?x with _ => _ end) => destruct x
      | |- keeps _ (if ?b then _ else _) => destruct b
      end
    | match goal with
      | |- keeps _ (bind _ _) => apply emits_bind_quiet; [all_quiet | intros ?]
      end
    | apply emits_quiet; all_quiet ].

Lemma episode_tryImmediateContinuation sid output :
  keeps (emits [continueSent]) (tryImmediateContinuation col sid output).
Proof.
  unfold tryImmediateContinuation.
  apply emits_tryCatch; [|intros e; all_quiet]. episode.
  apply (emits_bind (first := [continueSent]) (then_ := []));
    [apply emits_call_step; reflexivity | intros ?]. all_quiet.
Qed.

Lemma episode_performAutoContinuation sid :
  keeps (emits [continueSent]) (performAutoContinuation col sid).
Proof.
  unfold performAutoContinuation.
  apply emits_tryCatch; [|intros e; all_quiet]. episode.
  apply (emits_bind (first := [continueSent]) (then_ := []));
    [apply emits_call_step; reflexivity | intros ?]. all_quiet.
Qed.

Lemma episode_scheduleAndNotify sid output :
  keeps (emits [limitNotice]) (scheduleAndNotify col sid output).
Proof.
  unfold scheduleAndNotify. episode.
  apply (emits_bind (first := [limitNotice]) (then_ := []));
    [apply emits_notify_step; reflexivity | intros ?]. all_quiet.
Qed.

Lemma episode_handleLimitDetected sid output :
  keeps (emits [limitNotice; continueSent; limitEvent])
    (handleLimitDetected col sid output).
Proof.
  unfold handleLimitDetected. episode.
  apply (emits_bind (first := [limitEvent])
           (then_ := [limitNotice; continueSent]));
    [apply emits_emit_step; reflexivity | intros ?].
  episode.
  - apply (emits_bind (first := [continueSent]) (then_ := [limitNotice]));
      [apply episode_tryImmediateContinuation | intros ?].
    episode. apply episode_scheduleAndNotify.
  - apply (emits_weaken (steps := [limitNotice]));
      [|apply episode_scheduleAndNotify].
    apply sublist_skip, sublist_nil_l.
Qed.

Lemma episode_detectPatterns sid output :
  keeps (emits [limitNotice; continueSent; limitEvent])
    (detectPatterns col sid output).
Proof.
  unfold detectPatterns. episode.
  apply (emits_bind (first := [limitNotice; continueSent; limitEvent])
           (then_ := []));
    [apply episode_handleLimitDetected | intros ?]. all_quiet.
Qed.

Lemma episode_analyzeOutput sid output :
  keeps (emits [limitNotice; continueSent; limitEvent])
    (analyzeOutput col sid output).
Proof.
  unfold analyzeOutput. episode.
  apply (emits_bind (first := [limitNotice; continueSent; limitEvent])
           (then_ := [])); [|intros ?; all_quiet].
  episode. apply episode_detectPatterns.
Qed.

Lemma episode_pollCycle sid :
  keeps (emits [limitNotice; continueSent; limitEvent]) (pollCycle col sid).
Proof.
  unfold pollCycle, handleSessionEnded. episode.
  - apply (emits_weaken (steps := [continueSent]));
      [|apply episode_performAutoContinuation].
    apply sublist_cons, sublist_skip, sublist_nil_l.
  - apply episode_analyzeOutput.
Qed.

End EpisodeMethods.

(** X16.  In one poll cycle, whatever the pane shows and the collaborators
    answer, the monitor emits at most one [limit_detected] event, sends the
    continue sequence at most once and sends at most one limit notification,
    and in that order: the episode steps among the calls of the cycle (most
    recent first) are some of notification, continue, event. *)
Theorem cycle_has_each_episode_step_at_most_once :
  forall W (col : Collaborators W) (sessionId : jsstring) (s : Machine W),
    exists new,
      trace (snd (pollSession col sessionId s)) = new ++ trace s
      /\ omap episodeStep new
         `sublist_of` [limitNotice; continueSent; limitEvent].
Proof.
  intros W col sessionId s. revert s.
  change (keeps (emits [limitNotice; continueSent; limitEvent])
            (pollSession col sessionId)).
  unfold pollSession. apply emits_tryCatch.
  - apply episode_pollCycle.
  - intros e. apply quiet_handlePollingError.
Qed.

(** The attempt of [tryImmediateContinuation] when every call goes
    through. *)
Section Attempt.

Context {W : Type} (col : Collaborators W) (sessionId : jsstring).

Lemma tryImmediateContinuation_attempted (output : jsstring) (s : Machine W)
    (before after : jsstring) (session : Session.t) (w : W) :
  attempted col sessionId (world s) before after session w ->
  tryImmediateContinuation col sessionId output s
  = (Ok (negb (stillLimited before after), Some after),
     withWorld w
       (record (CapturePane (Session.tmuxSession session))
          (record (Sleep 3000)
             (record (SendContinueCommand (Session.tmuxSession session))
                (record (CapturePane (Session.tmuxSession session))
                   (record (GetSession sessionId) s)))))).
Proof.
  intros (w1 & w2 & w3 & H1 & H2 & H3 & H4).
  unfold tryImmediateContinuation. mred. rewrite H1. mred. rewrite H2. mred.
  rewrite H3. mred. rewrite H4. mred. unfold stillLimited. cbv zeta.
  destruct (hasLimitMessage after); cbn [andb negb]; [|reflexivity].
  destruct (_ <? 50)%nat; cbn [andb orb negb]; [reflexivity|].
  destruct (hasLimitMessage _ && isActiveTerminalState _); reflexivity.
Qed.

End Attempt.

(** X17.  [tryImmediateContinuation] never throws.  It answers with a
    response exactly when the attempt went through: the session was found,
    its pane captured, the continue sequence sent and the pane captured again
    after the wait of 3000 ms; the response is then that last capture, and
    success is reported exactly when the two captures do not show the limit
    still in force.  In every other case, such as a failure of a
    collaborator, it reports failure without a response; a failure that
    carries a response carries one that shows a limit message. *)
Theorem tryImmediateContinuation_outcomes :
  forall W (col : Collaborators W) (sessionId output : jsstring)
         (s : Machine W),
    let r := fst (tryImmediateContinuation col sessionId output s) in
    (exists success response, r = Ok (success, response))
    /\ (forall success after,
           r = Ok (success, Some after)
           <-> exists before session w,
                 attempted col sessionId (world s) before after session w
                 /\ success = negb (stillLimited before after))
    /\ r <> Ok (true, None)
    /\ (forall after, r = Ok (false, Some after) ->
                      hasLimitMessage after = true).
Proof.
  intros W col sessionId output s r.
  assert (Hback : forall success after before session w,
             attempted col sessionId (world s) before after session w ->
             success = negb (stillLimited before after) ->
             r = Ok (success, Some after)).
  { intros success after before session w Hat ->. subst r.
    now rewrite (@tryImmediateContinuation_attempted W col sessionId output s
                   before after session w Hat). }
  assert (Hforth : (exists before after session w,
                       attempted col sessionId (world s) before after
                         session w)
                   \/ r = Ok (false, None)).
  { subst r. unfold tryImmediateContinuation, attempted. mred.
    destruct (getSession col sessionId (world s)) as [[[session|]|e1] w1];
      mred; auto.
    destruct (capturePane col (Session.tmuxSession session) w1)
      as [[before|e2] w2] eqn:E2; mred; auto.
    destruct (sendContinueCommand col (Session.tmuxSession session) w2)
      as [[[]|e3] w3] eqn:E3; mred; auto.
    destruct (capturePane col (Session.tmuxSession session)
                (wait col 3000 w3)) as [[after|e4] w4] eqn:E4; mred; auto.
    left. exists before, after, session, w4, w1, w2, w3. auto. }
  repeat split.
  - destruct Hforth as [(before & after & session & w & Hat)| ->]; eauto.
  - intros Hr.
    destruct Hforth as [(before & after' & session & w & Hat)|Hnone];
      [|congruence].
    rewrite (Hback _ _ _ _ _ Hat eq_refl) in Hr. injection Hr as <- <-.
    exists before, session, w. auto.
  - intros (before & session & w & Hat & Hs). eapply Hback; eauto.
  - destruct Hforth as [(before & after & session & w & Hat)|Hnone];
      [|congruence].
    rewrite (Hback _ _ _ _ _ Hat eq_refl). discriminate.
  - intros after Hr.
    destruct Hforth as [(before & after' & session & w & Hat)|Hnone];
      [|congruence].
    rewrite (Hback _ _ _ _ _ Hat eq_refl) in Hr. injection Hr as Hs <-.
    apply negb_false_iff in Hs. unfold stillLimited in Hs. cbv zeta in Hs.
    now apply andb_true_iff in Hs as [Hs _].
Qed.

(* ===================================================================== *)
(** ** TmuxManager *)
(* ===================================================================== *)

(** X18.  [sendContinueCommand] runs its three command lines in order
    (clear the input, type the word, Enter), with a delay of 200 ms after
    each of the first two, and stops at the first one on which the shell fails:
    the lines after it are not run, and the error is the one of the shell
    behind the name of the step that failed.  Enter is run only when the
    input was cleared and the word typed. *)
Theorem sendContinueCommand_stops_at_first_failure :
  forall W (sh : Tmux.Shell W) (sessionName : jsstring) (s : Tmux.State W)
         (r1 r2 r3 : result jsstring) (w1 w2 w3 : W),
    let clear := Tmux.clearLine sessionName in
    let word := Tmux.typeLine sessionName (lit "continue") in
    let enter := Tmux.typeLine sessionName (lit "Enter") in
    Tmux.execAsync sh clear (Tmux.shellWorld s) = (r1, w1) ->
    Tmux.execAsync sh word (Tmux.setTimeout sh 200 w1) = (r2, w2) ->
    Tmux.execAsync sh enter (Tmux.setTimeout sh 200 w2) = (r3, w3) ->
    let cleared := [Tmux.Exec clear] ++ Tmux.log s in
    let typed := [Tmux.Exec word; Tmux.Delay 200] ++ cleared in
    let entered := [Tmux.Exec enter; Tmux.Delay 200] ++ typed in
    Tmux.sendContinueCommand sh sessionName s
    = match r1, r2, r3 with
      | Throw m, _, _ =>
          (Throw (lit "Failed to clear tmux input" ++ lit ": " ++ m),
           {| Tmux.shellWorld := w1; Tmux.log := cleared |})
      | Ok _, Throw m, _ =>
          (Throw (lit "Failed to send raw keys to tmux" ++ lit ": " ++ m),
           {| Tmux.shellWorld := w2; Tmux.log := typed |})
      | Ok _, Ok _, Throw m =>
          (Throw (lit "Failed to send raw keys to tmux" ++ lit ": " ++ m),
           {| Tmux.shellWorld := w3; Tmux.log := entered |})
      | Ok _, Ok _, Ok _ =>
          (Ok tt, {| Tmux.shellWorld := w3; Tmux.log := entered |})
      end.
Proof.
  intros W sh sessionName s r1 r2 r3 w1 w2 w3 clear word enter H1 H2 H3
    cleared typed entered.
  unfold Tmux.sendContinueCommand, Tmux.clearInput, Tmux.sendRawKeys,
    Tmux.delay, Tmux.rethrow, Tmux.tryCatch, Tmux.bind, Tmux.run, Tmux.ret,
    Tmux.throw.
  fold (Tmux.clearLine sessionName). fold clear.
  fold (Tmux.typeLine sessionName (lit "continue")). fold word.
  fold (Tmux.typeLine sessionName (lit "Enter")). fold enter.
  rewrite H1. destruct r1 as [out1|m1]; [|reflexivity].
  cbn [Tmux.shellWorld Tmux.log]. rewrite H2.
  destruct r2 as [out2|m2]; [|reflexivity].
  cbn [Tmux.shellWorld Tmux.log]. rewrite H3.
  destruct r3 as [out3|m3]; reflexivity.
Qed.

Lemma sendContinueCommand_stops_at_first_failure_witness :
  Tmux.sendContinueCommand DownShell.shell (lit "test-tmux") DownShell.start
  = (Throw (lit "Failed to clear tmux input: no server running"),
     {| Tmux.shellWorld := tt;
        Tmux.log := [Tmux.Exec (Tmux.clearLine (lit "test-tmux"))] |}).
Proof.
  apply (@sendContinueCommand_stops_at_first_failure unit DownShell.shell
           (lit "test-tmux") DownShell.start
           (Throw (lit "no server running")) (Throw (lit "no server running"))
           (Throw (lit "no server running")) tt tt tt); reflexivity.
Defined.

(** X19.  When the probe [tmux has-session] fails or does not answer within
    five seconds, [sessionExists] answers false instead of throwing, and a
    poll cycle of a monitor over this [TmuxManager] then stops monitoring the
    session at once: the cycle ends without error, no polling error is
    counted, nothing is emitted or notified, and the state and the interval
    of the session are removed. *)
Theorem failed_probe_stops_monitoring :
  forall W (sh : Tmux.Shell W) (base : Collaborators (Tmux.State W))
         (sessionId : jsstring) (s : Machine (Tmux.State W))
         (session : Session.t) (w1 : Tmux.State W) (e : jsstring) (w2 : W),
    getSession base sessionId (world s) = (Ok (Some session), w1) ->
    Tmux.execWithin sh 5000 (Tmux.probeLine (Session.tmuxSession session))
      (Tmux.shellWorld w1) = (Throw e, w2) ->
    let r := pollSession (overTmux sh base) sessionId s in
    fst r = Ok tt
    /\ sessionStates (snd r) !! sessionId = None
    /\ monitoringIntervals (snd r) !! sessionId = None
    /\ trace (snd r)
       = match monitoringIntervals s !! sessionId with
         | Some interval => [ClearInterval interval]
         | None => []
         end
         ++ [SessionExists (Session.tmuxSession session);
             GetSession sessionId]
         ++ trace s.
Proof.
  intros W sh base sessionId s session w1 e w2 H1 H2 r. subst r.
  assert (Hprobe : sessionExists (overTmux sh base)
                     (Session.tmuxSession session) w1
                   = (Ok false,
                      {| Tmux.shellWorld := w2;
                         Tmux.log :=
                           Tmux.Exec
                             (Tmux.probeLine (Session.tmuxSession session))
                           :: Tmux.log w1 |})).
  { cbn [sessionExists overTmux].
    unfold Tmux.sessionExists, Tmux.tryCatch, Tmux.bind, Tmux.runWithin.
    fold (Tmux.probeLine (Session.tmuxSession session)). now rewrite H2. }
  assert (Hrun : pollCycle (overTmux sh base) sessionId s
                 = stopMonitoring sessionId
                     (withWorld
                        {| Tmux.shellWorld := w2;
                           Tmux.log :=
                             Tmux.Exec
                               (Tmux.probeLine (Session.tmuxSession session))
                             :: Tmux.log w1 |}
                        (record (SessionExists (Session.tmuxSession session))
                           (withWorld w1 (record (GetSession sessionId) s))))).
  { unfold pollCycle. unfold bind at 1. unfold call at 1.
    change (getSession (overTmux sh base)) with (getSession base).
    rewrite H1. cbv zeta. unfold bind at 1. unfold call at 1.
    cbn [world withWorld record]. rewrite Hprobe. reflexivity. }
  unfold pollSession, tryCatch. rewrite Hrun. unfold stopMonitoring.
  cbn [monitoringIntervals withWorld record].
  destruct (monitoringIntervals s !! sessionId) as [interval|] eqn:E;
    cbn [fst snd sessionStates monitoringIntervals trace withStates
         withIntervals withWorld record];
    rewrite ?lookup_delete_eq; auto.
Qed.

Lemma failed_probe_stops_monitoring_witness :
  let r := pollSession (overTmux DownShell.shell DownShell.base)
             Mock.sessionId DownShell.watching in
  fst r = Ok tt
  /\ sessionStates (snd r) !! Mock.sessionId = None
  /\ monitoringIntervals (snd r) !! Mock.sessionId = None
  /\ trace (snd r)
     = match monitoringIntervals DownShell.watching !! Mock.sessionId with
       | Some interval => [ClearInterval interval]
       | None => []
       end
       ++ [SessionExists (Session.tmuxSession Mock.session);
           GetSession Mock.sessionId]
       ++ trace DownShell.watching.
Proof.
  apply (@failed_probe_stops_monitoring unit DownShell.shell DownShell.base
           Mock.sessionId DownShell.watching Mock.session DownShell.start
           (lit "Timeout") tt); reflexivity.
Defined.

(* ===================================================================== *)
(** ** Failures *)
(* ===================================================================== *)

Section Failures.

Context {W : Type} (col : Collaborators W).

Lemma tryCatch_returns (m : @M W unit) (h : jsstring -> @M W unit)
    (s : Machine W) :
  (forall e s', fst (h e s') = Ok tt) -> fst (tryCatch m h s) = Ok tt.
Proof.
  intros Hh. unfold tryCatch. destruct (m s) as [[[]|e] s']; [reflexivity|].
  apply Hh.
Qed.

End Failures.

(** X20.  No failure of a collaborator leaves [performAutoContinuation],
    [executeQuotaSchedule] or [safeNotifyDiscord] as an exception, and none
    leaves [pollSession] in a cycle that emits no error event: each of them
    then returns normally, from every machine and for every behaviour of the
    session manager, the pane and the bot.  (The cycle that exhausts the
    retry budget emits the error event outside any [try]; an emitter without
    a listener for that event throws there, which is why the statement on
    [pollSession] is limited to the other cycles.) *)
Theorem cycle_swallows_every_failure :
  forall W (col : Collaborators W) (sessionId : jsstring)
         (quotaSchedule : QuotaSchedule.t) (n : Notification.t)
         (s : Machine W),
    (errorEvents (trace (snd (pollSession col sessionId s)))
     = errorEvents (trace s) ->
     fst (pollSession col sessionId s) = Ok tt)
    /\ fst (performAutoContinuation col sessionId s) = Ok tt
    /\ fst (executeQuotaSchedule col sessionId quotaSchedule s) = Ok tt
    /\ fst (safeNotifyDiscord col sessionId n s) = Ok tt.
Proof.
  intros W col sessionId quotaSchedule n s. repeat split.
  - intros Hquiet. unfold pollSession, tryCatch in *.
    destruct (cycleOk_pollCycle col sessionId sessionId s) as [_ Hthrow].
    destruct (pollCycle col sessionId s) as [[[]|e] s1]; cbn [fst snd] in *;
      [reflexivity|].
    destruct Hthrow as (_ & _ & _ & _ & new & Htr & Herr).
    revert Hquiet. unfold handlePollingError. mred.
    destruct (sessionStates s1 !! sessionId) as [st|]; [|reflexivity].
    destruct (_ <=? _); [|reflexivity].
    (* the budget is exhausted: the error event is emitted *)
    unfold stopMonitoring. mred.
    destruct (monitoringIntervals _ !! sessionId); mred;
      destruct (clock col _) as [t w]; mred;
      rewrite Htr, !errorEvents_cons, errorEvents_app, Herr;
      cbn [isErrorEvent MonitorEvent.type]; intros Hquiet; lia.
  - apply tryCatch_returns. reflexivity.
  - apply tryCatch_returns. reflexivity.
  - unfold safeNotifyDiscord. destruct (sendNotification col) as [send|];
      [|reflexivity].
    apply tryCatch_returns. reflexivity.
Qed.

Lemma cycle_swallows_every_failure_witness :
  let w :=
    {| Mock.registry := {[ Mock.sessionId := Mock.session ]};
       Mock.screen := [Throw (lit "no server running")];
       Mock.colorScreen := []; Mock.time := 60000 |} in
  let s := Mock.watching (initialState 0) w in
  fst (pollCycle Mock.collaborators Mock.sessionId s)
  = Throw (lit "no server running")
  /\ fst (pollSession Mock.collaborators Mock.sessionId s) = Ok tt.
Proof.
  intros w s. split; [reflexivity|].
  apply (proj1 (@cycle_swallows_every_failure _ Mock.collaborators
                  Mock.sessionId
                  {| QuotaSchedule.time := lit "5am";
                     QuotaSchedule.command := lit "/status";
                     QuotaSchedule.nextExecution := 0 |}
                  {| Notification.type := n_limit;
                     Notification.sessionId := Mock.sessionId;
                     Notification.sessionName := lit "test";
                     Notification.message := [];
                     Notification.metadata := [] |} s)).
  reflexivity.
Defined.

(** X21.  A report of an approval dialog that fails is not made again.
    When the lookup of the session name throws, [handleApprovalRequest] has
    already stored the question of the dialog: it throws without having sent
    the notification, and from then on the same dialog is taken for reported
    and the method returns at once. *)
Theorem failed_approval_report_is_not_retried :
  forall W (col : Collaborators W) (sessionId output : jsstring)
         (s : Machine W) (st : SessionState.t) (t : Z) (w1 w2 : W)
         (e : jsstring),
    sessionStates s !! sessionId = Some st ->
    SessionState.lastApprovalQuestion st
    <> Some (ApprovalInfo.question (extractApprovalInfo output)) ->
    clock col (world s) = (t, w1) ->
    getSession col sessionId w1 = (Throw e, w2) ->
    let r := handleApprovalRequest col sessionId output s in
    fst r = Throw e
    /\ approvalNotifications (trace (snd r)) = approvalNotifications (trace s)
    /\ handleApprovalRequest col sessionId output (snd r) = (Ok tt, snd r).
Proof.
  intros W col sessionId output s st t w1 w2 e Hst Hq H1 H2 r.
  assert (Hrun : r = (Throw e,
                      withWorld w2
                        (record (GetSession sessionId)
                           (record
                              (Emit
                                 {| MonitorEvent.type :=
                                      EventType.approval_needed;
                                    MonitorEvent.sessionId := sessionId;
                                    MonitorEvent.data :=
                                      ApprovalData output
                                        (extractApprovalInfo output)
                                        (lit "approval_dialog");
                                    MonitorEvent.timestamp := t |})
                              (withStates
                                 (alter
                                    (SessionState.set_lastApprovalQuestion
                                       (Some (ApprovalInfo.question
                                                (extractApprovalInfo output))))
                                    sessionId (sessionStates s)) s))))).
  { subst r. unfold handleApprovalRequest. mred. rewrite Hst.
    destruct (SessionState.lastApprovalQuestion st) as [q0|] eqn:E.
    - destruct (eqb q0 _) eqn:Eq.
      + apply eqb_eq in Eq. congruence.
      + mred. rewrite H1. mred. rewrite H2. reflexivity.
    - mred. rewrite H1. mred. rewrite H2. reflexivity. }
  rewrite Hrun. cbn [fst snd]. split; [reflexivity|]. split; [reflexivity|].
  unfold handleApprovalRequest. mred.
  rewrite lookup_alter_eq, Hst. cbn [fmap option_fmap option_map
    SessionState.lastApprovalQuestion
    SessionState.set_lastApprovalQuestion].
  now rewrite eqb_refl.
Qed.

Lemma failed_approval_report_is_not_retried_witness :
  let s := DownShell.watching in
  let col :=
    {| getSession := fun _ w => (Throw (lit "session store unreadable"), w);
       updateSession := updateSession DownShell.base;
       sessionExists := sessionExists DownShell.base;
       capturePane := capturePane DownShell.base;
       capturePaneWithColors := capturePaneWithColors DownShell.base;
       sendRawKeys := sendRawKeys DownShell.base;
       sendContinueCommand := sendContinueCommand DownShell.base;
       sendNotification := sendNotification DownShell.base;
       clock := clock DownShell.base;
       wait := wait DownShell.base;
       timezone := 0;
       generateQuotaMessage := generateQuotaMessage DownShell.base |} in
  let r := handleApprovalRequest col Mock.sessionId Fixtures.proceed s in
  fst r = Throw (lit "session store unreadable")
  /\ approvalNotifications (trace (snd r)) = approvalNotifications (trace s)
  /\ handleApprovalRequest col Mock.sessionId Fixtures.proceed (snd r)
     = (Ok tt, snd r).
Proof.
  intros s col.
  apply (@failed_approval_report_is_not_retried _ col Mock.sessionId
           Fixtures.proceed s (initialState 0) 0 DownShell.start
           DownShell.start (lit "session store unreadable"));
    try reflexivity.
  discriminate.
Defined.

(** X22.  For five minutes after a continuation, a limit message is not
    handled, and neither is anything else of the new output: with
    [lastContinuationTime] less than five minutes before the reading of the
    clock, [detectPatterns] on an output that shows a limit message and an
    active prompt returns at once, without looking for an approval dialog in
    that output. *)
Theorem limit_is_ignored_during_cooldown :
  forall W (col : Collaborators W) (sessionId output : jsstring)
         (s : Machine W) (st : SessionState.t) (last t : Z) (w : W),
    sessionStates s !! sessionId = Some st ->
    SessionState.awaitingContinuation st = false ->
    SessionState.lastContinuationTime st = Some last ->
    hasLimitMessage output = true ->
    isActiveTerminalState output = true ->
    clock col (world s) = (t, w) ->
    t - last < 5 * 60 * 1000 ->
    detectPatterns col sessionId output s = (Ok tt, withWorld w s).
Proof.
  intros W col sessionId output s st last t w Hst Haw Hlast Hlimit Hactive
    Hclock Hcool.
  unfold detectPatterns. mred. rewrite Hst, Hlimit, Hactive, Haw, Hlast.
  cbn [andb negb]. mred. rewrite Hclock. mred.
  destruct (Z.ltb_spec (t - last) CONTINUATION_COOLDOWN_MS) as [_|Hge];
    [reflexivity|].
  unfold CONTINUATION_COOLDOWN_MS in Hge. lia.
Qed.

Lemma limit_is_ignored_during_cooldown_witness :
  let output :=
    lit "5-hour limit reached. Your limit resets at 3pm" ++ nl
    ++ Fixtures.proceed ++ nl ++ lit "> " in
  let s :=
    Mock.watching (continuedAt 0 (initialState 0))
      (Mock.worldAt 60000 [output] []) in
  detectApprovalDialog output = true
  /\ detectPatterns Mock.collaborators Mock.sessionId output s = (Ok tt, s).
Proof.
  intros output s. split; [vm_compute; reflexivity|].
  apply (@limit_is_ignored_during_cooldown _ Mock.collaborators Mock.sessionId
           output s (continuedAt 0 (initialState 0)) 0 60000
           (Mock.worldAt 60000 [output] []));
    vm_compute; reflexivity.
Defined.

(* ===================================================================== *)
(** ** What is scheduled and typed *)
(* ===================================================================== *)

(** X23.  The instant that [handleLimitDetected] schedules is always in the
    five hours that follow: after the scheduling half of the method, the
    session has the schedule it had before or one that is strictly after the
    instant read from the clock and at most five hours after it. *)
Theorem scheduled_time_is_within_five_hours :
  forall W (col : Collaborators W) (sessionId output : jsstring)
         (s : Machine W) (st : SessionState.t) (t : Z) (w : W),
    sessionStates s !! sessionId = Some st ->
    clock col (world s) = (t, w) ->
    let s' := snd (scheduleAndNotify col sessionId output s) in
    exists st',
      sessionStates s' !! sessionId = Some st'
      /\ (SessionState.scheduledResetTime st'
          = SessionState.scheduledResetTime st
          \/ exists resetTime,
               SessionState.scheduledResetTime st' = Some resetTime
               /\ t < resetTime <= t + 5 * msPerHour).
Proof.
  intros W col sessionId output s st t w Hst Hclock s'. subst s'.
  assert (Hrest : forall (s1 : Machine W) resetTime,
             let rest :=
               bind (sessionNameOf col sessionId) (fun sessionName =>
               bind (now col) (fun detectedAt =>
               bind (safeNotifyDiscord col sessionId
                       {| Notification.type := n_limit;
                          Notification.sessionId := sessionId;
                          Notification.sessionName := sessionName;
                          Notification.message :=
                            lit "Usage limit reached. Will automatically continue when limit resets.";
                          Notification.metadata :=
                            [("resetTime"%string,
                              MStr (resetTimeOrSentinel resetTime));
                             ("detectedAt"%string, MDate detectedAt)] |})
                 (fun _ =>
                    call (UpdateSession sessionId (SetStatus waiting))
                      (updateSession col sessionId (SetStatus waiting))))) in
             sessionStates (snd (rest s1)) = sessionStates s1).
  { intros s1 resetTime rest. subst rest. unfold safeNotifyDiscord.
    destruct (sendNotification col) as [send|]; mred;
      destruct (getSession col sessionId (world s1)) as [[o|e1] w1]; mred;
      try reflexivity;
      destruct (clock col w1) as [t2 w2]; mred;
      try match goal with
          | |- context [send ?a ?b ?c] =>
              destruct (send a b c) as [[[]|e5] w5]; mred
          end;
      match goal with
      | |- context [updateSession col ?a ?b ?c] =>
          destruct (updateSession col a b c) as [[[]|e6] w6]
      end; reflexivity. }
  unfold scheduleAndNotify. cbv zeta.
  destruct (extractResetTime output) as [[|c timeStr]|] eqn:E.
  - unfold bind at 1. unfold ret at 1. rewrite Hrest.
    exists st. auto.
  - unfold bind at 1. unfold bind at 1. unfold now at 1. rewrite Hclock.
    destruct (parseResetTimeAt (timezone col) t (c :: timeStr))
      as [resetTime|] eqn:Hparse.
    + unfold modifyState at 1. rewrite Hrest.
      cbn [sessionStates withStates withWorld].
      rewrite lookup_alter_eq, Hst. eexists. split; [reflexivity|].
      right. exists resetTime. split; [reflexivity|].
      unfold parseResetTimeAt in Hparse.
      destruct (resetDeadline (timezone col) t (c :: timeStr))
        as [deadline|] eqn:Hd; [|discriminate].
      apply resetDeadline_after_now in Hd.
      destruct (Z.ltb_spec (5 * msPerHour) (deadline - t)) as [Hfar|Hnear];
        [discriminate|].
      injection Hparse as <-. lia.
    + unfold ret at 1. rewrite Hrest. exists st. auto.
  - unfold bind at 1. unfold ret at 1. rewrite Hrest.
    exists st. auto.
Qed.

Lemma scheduled_time_is_within_five_hours_witness :
  let output := lit "5-hour limit reached. Your limit resets at 3:45 PM" in
  let t := 100 * msPerDay + 15 * msPerHour in
  let s := Mock.watching (initialState 0) (Mock.worldAt t [output] []) in
  let s' := snd (scheduleAndNotify Mock.collaborators Mock.sessionId output
                   s) in
  exists st',
    sessionStates s' !! Mock.sessionId = Some st'
    /\ (SessionState.scheduledResetTime st'
        = SessionState.scheduledResetTime (initialState 0)
        \/ exists resetTime,
             SessionState.scheduledResetTime st' = Some resetTime
             /\ t < resetTime <= t + 5 * msPerHour).
Proof.
  intros output t s.
  apply (@scheduled_time_is_within_five_hours _ Mock.collaborators
           Mock.sessionId output s (initialState 0) t
           (Mock.worldAt t [output] [])); reflexivity.
Defined.

(** X24.  Before the execution time of a quota schedule the gate never
    sends Enter: it types the staged command at most once, and only when the
    command was not typed before and the session is more than five seconds
    old; otherwise it makes no call at all. *)
Theorem quota_gate_before_its_time :
  forall W (col : Collaborators W) (sessionId : jsstring)
         (session : Session.t) (quotaSchedule : QuotaSchedule.t)
         (s : Machine W) (st : SessionState.t) (t : Z) (w : W),
    Session.quotaSchedule session = Some quotaSchedule ->
    sessionStates s !! sessionId = Some st ->
    clock col (world s) = (t, w) ->
    t < QuotaSchedule.nextExecution quotaSchedule ->
    let r := quotaGate col sessionId session s in
    let typed :=
      SendRawKeys (Session.tmuxSession session)
        (QuotaSchedule.command quotaSchedule) in
    fst r <> Ok true
    /\ (trace (snd r) = trace s \/ trace (snd r) = typed :: trace s)
    /\ (SessionState.quotaCommandSent st = true
        \/ t - Session.created session <= 5000 ->
        trace (snd r) = trace s).
Proof.
  intros W col sessionId session quotaSchedule s st t w Hq Hst Hclock Hearly
    r typed. subst r typed.
  unfold quotaGate. rewrite Hq. mred. rewrite Hst, Hclock. mred.
  assert (Hnot : (QuotaSchedule.nextExecution quotaSchedule <=? t) = false)
    by (apply Z.leb_gt; exact Hearly).
  destruct (SessionState.quotaCommandSent st) eqn:Hsent; cbn [negb]; mred.
  - rewrite Hnot. cbn [andb fst snd trace].
    repeat split; auto; try discriminate.
  - destruct (Z.ltb_spec 5000 (t - Session.created session)) as [Hold|Hnew];
      mred.
    + destruct (sendRawKeys col (Session.tmuxSession session)
                  (QuotaSchedule.command quotaSchedule) w) as [[[]|e] w1];
        mred; rewrite ?Hnot; cbn [andb fst snd trace];
        (split; [discriminate|]); (split; [now right|]);
        intros [Hc|Hc]; [discriminate | lia | discriminate | lia].
    + rewrite Hnot. cbn [andb fst snd trace].
      repeat split; auto; try discriminate.
Qed.

Lemma quota_gate_before_its_time_witness :
  let quotaSchedule :=
    {| QuotaSchedule.time := lit "5:00";
       QuotaSchedule.command := lit "hello";
       QuotaSchedule.nextExecution := 90000 |} in
  let session :=
    Session.Build Mock.sessionId (lit "test") (lit "test-tmux") 0 active
      (Some quotaSchedule) in
  let s := Mock.watching (initialState 0) (Mock.worldAt 60000 [] []) in
  let r := quotaGate Mock.collaborators Mock.sessionId session s in
  let typed := SendRawKeys (lit "test-tmux") (lit "hello") in
  fst r <> Ok true
  /\ (trace (snd r) = trace s \/ trace (snd r) = typed :: trace s)
  /\ (SessionState.quotaCommandSent (initialState 0) = true
      \/ 60000 - Session.created session <= 5000 ->
      trace (snd r) = trace s).
Proof.
  intros quotaSchedule session s.
  apply (@quota_gate_before_its_time _ Mock.collaborators Mock.sessionId
           session quotaSchedule s (initialState 0) 60000
           (Mock.worldAt 60000 [] [])); reflexivity.
Defined.

(* ===================================================================== *)
(** ** The numbered options *)
(* ===================================================================== *)

Section NumberedOption.

Implicit Types (k : mstate -> option mstate) (pre tail run : jsstring)
  (caps : list (nat * jsstring)) (x y : mstate).

Lemma rmatch_class_ok (p : N -> bool) k pre c tail caps :
  p c = true ->
  rmatch plain (RClass false p) k (MS pre (c :: tail) caps)
  = k (MS (c :: pre) tail caps).
Proof.
  intros H. cbn [rmatch remaining xorb inClass ignoreCase plain]. now rewrite H.
Qed.

Lemma rmatch_class_no (p : N -> bool) k pre tail caps :
  headIs p tail = false ->
  rmatch plain (RClass false p) k (MS pre tail caps) = None.
Proof.
  intros H. destruct tail as [|c tail];
    cbn [rmatch remaining xorb inClass ignoreCase plain headIs] in *;
    [|rewrite H]; reflexivity.
Qed.

(** The greedy run of a class, up to the first code unit outside it. *)
Lemma starLoop_class_run (p : N -> bool) k run : forall n pre tail caps y,
  forallb p run = true ->
  headIs p tail = false ->
  (length run < n)%nat ->
  k (MS (rev run ++ pre) tail caps) = Some y ->
  starLoop (rmatch plain (RClass false p)) k n (MS pre (run ++ tail) caps)
  = Some y.
Proof.
  induction run as [|c run IH]; intros n pre tail caps y Hrun Htail Hn Hk.
  - cbn [app rev] in *. destruct n as [|n]; [exact Hk|].
    cbn [starLoop]. rewrite rmatch_class_no by exact Htail. exact Hk.
  - cbn [forallb] in Hrun. apply andb_true_iff in Hrun as [Hc Hrun].
    destruct n as [|n]; [cbn in Hn; lia|].
    cbn [starLoop app]. rewrite rmatch_class_ok by exact Hc.
    cbn [remaining length].
    assert (E : (length (run ++ tail) <? S (length (run ++ tail)))%nat = true)
      by (apply Nat.ltb_lt; lia).
    rewrite E. erewrite IH; [reflexivity | exact Hrun | exact Htail | |].
    + cbn in Hn. lia.
    + cbn [rev] in Hk. now rewrite <- app_assoc in Hk.
Qed.

Lemma exec_anchored_whole (r : regex) (s : jsstring) (m : matched) :
  exec plain (RSeq RBol r) s = Some m ->
  exists y, rmatch plain r Some (MS [] s []) = Some y
            /\ groups m = captures y
            /\ whole m = firstn (length s - length (remaining y)) s.
Proof.
  unfold exec. destruct (searchFrom plain (RSeq RBol r) [] s)
    as [[from y]|] eqn:E; [|discriminate].
  intros H. injection H as <-. exists y.
  destruct s as [|c s]; cbn [searchFrom] in E; rewrite rmatch_seq in E;
    cbn [rmatch atBol consumed] in E;
    destruct (rmatch plain r Some _) as [z|] eqn:Ez.
  - now injection E as <- <-.
  - discriminate.
  - now injection E as <- <-.
  - rewrite searchFrom_anchored in E by discriminate. discriminate.
Qed.

(** The number pattern on a line: one or more digits and a dot. *)
Lemma numberPrefix_sound (line : jsstring) (m : matched) :
  exec plain numberPrefix line = Some m ->
  exists digits rest,
    line = digits ++ lit "." ++ rest
    /\ digits <> [] /\ allDigits digits = true
    /\ group m 1 = Some digits
    /\ whole m = digits ++ lit ".".
Proof.
  unfold numberPrefix. cbn [RSeqs]. intros H.
  apply exec_anchored_whole in H as (y & H & Hg & Hw).
  rewrite rmatch_seq, rmatch_group in H. unfold RPlus in H.
  rewrite rmatch_seq in H.
  apply rmatch_digit_inv in H as (d & tl & Hr & Hd & H).
  cbn [remaining] in Hr. subst line.
  apply rmatch_star_class_inv in H as (run & rest & Hr & Hrun & H).
  unfold step in *. cbn [remaining consumed captures] in *. subst tl.
  change (d :: run ++ rest) with ((d :: run) ++ rest) in H.
  rewrite (capture_app 1 [] (rev run ++ [d]) (d :: run) rest [] []) in H.
  change (RStr ".") with (RSeq (RChar 46%N) REmpty) in H.
  rewrite !rmatch_seq in H.
  apply rmatch_char_inv in H as (ch & tl & Hr & Hc & H).
  cbn in Hc. subst ch. cbn [remaining] in Hr. subst rest.
  rewrite !rmatch_empty in H. injection H as <-.
  unfold step in *. cbn [remaining consumed captures] in *.
  exists (d :: run), tl. destruct m as [w g]. cbn [groups whole] in *.
  subst g w. repeat split.
  - discriminate.
  - unfold allDigits. cbn [forallb]. rewrite Hd. exact Hrun.
  - cbn [length app].
    replace (S (length (run ++ 46%N :: tl)) - length tl)%nat
      with (length ((d :: run) ++ [46%N]))
      by (cbn [length app]; rewrite !length_app; cbn [length]; lia).
    change (d :: run ++ 46%N :: tl) with ((d :: run) ++ [46%N] ++ tl).
    rewrite app_assoc, firstn_app, Nat.sub_diag, firstn_all.
    cbn [firstn]. now rewrite app_nil_r.
Qed.

Lemma searchFrom_first (fl : flags) (r : regex) pre rest y :
  rmatch fl r Some (MS pre rest []) = Some y ->
  searchFrom fl r pre rest = Some (rest, y).
Proof. intros H. destruct rest; cbn [searchFrom]; now rewrite H. Qed.

Lemma numberPrefix_complete (digits rest : jsstring) :
  digits <> [] -> allDigits digits = true ->
  exists m,
    exec plain numberPrefix (digits ++ lit "." ++ rest) = Some m
    /\ group m 1 = Some digits
    /\ whole m = digits ++ lit ".".
Proof.
  intros Hne Hd. destruct digits as [|d run]; [congruence|].
  unfold allDigits in Hd. cbn [forallb] in Hd.
  apply andb_true_iff in Hd as [Hd Hrun].
  change (lit ".") with [46%N].
  assert (Hmatch : rmatch plain numberPrefix Some
                     (MS [] ((d :: run) ++ [46%N] ++ rest) [])
                   = Some (MS (46%N :: rev run ++ [d]) rest
                             [(1%nat, d :: run)])).
  { unfold numberPrefix. cbn [RSeqs]. rewrite rmatch_seq.
    cbn [rmatch atBol consumed].
    change (rmatch plain (RGroup 1 (RPlus digit))
              (rmatch plain (RSeq (RStr ".") REmpty) Some)
              (MS [] ((d :: run) ++ [46%N] ++ rest) [])
            = Some (MS (46%N :: rev run ++ [d]) rest [(1%nat, d :: run)])).
    rewrite rmatch_group. unfold RPlus. rewrite rmatch_seq.
    cbn [app]. rewrite rmatch_digit_ok by exact Hd.
    change (rmatch plain (RStar digit) ?k ?x)
      with (starLoop (rmatch plain digit) k (S (length (remaining x))) x).
    cbn [remaining].
    apply starLoop_class_run; [exact Hrun | reflexivity | |].
    - rewrite length_app. cbn [length]. lia.
    - change (d :: run ++ 46%N :: rest) with ((d :: run) ++ [46%N] ++ rest).
      change (46%N :: rest) with ([46%N] ++ rest).
      rewrite (capture_app 1 [] (rev run ++ [d]) (d :: run)
                 ([46%N] ++ rest) [] []).
      change (RStr ".") with (RSeq (RChar 46%N) REmpty).
      cbn [app]. rewrite !rmatch_seq, rmatch_char_ok, !rmatch_empty.
      reflexivity. }
  unfold exec. rewrite (searchFrom_first _ _ _ _ Hmatch).
  eexists. split; [reflexivity|]. cbn [whole remaining].
  split; [reflexivity|].
  replace (length ((d :: run) ++ [46%N] ++ rest) - length rest)%nat
    with (length ((d :: run) ++ [46%N]))
    by (rewrite !length_app; cbn [length]; lia).
  rewrite app_assoc, firstn_app, Nat.sub_diag, firstn_all.
  cbn [firstn]. now rewrite app_nil_r.
Qed.

End NumberedOption.

(** X26.  [parseOption] gives an option exactly for the cleaned lines that
    begin with one or more digits and a dot.  The number of the option is the
    value of these digits (for up to fifteen digits, where [parseInt] is
    exact), and when the rest of the line, trimmed, does not end with a
    parenthesis group, that rest is the text and there is no shortcut. *)
Theorem parseOption_reads_numbered_lines :
  forall (cleanLine : jsstring),
    match parseOption cleanLine with
    | Some o =>
        exists digits rest,
          cleanLine = digits ++ lit "." ++ rest
          /\ digits <> [] /\ allDigits digits = true
          /\ ((length digits <= 15)%nat ->
              ApprovalOption.number o = parseDigits digits)
          /\ (exec plain shortcutSuffix (trim rest) = None ->
              ApprovalOption.text o = trim rest
              /\ ApprovalOption.shortcut o = None)
    | None =>
        ~ exists digits rest,
            cleanLine = digits ++ lit "." ++ rest
            /\ digits <> [] /\ allDigits digits = true
    end.
Proof.
  intros cleanLine. unfold parseOption.
  destruct (exec plain numberPrefix cleanLine) as [m|] eqn:E.
  - apply numberPrefix_sound in E
      as (digits & rest & -> & Hne & Hd & Hg & Hw).
    rewrite Hg, Hw. cbv zeta. cbn [from_option id default].
    assert (Hrest : skipn (length (digits ++ lit "."))
                      (digits ++ lit "." ++ rest) = rest)
      by (rewrite app_assoc; apply drop_app_length).
    rewrite Hrest.
    destruct (exec plain shortcutSuffix (trim rest)) as [sm|] eqn:Es;
      exists digits, rest;
      (split; [reflexivity|]); (split; [exact Hne|]); (split; [exact Hd|]);
      (split; [intros _; reflexivity|]).
    + intros H. congruence.
    + intros _. split; reflexivity.
  - intros (digits & rest & -> & Hne & Hd).
    destruct (numberPrefix_complete rest Hne Hd) as (m & Hm & _).
    congruence.
Qed.

(* ===================================================================== *)
(** ** The immediate continuation *)
(* ===================================================================== *)

(** X27.  When the attempt to continue at once succeeds, the limit is not
    notified.  On a session with no schedule and no earlier attempt, when
    the attempt goes through and the two captures do not show the limit still
    in force, [handleLimitDetected] emits the [limit_detected] event, makes
    the calls of the attempt and sets the status to active, and makes no
    other call: no limit notification is sent.  It leaves the session not
    awaiting, unscheduled, ready for a new attempt, and stamped with the
    instant read after the attempt; it ends as the status update ends. *)
Theorem immediate_success_is_not_notified :
  forall W (col : Collaborators W) (sessionId output : jsstring)
         (s : Machine W) (st : SessionState.t) (session : Session.t)
         (before after : jsstring) (detectedAt resumedAt : Z)
         (w0 w1 w2 : W),
    sessionStates s !! sessionId = Some st ->
    SessionState.scheduledResetTime st = None ->
    SessionState.immediateContinueAttempted st = false ->
    clock col (world s) = (detectedAt, w0) ->
    attempted col sessionId w0 before after session w1 ->
    stillLimited before after = false ->
    clock col w1 = (resumedAt, w2) ->
    let r := handleLimitDetected col sessionId output s in
    fst r = fst (updateSession col sessionId (SetStatus active) w2)
    /\ trace (snd r)
       = [UpdateSession sessionId (SetStatus active)]
         ++ attemptCalls sessionId session
         ++ [Emit {| MonitorEvent.type := EventType.limit_detected;
                     MonitorEvent.sessionId := sessionId;
                     MonitorEvent.data := LimitData output;
                     MonitorEvent.timestamp := detectedAt |}]
         ++ trace s
    /\ exists st',
         sessionStates (snd r) !! sessionId = Some st'
         /\ SessionState.awaitingContinuation st' = false
         /\ SessionState.immediateContinueAttempted st' = false
         /\ SessionState.scheduledResetTime st' = None
         /\ SessionState.lastContinuationTime st' = Some resumedAt.
Proof.
  intros W col sessionId output s st session before after detectedAt
    resumedAt w0 w1 w2 Hst Hsch Himm H0 Hat Hgone H2 r.
  subst r. unfold handleLimitDetected. mred. rewrite Hst, Hsch, H0. mred.
  rewrite Himm. cbn [negb]. mred.
  match goal with
  | |- context [tryImmediateContinuation col sessionId output ?m] =>
      rewrite (@tryImmediateContinuation_attempted W col sessionId output m
                 before after session w1 Hat)
  end.
  rewrite Hgone. cbn [negb fst]. mred. rewrite H2. mred.
  destruct (updateSession col sessionId (SetStatus active) w2)
    as [[[]|e] w3]; mred;
    (split; [reflexivity|]; split; [reflexivity|];
     eexists; split; [rewrite !lookup_alter_eq, Hst; reflexivity|];
     cbn; rewrite Hsch; auto).
Qed.

Lemma immediate_success_is_not_notified_witness :
  let before := Fixtures.claudeV2Limit in
  let after :=
    join [lit "> continue";
          lit "Let me pick up where we left off with the refactoring.";
          lit "Reading the files that were changed in the last step...";
          lit ""; lit "> "] in
  let w := Mock.worldAt 60000 [before; after] [] in
  let s := Mock.watching (initialState 0) w in
  let r := handleLimitDetected Mock.collaborators Mock.sessionId before s in
  hasLimitMessage before = true
  /\ fst r = Ok tt
  /\ trace (snd r)
     = [UpdateSession Mock.sessionId (SetStatus active)]
       ++ attemptCalls Mock.sessionId Mock.session
       ++ [Emit {| MonitorEvent.type := EventType.limit_detected;
                   MonitorEvent.sessionId := Mock.sessionId;
                   MonitorEvent.data := LimitData before;
                   MonitorEvent.timestamp := 60000 |}]
       ++ trace s
  /\ exists st',
       sessionStates (snd r) !! Mock.sessionId = Some st'
       /\ SessionState.awaitingContinuation st' = false
       /\ SessionState.immediateContinueAttempted st' = false
       /\ SessionState.scheduledResetTime st' = None
       /\ SessionState.lastContinuationTime st' = Some 63000.
Proof.
  intros before after w s. split; [vm_compute; reflexivity|].
  pose (w1 := {| Mock.registry := Mock.registry w;
                 Mock.screen := [Ok after];
                 Mock.colorScreen := []; Mock.time := 63000 |}).
  apply (@immediate_success_is_not_notified _ Mock.collaborators
           Mock.sessionId before s (initialState 0) Mock.session
           before after 60000 63000 w w1 w1); try reflexivity.
  pose (w2 := {| Mock.registry := Mock.registry w;
                 Mock.screen := [Ok after];
                 Mock.colorScreen := []; Mock.time := 60000 |}).
  exists w, w2, w2. repeat split.
Defined.

(* ===================================================================== *)
(** ** Poll cycles on the time line *)
(* ===================================================================== *)

Section Timers.

Context {W : Type} (col : Collaborators W) (sessionId : jsstring).

Lemma timers_framing : Framing (@noTimerSet W) anyCall anyField.
Proof.
  split; unfold noTimerSet.
  - reflexivity.
  - intros a b c Hab Hbc. now transitivity (timers b).
  - reflexivity.
  - reflexivity.
  - reflexivity.
Qed.

#[local] Abbreviation frugal := (keeps (@noTimerSet W)).

#[local] Tactic Notation "frugal_auto" tactic(known) :=
  framed timers_framing by (exact I) using known.

(** [stopMonitoring] clears a timer and sets none. *)
Lemma frugal_stopMonitoring : frugal (@stopMonitoring W sessionId).
Proof.
  intros s. unfold stopMonitoring, noTimerSet.
  destruct (monitoringIntervals s !! sessionId) as [interval|];
    cbn [timers withStates withIntervals record snd];
    [apply delete_subseteq | reflexivity].
Qed.

Lemma frugal_handlePollingError e : frugal (handlePollingError col sessionId e).
Proof.
  unfold handlePollingError. frugal_auto (apply frugal_stopMonitoring).
Qed.

Lemma frugal_handleTaskCompletion output idleMs :
  frugal (handleTaskCompletion col sessionId output idleMs).
Proof. unfold handleTaskCompletion. frugal_auto fail. Qed.

Lemma frugal_checkTaskCompletion output :
  frugal (checkTaskCompletion col sessionId output).
Proof.
  unfold checkTaskCompletion. frugal_auto (apply frugal_handleTaskCompletion).
Qed.

Lemma frugal_handleApprovalRequest output :
  frugal (handleApprovalRequest col sessionId output).
Proof. unfold handleApprovalRequest. frugal_auto fail. Qed.

Lemma frugal_tryImmediateContinuation output :
  frugal (tryImmediateContinuation col sessionId output).
Proof. unfold tryImmediateContinuation. frugal_auto fail. Qed.

Lemma frugal_scheduleAndNotify output :
  frugal (scheduleAndNotify col sessionId output).
Proof. unfold scheduleAndNotify. frugal_auto fail. Qed.

Lemma frugal_handleLimitDetected output :
  frugal (handleLimitDetected col sessionId output).
Proof.
  unfold handleLimitDetected.
  frugal_auto (first [apply frugal_tryImmediateContinuation
                     | apply frugal_scheduleAndNotify]).
Qed.

Lemma frugal_performAutoContinuation :
  frugal (performAutoContinuation col sessionId).
Proof. unfold performAutoContinuation. frugal_auto fail. Qed.

Lemma frugal_executeQuotaSchedule q :
  frugal (executeQuotaSchedule col sessionId q).
Proof. unfold executeQuotaSchedule. frugal_auto fail. Qed.

Lemma frugal_detectApproval output :
  frugal (detectApproval col sessionId output).
Proof.
  unfold detectApproval. frugal_auto (apply frugal_handleApprovalRequest).
Qed.

Lemma frugal_detectPatterns output :
  frugal (detectPatterns col sessionId output).
Proof.
  unfold detectPatterns.
  frugal_auto (first [apply frugal_handleLimitDetected
                     | apply frugal_detectApproval]).
Qed.

Lemma frugal_analyzeOutput output :
  frugal (analyzeOutput col sessionId output).
Proof.
  unfold analyzeOutput.
  frugal_auto (first [apply frugal_detectPatterns
                     | apply frugal_checkTaskCompletion]).
Qed.

Lemma frugal_quotaGate session : frugal (quotaGate col sessionId session).
Proof.
  unfold quotaGate. frugal_auto (apply frugal_executeQuotaSchedule).
Qed.

(** A poll cycle sets no timer, whatever it finds and however it ends. *)
Lemma frugal_pollSession : frugal (pollSession col sessionId).
Proof.
  unfold pollSession, pollCycle, handleSessionEnded.
  frugal_auto (first [apply frugal_stopMonitoring
                     | apply frugal_handlePollingError
                     | apply frugal_performAutoContinuation
                     | apply frugal_quotaGate
                     | apply frugal_analyzeOutput]).
Qed.

(** The timer [startMonitoring] sets. *)
Lemma startMonitoring_timers (s0 s1 : Machine W) :
  startMonitoring col sessionId s0 = (Ok tt, s1) ->
  options s1 = options s0
  /\ nextTimer s1 = S (nextTimer s0)
  /\ timers s1
     = <[nextTimer s0 := (sessionId, Options.pollInterval (options s0))]>
         (timers s0).
Proof.
  unfold startMonitoring. mred.
  destruct (getSession col sessionId (world s0)) as [[[session|]|e] w1]; mred;
    try discriminate.
  destruct (clock col w1) as [t w2]; mred.
  intros H. injection H as <-. repeat split.
Qed.

End Timers.

Lemma timerPeriod_positive (ms : Z) : 1 <= timerPeriod ms.
Proof.
  unfold timerPeriod.
  destruct (Z.ltb_spec ms 1), (Z.ltb_spec 2147483647 ms); cbn [orb]; lia.
Qed.

Lemma tickTime_mono (start period : Z) (j k : nat) :
  0 < period -> (j < k)%nat ->
  tickTime start period j + period <= tickTime start period k.
Proof.
  intros Hp Hjk. unfold tickTime.
  assert (H : period * (Z.of_nat j + 1 + 1) <= period * (Z.of_nat k + 1))
    by (apply Z.mul_le_mono_nonneg_l; lia).
  lia.
Qed.

(** Of the cycles of one timer that each complete within the period, at
    most one is in flight at an instant. *)
Lemma inFlight_one (start period : Z) (lasts : nat -> Z) (j k : nat) (t : Z) :
  0 < period -> (forall i, lasts i <= period) -> j <> k ->
  inFlight start period lasts j t = true ->
  inFlight start period lasts k t = false.
Proof.
  intros Hp Hshort Hjk Hj. unfold inFlight in *.
  apply andb_true_iff in Hj as [Hj1 Hj2].
  apply Z.leb_le in Hj1. apply Z.ltb_lt in Hj2.
  apply andb_false_iff.
  pose proof (Hshort j). pose proof (Hshort k).
  destruct (Nat.lt_total j k) as [Hlt | [Heq | Hgt]]; [|contradiction|].
  - left. apply Z.leb_gt. pose proof (tickTime_mono start Hp Hlt). lia.
  - right. apply Z.ltb_ge. pose proof (tickTime_mono start Hp Hgt). lia.
Qed.

(** C2, as the code has it.  When [startMonitoring] returns for a session
    that no live timer polls, exactly one timer polls the session
    afterwards, the one just set, with [pollInterval] as its delay.  A poll
    cycle sets no timer; [startMonitoring] called again for the session adds
    a second one and leaves the first.  Every tick of the timer starts a
    cycle, in flight from that tick whatever the cycles before are doing;
    when every cycle completes within the period of the timer, no two cycles
    of the session are in flight at the same instant. *)
Theorem cycles_disjoint_when_short :
  forall W (col : Collaborators W) (sessionId : jsstring)
         (s0 s1 : Machine W) (rt : Runtime),
    (forall timer ms, timers s0 !! timer <> Some (sessionId, ms)) ->
    startMonitoring col sessionId s0 = (Ok tt, s1) ->
    let pollInterval := Options.pollInterval (options s1) in
    let timer := nextTimer s0 in
    (forall live ms,
        timers s1 !! live = Some (sessionId, ms)
        <-> live = timer /\ ms = pollInterval)
    /\ (forall other s, timers (snd (pollSession col other s)) ⊆ timers s)
    /\ (forall s2,
           startMonitoring col sessionId s1 = (Ok tt, s2) ->
           nextTimer s1 <> timer
           /\ timers s2 !! timer = Some (sessionId, pollInterval)
           /\ timers s2 !! nextTimer s1 = Some (sessionId, pollInterval))
    /\ (forall index,
           0 < duration rt timer index ->
           cycleInFlight rt sessionId s1 (timer, index)
             (tickTime (setAt rt timer) (timerPeriod pollInterval) index)
           = true)
    /\ ((forall live index,
            duration rt live index <= timerPeriod pollInterval) ->
        forall cycle cycle' t,
          cycle <> cycle' ->
          cycleInFlight rt sessionId s1 cycle t = true ->
          cycleInFlight rt sessionId s1 cycle' t = false).
Proof.
  intros W col sessionId s0 s1 rt Hnone Hstart pollInterval timer.
  destruct (startMonitoring_timers col sessionId s0 Hstart)
    as (Hopt & Hnext & Htimers).
  assert (Hone : forall live ms,
             timers s1 !! live = Some (sessionId, ms)
             <-> live = timer /\ ms = pollInterval).
  { intros live ms. subst pollInterval timer. rewrite Htimers, Hopt.
    destruct (decide (live = nextTimer s0)) as [->|Hne].
    - rewrite lookup_insert_eq. split.
      + intros H. injection H as <-. auto.
      + intros [_ ->]. reflexivity.
    - rewrite lookup_insert_ne by congruence. split.
      + intros H. now apply Hnone in H.
      + intros [-> _]. contradiction. }
  assert (Hlive : timers s1 !! timer = Some (sessionId, pollInterval))
    by (apply Hone; auto).
  split; [exact Hone|]. split; [intros other; apply frugal_pollSession|].
  split; [|split].
  - intros s2 Hagain.
    destruct (startMonitoring_timers col sessionId s1 Hagain)
      as (Hopt2 & _ & Htimers2).
    assert (Hne : nextTimer s1 <> timer) by (subst timer; lia).
    split; [exact Hne|]. rewrite Htimers2. fold pollInterval. split.
    + rewrite lookup_insert_ne by exact Hne. exact Hlive.
    + apply lookup_insert_eq.
  - intros index Hlasts. unfold cycleInFlight, inFlight. cbn [fst snd].
    rewrite Hlive, eqb_refl. cbn [andb].
    apply andb_true_iff. split; [apply Z.leb_le | apply Z.ltb_lt]; lia.
  - intros Hshort [live index] [live' index'] t Hne Hin.
    unfold cycleInFlight in *. cbn [fst snd] in *.
    destruct (timers s1 !! live) as [[polled ms]|] eqn:E; [|discriminate].
    apply andb_true_iff in Hin as [Hp Hin]. apply eqb_eq in Hp. subst polled.
    apply Hone in E as [-> ->].
    destruct (timers s1 !! live') as [[polled' ms']|] eqn:E'; [|reflexivity].
    destruct (eqb polled' sessionId) eqn:Hp'; [|reflexivity].
    apply eqb_eq in Hp'. subst polled'. apply Hone in E' as [-> ->].
    cbn [andb].
    apply inFlight_one with (j := index); try assumption.
    + pose proof (timerPeriod_positive pollInterval). lia.
    + apply Hshort.
    + congruence.
Qed.

(** With the default options and cycles of 150 ms: at 2100 ms the first
    cycle of the timer is in flight and the second is not. *)
Lemma cycles_disjoint_when_short_witness :
  let s0 := newMonitor noOptions (Mock.worldAt 0 [] []) in
  let s1 := snd (startMonitoring Mock.collaborators Mock.sessionId s0) in
  let rt := {| setAt := fun _ => 0; duration := fun _ _ => 150 |} in
  cycleInFlight rt Mock.sessionId s1 (0%nat, 0%nat) 2100 = true
  /\ cycleInFlight rt Mock.sessionId s1 (0%nat, 1%nat) 2100 = false.
Proof.
  intros s0 s1 rt. split; [reflexivity|].
  apply (proj2 (proj2 (proj2 (proj2
           (@cycles_disjoint_when_short _ Mock.collaborators Mock.sessionId
              s0 s1 rt
              (fun timer ms H => ltac:(discriminate H))
              eq_refl))))
           (fun _ _ => ltac:(vm_compute; discriminate))
           (0%nat, 0%nat) (0%nat, 1%nat) 2100);
    [discriminate | reflexivity].
Defined.

(** C2, a run.  With the default options the timer of [startMonitoring] has
    a period of 2000 ms.  The first cycle finds a usage limit on the pane
    and waits 3000 ms in [tryImmediateContinuation]; at 4000 ms, when the
    timer starts the second cycle, the first one is still in flight. *)
Lemma poll_cycles_overlap :
  let out :=
    lit "5-hour limit reached. Your limit resets at 3:45pm" ++ nl ++ lit "> " in
  let s0 := newMonitor noOptions (Mock.worldAt 0 [out] []) in
  let s1 := snd (startMonitoring Mock.collaborators Mock.sessionId s0) in
  let s2 := snd (pollSession Mock.collaborators Mock.sessionId s1) in
  let rt :=
    {| setAt := fun _ => 0;
       duration := fun _ index =>
         match index with O => waited (trace s2) | _ => 1 end |} in
  timers s1 !! 0%nat = Some (Mock.sessionId, 2000)
  /\ waited (trace s2) = 3000
  /\ cycleInFlight rt Mock.sessionId s1 (0%nat, 0%nat) 4000 = true
  /\ cycleInFlight rt Mock.sessionId s1 (0%nat, 1%nat) 4000 = true.
Proof. vm_compute. repeat split. Qed.

(** A session started a second time without [stopMonitoring] in between is
    polled by two live timers (the first one is never cleared): set 100 ms
    apart, their cycles of 150 ms are both in flight at 2120 ms. *)
Lemma restarted_session_cycles_overlap :
  let s0 := newMonitor noOptions (Mock.worldAt 0 [] []) in
  let s1 := snd (startMonitoring Mock.collaborators Mock.sessionId s0) in
  let s2 := snd (startMonitoring Mock.collaborators Mock.sessionId s1) in
  let rt :=
    {| setAt := fun timer => match timer with O => 0 | _ => 100 end;
       duration := fun _ _ => 150 |} in
  timers s2 !! 0%nat = Some (Mock.sessionId, 2000)
  /\ timers s2 !! 1%nat = Some (Mock.sessionId, 2000)
  /\ cycleInFlight rt Mock.sessionId s2 (0%nat, 0%nat) 2120 = true
  /\ cycleInFlight rt Mock.sessionId s2 (1%nat, 0%nat) 2120 = true.
Proof. vm_compute. repeat split. Qed.
